(** * Breakout rooms of plugNmeet-server: lifecycle and duration sweep

    A shallow embedding of [internal/models/breakout_room.go] and
    [internal/models/scheduler.go].  The Go methods are state-passing
    functions over a [World]: the Redis hashes, the process-local map of
    rooms with a duration, the state of the collaborators that live outside
    the two files (room directory, token service, clock, network) and the
    trace of every call that leaves the two files. *)

From Stdlib Require Import ZArith Ascii String List Bool Lia.
From stdpp Require Import base option list gmap strings pretty fin_maps.
Import ListNotations.

Local Open Scope string_scope.
Local Open Scope Z_scope.
Local Open Scope list_scope.

(** ** Go values *)

(** A Go [error] value, identified by its message ([errors.New]). *)
Record error := errors_New { Error : string }.

(** [redis.Nil], what go-redis returns for a missing key or field. *)
Definition redis_Nil : error := errors_New "redis: nil".

(** A Go pair [(value, error)] whose value is only used when the error is nil. *)
Inductive result (A : Type) :=
| Ok (a : A)
| Err (e : error).
Arguments Ok {A} a.
Arguments Err {A} e.

(** [int64] arithmetic wraps around. *)
Definition int64_wrap (z : Z) : Z := (z + 2 ^ 63) mod 2 ^ 64 - 2 ^ 63.
Definition int64_add (a b : Z) : Z := int64_wrap (a + b).
Definition int64_mul (a b : Z) : Z := int64_wrap (a * b).
Definition int64_range (z : Z) : Prop := - 2 ^ 63 <= z < 2 ^ 63.

(** [fmt.Sprintf("%s:%s", a, b)] *)
Definition Sprintf_s_colon_s (a b : string) : string := a +:+ ":" +:+ b.

Definition breakoutRoomKey : string := "pnm:breakoutRoom:".

(** ** Data model of breakout_room.go *)

Record BreakoutRoomUser := {
  bu_Id : string;
  bu_Name : string
}.

Record BreakoutRoom := {
  br_Id : string;
  br_Title : string;
  br_Duration : Z;
  br_Users : list BreakoutRoomUser
}.

Definition BreakoutRoom_set_Duration (d : Z) (room : BreakoutRoom) : BreakoutRoom :=
  {| br_Id := br_Id room; br_Title := br_Title room;
     br_Duration := d; br_Users := br_Users room |}.

Definition BreakoutRoom_set_Id (i : string) (room : BreakoutRoom) : BreakoutRoom :=
  {| br_Id := i; br_Title := br_Title room;
     br_Duration := br_Duration room; br_Users := br_Users room |}.

Record CreateBreakoutRoomsReq := {
  cr_RoomId : string;
  cr_RequestedUserId : string;
  cr_Duration : Z;
  cr_WelcomeMsg : string;
  cr_Rooms : list BreakoutRoom
}.

Record JoinBreakoutRoomReq := {
  jr_RoomId : string;
  jr_BreakoutRoomId : string;
  jr_UserId : string
}.

Record IncreaseBreakoutRoomDurationReq := {
  ir_RoomId : string;
  ir_BreakoutRoomId : string;
  ir_Duration : Z
}.

Record SendBreakoutRoomMsgReq := {
  sr_RoomId : string;
  sr_BreakoutRoomId : string;
  sr_Msg : string
}.

Record EndBreakoutRoomReq := {
  er_RoomId : string;
  er_BreakoutRoomId : string
}.

(** scheduler.go *)
Record RedisRoomDurationCheckerReq := {
  dc_Type : string;
  dc_RoomId : string;
  dc_Duration : Z
}.

(** ** Types declared elsewhere in the repository *)

(** Modelled from the spec: the metadata of a room ([RoomMetadata], declared
    outside the two files), with the fields section 3 lists: [roomTitle],
    [welcomeMessage], [isBreakoutRoom] and the nested feature flags
    [roomDuration], [allowRecording], [allowRTMP],
    [breakoutRoomFeatures.{isAllow,isActive}], [waitingRoomFeatures.isActive]. *)
Record BreakoutRoomFeatures := {
  bf_IsAllow : bool;
  bf_IsActive : bool
}.

Record WaitingRoomFeatures := {
  wf_IsActive : bool
}.

Record RoomCreateFeatures := {
  ft_AllowRecording : bool;
  ft_AllowRTMP : bool;
  ft_RoomDuration : Z;
  ft_BreakoutRoomFeatures : BreakoutRoomFeatures;
  ft_WaitingRoomFeatures : WaitingRoomFeatures
}.

Record RoomMetadata := {
  rm_RoomTitle : string;
  rm_WelcomeMessage : string;
  rm_IsBreakoutRoom : bool;
  rm_Features : RoomCreateFeatures
}.

(** Modelled from the spec: the room directory's record of a room, of which
    the code reads the serialized metadata only ([LoadRoomMetadata], section 6). *)
Record RoomInfo := {
  ri_Metadata : string
}.

(** Modelled from the spec: the request of the directory's [CreateRoom]
    (section 6): the child room id and the template metadata. *)
Record RoomCreateReq := {
  rc_RoomId : string;
  rc_RoomMetadata : RoomMetadata
}.

(** Modelled from the spec: a participant's record in the parent room's
    registry and the user metadata it serializes; the code reads the display
    name and the admin flag (section 4.1, JoinBreakoutRoom). *)
Record ParticipantInfo := {
  pi_Name : string;
  pi_Metadata : string
}.

Record UserMetadata := {
  um_IsAdmin : bool
}.

(** Modelled from the spec: the token request, "target room id, user id,
    display name, admin flag, and full user metadata" (section 6). *)
Record UserInfo := {
  ui_UserId : string;
  ui_Name : string;
  ui_IsAdmin : bool;
  ui_UserMetadata : UserMetadata
}.

Record GenTokenReq := {
  gt_RoomId : string;
  gt_UserInfo : UserInfo
}.

(** Modelled from the spec: the message of the [websocket-fanout] topic,
    [{type, roomId, isAdmin, payload: {type, roomId, to?, body: {type,
    from: {userId}, msg}}}] (section 6). *)
Record ReqFrom := {
  rf_UserId : string
}.

Record DataMessageBody := {
  mb_Type : string;
  mb_From : ReqFrom;
  mb_Msg : string
}.

Record DataMessageRes := {
  dm_Type : string;
  dm_RoomId : string;
  dm_To : string;
  dm_Body : DataMessageBody
}.

Record WebsocketRedisMsg := {
  ws_Type : string;
  ws_Payload : DataMessageRes;
  ws_RoomId : string;
  ws_IsAdmin : bool
}.

(** Modelled from the spec: an entry of the process-local duration map,
    "start time + budget" (section 3), both [int64]. *)
Record RoomWithDuration := {
  rd_Duration : Z;
  rd_StartedAt : Z
}.

(** ** Calls that leave the two files *)

(** The go-redis commands the code issues.  [HSet] is the one-command
    pipeline [pp.HSet(...); pp.Exec(...)]. *)
Inductive RedisCmd :=
| HGet (key field : string)
| HGetAll (key : string)
| HSet (key : string) (vals : list (string * string))
| HDel (key field : string)
| Del (key : string)
| Publish (channel message : string).

(** One entry of the trace: the call with what it answered. *)
Inductive Call :=
| Redis (c : RedisCmd) (err : option error)
| LoadRoomInfoFromRedis_ (roomId : string) (res : result RoomInfo)
| UpdateRoomMetadata_ (roomId metadata : string) (err : option error)
| EndRoom_ (roomId : string) (err : option error)
| LoadParticipantInfoFromRedis_ (roomId userId : string) (res : result ParticipantInfo)
| CreateRoom_ (req : RoomCreateReq) (status : bool) (msg : string)
| DoGenerateToken_ (req : GenTokenReq) (res : result string)
| time_Now_ (unix : Z)
| log_Error_ (msg : string).

(** The collaborators outside the two files: [encoding/json], the room
    directory ([RoomService], [roomAuthModel]), the token service, the clock
    and the network under the Redis client.  Their state is [Ext]; every
    operation may answer and fail as it likes, and may change [Ext] as it
    likes (other processes act there too).  The hashes under
    [breakoutRoomKey] and the duration map of this process are not part of
    [Ext]: only the code of the two files changes them here. *)
Record Env := {
  Ext : Type;
  json_Unmarshal_RoomMetadata : string -> result RoomMetadata;
  json_Marshal_RoomMetadata : RoomMetadata -> result string;
  json_Unmarshal_BreakoutRoom : string -> result BreakoutRoom;
  json_Marshal_BreakoutRoom : BreakoutRoom -> result string;
  json_Unmarshal_UserMetadata : string -> result UserMetadata;
  json_Marshal_DurationCheckerReq : RedisRoomDurationCheckerReq -> result string;
  json_Marshal_WebsocketRedisMsg : WebsocketRedisMsg -> result string;
  roomService_LoadRoomInfoFromRedis : string -> Ext -> result RoomInfo * Ext;
  roomService_UpdateRoomMetadata : string -> string -> Ext -> option error * Ext;
  roomService_EndRoom : string -> Ext -> option error * Ext;
  roomService_LoadParticipantInfoFromRedis :
    string -> string -> Ext -> result ParticipantInfo * Ext;
  roomAuthModel_CreateRoom : RoomCreateReq -> Ext -> (bool * string) * Ext;
  authTokenModel_DoGenerateToken : GenTokenReq -> Ext -> result string * Ext;
  time_Now_Unix : Ext -> Z * Ext;
  redis_fault : RedisCmd -> Ext -> option error * Ext
}.

(** ** The world and the state monad of the models *)

Definition M (S A : Type) : Type := S -> A * S.

Definition ret {S A : Type} (a : A) : M S A := fun w => (a, w).

Definition bind {S A B : Type} (c : M S A) (k : A -> M S B) : M S B :=
  fun w => let (a, w') := c w in k a w'.

Declare Scope go_scope.
Delimit Scope go_scope with go.
Notation "x <- c ;; k" := (bind c (fun x => k))
  (at level 100, c at next level, right associativity) : go_scope.
Notation "c ;;; k" := (bind c (fun _ => k))
  (at level 100, right associativity) : go_scope.
Local Open Scope go_scope.

(** [rds] holds the Redis hashes (key, then field); [roomsWithDuration] is
    the process-local map behind [config.AppCnf.GetRoomsWithDurationMap];
    [trace] lists the calls made so far, oldest first. *)
Record World (env : Env) := mkWorld {
  ext : Ext env;
  rds : gmap string (gmap string string);
  roomsWithDuration : gmap string RoomWithDuration;
  trace : list Call
}.
Arguments ext {env} w.
Arguments rds {env} w.
Arguments roomsWithDuration {env} w.
Arguments trace {env} w.

Section Models.

Context (env : Env).

Local Abbreviation M := (M (World env)).

Definition emit (c : Call) : M unit := fun w =>
  (tt, {| ext := ext w; rds := rds w;
          roomsWithDuration := roomsWithDuration w; trace := trace w ++ [c] |}).

Definition call_ext {A : Type} (op : Ext env -> A * Ext env) : M A := fun w =>
  let (a, e) := op (ext w) in
  (a, {| ext := e; rds := rds w;
         roomsWithDuration := roomsWithDuration w; trace := trace w |}).

Definition get_rds : M (gmap string (gmap string string)) := fun w => (rds w, w).

Definition put_rds (s : gmap string (gmap string string)) : M unit := fun w =>
  (tt, {| ext := ext w; rds := s;
          roomsWithDuration := roomsWithDuration w; trace := trace w |}).

(** *** Collaborators, traced *)

Definition LoadRoomInfoFromRedis (roomId : string) : M (result RoomInfo) :=
  res <- call_ext (roomService_LoadRoomInfoFromRedis env roomId) ;;
  emit (LoadRoomInfoFromRedis_ roomId res) ;;;
  ret res.

Definition UpdateRoomMetadata (roomId metadata : string) : M (option error) :=
  err <- call_ext (roomService_UpdateRoomMetadata env roomId metadata) ;;
  emit (UpdateRoomMetadata_ roomId metadata err) ;;;
  ret err.

Definition EndRoom (roomId : string) : M (option error) :=
  err <- call_ext (roomService_EndRoom env roomId) ;;
  emit (EndRoom_ roomId err) ;;;
  ret err.

Definition LoadParticipantInfoFromRedis (roomId userId : string)
  : M (result ParticipantInfo) :=
  res <- call_ext (roomService_LoadParticipantInfoFromRedis env roomId userId) ;;
  emit (LoadParticipantInfoFromRedis_ roomId userId res) ;;;
  ret res.

(** Line 80 drops the third value [CreateRoom] returns; the status and the
    message are what the code reads. *)
Definition CreateRoom (req : RoomCreateReq) : M (bool * string) :=
  res <- call_ext (roomAuthModel_CreateRoom env req) ;;
  emit (CreateRoom_ req (fst res) (snd res)) ;;;
  ret res.

Definition DoGenerateToken (req : GenTokenReq) : M (result string) :=
  res <- call_ext (authTokenModel_DoGenerateToken env req) ;;
  emit (DoGenerateToken_ req res) ;;;
  ret res.

Definition time_Now : M Z :=
  t <- call_ext (time_Now_Unix env) ;;
  emit (time_Now_ t) ;;;
  ret t.

Definition log_Error (msg : string) : M unit := emit (log_Error_ msg).

(** *** The Redis client (go-redis v8)

    A command first crosses the network ([redis_fault]); when that fails the
    store is untouched and the command carries the error.  [HGet] of a missing
    field answers [redis.Nil]; [HGetAll] answers a map that is never nil when
    there is no error (empty for a missing key) and the nil map with an error. *)

Definition hash_at (key : string) (s : gmap string (gmap string string))
  : gmap string string := default ∅ (s !! key).

Definition hget (key field : string) (s : gmap string (gmap string string))
  : option string := s !! key ≫= (fun h => h !! field).

Definition hset (key : string) (vals : list (string * string))
  (s : gmap string (gmap string string)) : gmap string (gmap string string) :=
  <[key := foldr (fun kv h => <[kv.1 := kv.2]> h) (hash_at key s) vals]> s.

Definition hdel (key field : string) (s : gmap string (gmap string string))
  : gmap string (gmap string string) :=
  match s !! key with
  | None => s
  | Some h =>
      let h' := delete field h in
      if decide (h' = ∅) then delete key s else <[key := h']> s
  end.

(** What [HGet] answers, from what the network did and what is stored. *)
Definition HGet_reply (fault : option error) (stored : option string)
  : string * option error :=
  match fault with
  | Some e => ("", Some e)
  | None =>
      match stored with
      | Some v => (v, None)
      | None => ("", Some redis_Nil)
      end
  end.

Definition rc_HGet (key field : string) : M (string * option error) :=
  fault <- call_ext (redis_fault env (HGet key field)) ;;
  s <- get_rds ;;
  let reply := HGet_reply fault (hget key field s) in
  emit (Redis (HGet key field) (snd reply)) ;;;
  ret reply.

(** The map of the reply is a Go map: [None] is the nil map. *)
Definition rc_HGetAll (key : string) : M (option (gmap string string) * option error) :=
  fault <- call_ext (redis_fault env (HGetAll key)) ;;
  s <- get_rds ;;
  let reply :=
    match fault with
    | Some e => (None, Some e)
    | None => (Some (hash_at key s), None)
    end in
  emit (Redis (HGetAll key) (snd reply)) ;;;
  ret reply.

Definition rc_Pipeline_HSet_Exec (key : string) (vals : list (string * string))
  : M (option error) :=
  fault <- call_ext (redis_fault env (HSet key vals)) ;;
  s <- get_rds ;;
  (match fault with
   | Some _ => ret tt
   | None => put_rds (hset key vals s)
   end) ;;;
  emit (Redis (HSet key vals) fault) ;;;
  ret fault.

Definition rc_HDel (key field : string) : M (option error) :=
  fault <- call_ext (redis_fault env (HDel key field)) ;;
  s <- get_rds ;;
  (match fault with
   | Some _ => ret tt
   | None => put_rds (hdel key field s)
   end) ;;;
  emit (Redis (HDel key field) fault) ;;;
  ret fault.

Definition rc_Del (key : string) : M (option error) :=
  fault <- call_ext (redis_fault env (Del key)) ;;
  s <- get_rds ;;
  (match fault with
   | Some _ => ret tt
   | None => put_rds (delete key s)
   end) ;;;
  emit (Redis (Del key) fault) ;;;
  ret fault.

Definition rc_Publish (channel message : string) : M (option error) :=
  fault <- call_ext (redis_fault env (Publish channel message)) ;;
  emit (Redis (Publish channel message) fault) ;;;
  ret fault.

(** Ranging over a Go map; the nil map has no entry. *)
Definition go_range {V : Type} (m : option (gmap string V)) : list (string * V) :=
  match m with
  | None => []
  | Some m => map_to_list m
  end.

(** ** breakout_room.go *)

(** [fetchBreakoutRoom], lines 319-336. *)
Definition fetchBreakoutRoom (roomId breakoutRoomId : string) : M (result BreakoutRoom) :=
  reply <- rc_HGet (breakoutRoomKey +:+ roomId) breakoutRoomId ;;
  let (result, err) := reply in
  match err with
  | Some e => ret (Err e)
  | None =>
      if String.eqb result "" then ret (Err (errors_New "not found"))
      else
        match json_Unmarshal_BreakoutRoom env result with
        | Err e => ret (Err e)
        | Ok room => ret (Ok room)
        end
  end.

(** The loop of [fetchBreakoutRooms], lines 348-357: a record that does not
    deserialize is skipped, the others get the hash field as their id. *)
Fixpoint fetchBreakoutRooms_range (rooms : list (string * string))
  (breakoutRooms : list BreakoutRoom) : list BreakoutRoom :=
  match rooms with
  | [] => breakoutRooms
  | (i, r) :: rest =>
      match json_Unmarshal_BreakoutRoom env r with
      | Err _ => fetchBreakoutRooms_range rest breakoutRooms
      | Ok room =>
          fetchBreakoutRooms_range rest (breakoutRooms ++ [BreakoutRoom_set_Id i room])
      end
  end.

(** [fetchBreakoutRooms], lines 338-360.  The test of line 344 is
    [rooms != nil]. *)
Definition fetchBreakoutRooms (roomId : string) : M (result (list BreakoutRoom)) :=
  reply <- rc_HGetAll (breakoutRoomKey +:+ roomId) ;;
  let (rooms, err) := reply in
  match err with
  | Some e => ret (Err e)
  | None =>
      match rooms with
      | Some _ => ret (Err (errors_New "no breakout room found"))
      | None => ret (Ok (fetchBreakoutRooms_range (go_range rooms) []))
      end
  end.

(** The message of [broadcastNotification], lines 288-308. *)
Definition broadcastNotification_msg
  (roomId fromUserId toUserId broadcastMsg typeMsg mType : string) (isAdmin : bool)
  : WebsocketRedisMsg :=
  let payload :=
    {| dm_Type := typeMsg; dm_RoomId := roomId;
       dm_To := if String.eqb toUserId "" then "" else toUserId;
       dm_Body := {| mb_Type := mType;
                     mb_From := {| rf_UserId := fromUserId |};
                     mb_Msg := broadcastMsg |} |} in
  {| ws_Type := "sendMsg"; ws_Payload := payload;
     ws_RoomId := roomId; ws_IsAdmin := isAdmin |}.

(** [broadcastNotification], lines 287-317.  What [Publish] answers is dropped. *)
Definition broadcastNotification
  (roomId fromUserId toUserId broadcastMsg typeMsg mType : string) (isAdmin : bool)
  : M (option error) :=
  let msg :=
    broadcastNotification_msg roomId fromUserId toUserId broadcastMsg typeMsg mType isAdmin in
  match json_Marshal_WebsocketRedisMsg env msg with
  | Err e => ret (Some e)
  | Ok marshal =>
      rc_Publish "plug-n-meet-websocket" marshal ;;;
      ret None
  end.

(** The child-room template of lines 63-73. *)
Definition breakoutRoomTemplate (r : CreateBreakoutRoomsReq) (meta : RoomMetadata)
  : RoomMetadata :=
  {| rm_RoomTitle := rm_RoomTitle meta;
     rm_WelcomeMessage := cr_WelcomeMsg r;
     rm_IsBreakoutRoom := true;
     rm_Features :=
       {| ft_AllowRecording := false;
          ft_AllowRTMP := false;
          ft_RoomDuration := cr_Duration r;
          ft_BreakoutRoomFeatures :=
            {| bf_IsAllow := false;
               bf_IsActive := bf_IsActive (ft_BreakoutRoomFeatures (rm_Features meta)) |};
          ft_WaitingRoomFeatures := {| wf_IsActive := false |} |} |}.

Definition RoomMetadata_set_RoomTitle (t : string) (meta : RoomMetadata) : RoomMetadata :=
  {| rm_RoomTitle := t; rm_WelcomeMessage := rm_WelcomeMessage meta;
     rm_IsBreakoutRoom := rm_IsBreakoutRoom meta; rm_Features := rm_Features meta |}.

(** Line 120: [origMeta.Features.BreakoutRoomFeatures.IsActive = true]. *)
Definition RoomMetadata_set_IsActive (b : bool) (meta : RoomMetadata) : RoomMetadata :=
  let f := rm_Features meta in
  {| rm_RoomTitle := rm_RoomTitle meta; rm_WelcomeMessage := rm_WelcomeMessage meta;
     rm_IsBreakoutRoom := rm_IsBreakoutRoom meta;
     rm_Features :=
       {| ft_AllowRecording := ft_AllowRecording f;
          ft_AllowRTMP := ft_AllowRTMP f;
          ft_RoomDuration := ft_RoomDuration f;
          ft_BreakoutRoomFeatures :=
            {| bf_IsAllow := bf_IsAllow (ft_BreakoutRoomFeatures f); bf_IsActive := b |};
          ft_WaitingRoomFeatures := ft_WaitingRoomFeatures f |} |}.

(** The invitation loop of lines 106-112: an error is logged, the loop goes on. *)
Fixpoint CreateBreakoutRooms_invite (r : CreateBreakoutRoomsReq) (bRoomId : string)
  (users : list BreakoutRoomUser) : M unit :=
  match users with
  | [] => ret tt
  | u :: rest =>
      err <- broadcastNotification (cr_RoomId r) (cr_RequestedUserId r) (bu_Id u)
               bRoomId "SYSTEM" "JOIN_BREAKOUT_ROOM" false ;;
      (match err with
       | Some e => log_Error (Error e)
       | None => ret tt
       end) ;;;
      CreateBreakoutRooms_invite r bRoomId rest
  end.

(** One turn of the loop of lines 75-113; every [continue] ends the turn. *)
Definition CreateBreakoutRooms_room (r : CreateBreakoutRoomsReq) (meta : RoomMetadata)
  (room : BreakoutRoom) : M unit :=
  let bRoomId := Sprintf_s_colon_s (cr_RoomId r) (br_Id room) in
  let bRoom := {| rc_RoomId := bRoomId; rc_RoomMetadata := meta |} in
  res <- CreateRoom bRoom ;;
  let (status, msg) := res in
  if negb status then log_Error msg
  else
    let room := BreakoutRoom_set_Duration (cr_Duration r) room in
    match json_Marshal_BreakoutRoom env room with
    | Err e => log_Error (Error e)
    | Ok marshal =>
        err <- rc_Pipeline_HSet_Exec (breakoutRoomKey +:+ cr_RoomId r) [(bRoomId, marshal)] ;;
        match err with
        | Some e => log_Error (Error e)
        | None => CreateBreakoutRooms_invite r bRoomId (br_Users room)
        end
    end.

(** The loop of lines 75-113: [meta] is the one struct every turn retitles. *)
Fixpoint CreateBreakoutRooms_range (r : CreateBreakoutRoomsReq) (meta : RoomMetadata)
  (rooms : list BreakoutRoom) : M unit :=
  match rooms with
  | [] => ret tt
  | room :: rest =>
      let meta := RoomMetadata_set_RoomTitle (br_Title room) meta in
      CreateBreakoutRooms_room r meta room ;;;
      CreateBreakoutRooms_range r meta rest
  end.

(** [CreateBreakoutRooms], lines 53-132. *)
Definition CreateBreakoutRooms (r : CreateBreakoutRoomsReq) : M (option error) :=
  loaded <- LoadRoomInfoFromRedis (cr_RoomId r) ;;
  match loaded with
  | Err e => ret (Some e)
  | Ok mainRoom =>
      match json_Unmarshal_RoomMetadata env (ri_Metadata mainRoom) with
      | Err e => ret (Some e)
      | Ok meta =>
          let meta := breakoutRoomTemplate r meta in
          CreateBreakoutRooms_range r meta (cr_Rooms r) ;;;
          match json_Unmarshal_RoomMetadata env (ri_Metadata mainRoom) with
          | Err e => ret (Some e)
          | Ok origMeta =>
              let origMeta := RoomMetadata_set_IsActive true origMeta in
              match json_Marshal_RoomMetadata env origMeta with
              | Err e => ret (Some e)
              | Ok marshal =>
                  err <- UpdateRoomMetadata (cr_RoomId r) marshal ;;
                  match err with
                  | Some e => ret (Some e)
                  | None => ret None
                  end
              end
          end
      end
  end.

(** The membership loop of lines 146-151. *)
Fixpoint JoinBreakoutRoom_canJoin (users : list BreakoutRoomUser) (userId : string)
  (canJoin : bool) : bool :=
  match users with
  | [] => canJoin
  | u :: rest =>
      JoinBreakoutRoom_canJoin rest userId
        (if String.eqb (bu_Id u) userId then true else canJoin)
  end.

(** [JoinBreakoutRoom], lines 140-180. *)
Definition JoinBreakoutRoom (r : JoinBreakoutRoomReq) : M (result string) :=
  fetched <- fetchBreakoutRoom (jr_RoomId r) (jr_BreakoutRoomId r) ;;
  match fetched with
  | Err e => ret (Err e)
  | Ok room =>
      let canJoin := JoinBreakoutRoom_canJoin (br_Users room) (jr_UserId r) false in
      if negb canJoin then ret (Err (errors_New "you can't join in this room"))
      else
        loaded <- LoadParticipantInfoFromRedis (jr_RoomId r) (jr_UserId r) ;;
        match loaded with
        | Err e => ret (Err e)
        | Ok p =>
            match json_Unmarshal_UserMetadata env (pi_Metadata p) with
            | Err e => ret (Err e)
            | Ok meta =>
                let req :=
                  {| gt_RoomId := jr_BreakoutRoomId r;
                     gt_UserInfo :=
                       {| ui_UserId := jr_UserId r; ui_Name := pi_Name p;
                          ui_IsAdmin := um_IsAdmin meta; ui_UserMetadata := meta |} |} in
                issued <- DoGenerateToken req ;;
                match issued with
                | Err e => ret (Err e)
                | Ok token => ret (Ok token)
                end
            end
        end
  end.

(** [GetBreakoutRooms], lines 182-189. *)
Definition GetBreakoutRooms (roomId : string) : M (result (list BreakoutRoom)) :=
  fetched <- fetchBreakoutRooms roomId ;;
  match fetched with
  | Err e => ret (Err e)
  | Ok breakoutRooms => ret (Ok breakoutRooms)
  end.

(** [IncreaseBreakoutRoomDuration], lines 197-228. *)
Definition IncreaseBreakoutRoomDuration (r : IncreaseBreakoutRoomDurationReq)
  : M (option error) :=
  fetched <- fetchBreakoutRoom (ir_RoomId r) (ir_BreakoutRoomId r) ;;
  match fetched with
  | Err e => ret (Some e)
  | Ok room =>
      let req :=
        {| dc_Type := "increaseDuration"; dc_RoomId := ir_BreakoutRoomId r;
           dc_Duration := ir_Duration r |} in
      match json_Marshal_DurationCheckerReq env req with
      | Err e => ret (Some e)
      | Ok reqMar =>
          rc_Publish "plug-n-meet-room-duration-checker" reqMar ;;;
          let room := BreakoutRoom_set_Duration (ir_Duration r) room in
          match json_Marshal_BreakoutRoom env room with
          | Err e => ret (Some e)
          | Ok marshal =>
              rc_Pipeline_HSet_Exec (breakoutRoomKey +:+ ir_RoomId r)
                [(ir_BreakoutRoomId r, marshal)]
          end
      end
  end.

(** The loop of [SendBreakoutRoomMsg], lines 242-247. *)
Fixpoint SendBreakoutRoomMsg_range (msg : string) (rooms : list BreakoutRoom) : M unit :=
  match rooms with
  | [] => ret tt
  | rr :: rest =>
      broadcastNotification (br_Id rr) "system" "" msg "USER" "CHAT" true ;;;
      SendBreakoutRoomMsg_range msg rest
  end.

(** [SendBreakoutRoomMsg], lines 236-250. *)
Definition SendBreakoutRoomMsg (r : SendBreakoutRoomMsgReq) : M (option error) :=
  fetched <- fetchBreakoutRooms (sr_RoomId r) ;;
  match fetched with
  | Err e => ret (Some e)
  | Ok rooms =>
      SendBreakoutRoomMsg_range (sr_Msg r) rooms ;;;
      ret None
  end.

(** [EndBreakoutRoom], lines 257-269.  What [HDel] answers is dropped. *)
Definition EndBreakoutRoom (r : EndBreakoutRoomReq) : M (option error) :=
  fetched <- fetchBreakoutRoom (er_RoomId r) (er_BreakoutRoomId r) ;;
  match fetched with
  | Err e => ret (Some e)
  | Ok _ =>
      err <- EndRoom (er_BreakoutRoomId r) ;;
      match err with
      | Some e => ret (Some e)
      | None =>
          rc_HDel (breakoutRoomKey +:+ er_RoomId r) (er_BreakoutRoomId r) ;;;
          ret None
      end
  end.

(** The loop of [EndBreakoutRooms], lines 277-282: the error of [EndRoom] is dropped. *)
Fixpoint EndBreakoutRooms_range (rooms : list BreakoutRoom) : M unit :=
  match rooms with
  | [] => ret tt
  | r :: rest =>
      EndRoom (br_Id r) ;;;
      EndBreakoutRooms_range rest
  end.

(** [EndBreakoutRooms], lines 271-285.  What [Del] answers is dropped. *)
Definition EndBreakoutRooms (roomId : string) : M (option error) :=
  fetched <- fetchBreakoutRooms roomId ;;
  match fetched with
  | Err e => ret (Some e)
  | Ok rooms =>
      EndBreakoutRooms_range rooms ;;;
      rc_Del (breakoutRoomKey +:+ roomId) ;;;
      ret None
  end.

(** ** scheduler.go *)

(** [config.AppCnf.GetRoomsWithDurationMap()] *)
Definition GetRoomsWithDurationMap : M (gmap string RoomWithDuration) :=
  fun w => (roomsWithDuration w, w).

(** Line 80: [valid := r.StartedAt + (r.Duration * 60)], in [int64]. *)
Definition valid (r : RoomWithDuration) : Z :=
  int64_add (rd_StartedAt r) (int64_mul (rd_Duration r) 60).

(** The loop of [checkRoomWithDuration], lines 78-87: the clock is read at
    every turn; an error of [EndRoom] is logged and the loop goes on. *)
Fixpoint checkRoomWithDuration_range (rooms : list (string * RoomWithDuration)) : M unit :=
  match rooms with
  | [] => ret tt
  | (i, r) :: rest =>
      now <- time_Now ;;
      (if now >? valid r then
         err <- EndRoom i ;;
         match err with
         | Some e => log_Error (Error e)
         | None => ret tt
         end
       else ret tt) ;;;
      checkRoomWithDuration_range rest
  end.

(** [checkRoomWithDuration], lines 75-89.  The read lock of lines 76 and 88
    keeps every writer of the map out while the loop runs; the map is ranged
    over in the order of [map_to_list]. *)
Definition checkRoomWithDuration : M unit :=
  rooms <- GetRoomsWithDurationMap ;;
  checkRoomWithDuration_range (map_to_list rooms).

End Models.

Arguments emit {env} c w.
Arguments call_ext {env A} op w.
Arguments get_rds {env} w.
Arguments put_rds {env} s w.

(** ** A concrete environment

    The scenario of section 8: parent room [room1], breakout room [r1] with
    the invited users [u1] and [u2].  The directory is a map from room ids to
    serialized metadata; [x_offline] cuts the network under the Redis client,
    [x_stuck] lists the rooms the directory refuses to end, [x_rejected] the
    rooms it refuses to create, and [x_pending] is a write of another process
    to the directory that lands while the next [CreateRoom] is under way. *)
Module Demo.

Record outside := {
  x_clock : Z;
  x_dir : gmap string string;
  x_offline : bool;
  x_stuck : list string;
  x_rejected : list string;
  x_pending : option (string * string)
}.

Definition set_dir (d : gmap string string) (p : option (string * string)) (x : outside) : outside :=
  {| x_clock := x_clock x; x_dir := d; x_offline := x_offline x;
     x_stuck := x_stuck x; x_rejected := x_rejected x; x_pending := p |}.

Definition dq : string := String "034"%char EmptyString.

Definition jstr (s : string) : string := dq +:+ s +:+ dq.

Definition jfield (name value : string) : string := jstr name +:+ ":" +:+ value.

Definition jbool (b : bool) : string := if b then "true" else "false".

Fixpoint jlist (items : list string) : string :=
  match items with
  | [] => EmptyString
  | [x] => x
  | x :: rest => x +:+ "," +:+ jlist rest
  end.

Definition jobj (fields : list string) : string := "{" +:+ jlist fields +:+ "}".

Definition jarr (items : list string) : string := "[" +:+ jlist items +:+ "]".

Definition write_user (u : BreakoutRoomUser) : string :=
  jobj [jfield "id" (jstr (bu_Id u)); jfield "name" (jstr (bu_Name u))].

Definition write_room (b : BreakoutRoom) : string :=
  jobj [jfield "id" (jstr (br_Id b)); jfield "title" (jstr (br_Title b));
        jfield "duration" (pretty (br_Duration b));
        jfield "users" (jarr (map write_user (br_Users b)))].

Definition write_meta (m : RoomMetadata) : string :=
  let f := rm_Features m in
  jobj [jfield "room_title" (jstr (rm_RoomTitle m));
        jfield "welcome_message" (jstr (rm_WelcomeMessage m));
        jfield "is_breakout_room" (jbool (rm_IsBreakoutRoom m));
        jfield "room_features"
          (jobj [jfield "allow_recording" (jbool (ft_AllowRecording f));
                 jfield "allow_rtmp" (jbool (ft_AllowRTMP f));
                 jfield "room_duration" (pretty (ft_RoomDuration f));
                 jfield "breakout_room_features"
                   (jobj [jfield "is_allow" (jbool (bf_IsAllow (ft_BreakoutRoomFeatures f)));
                          jfield "is_active" (jbool (bf_IsActive (ft_BreakoutRoomFeatures f)))]);
                 jfield "waiting_room_features"
                   (jobj [jfield "is_active" (jbool (wf_IsActive (ft_WaitingRoomFeatures f)))])])].

Definition write_checker (q : RedisRoomDurationCheckerReq) : string :=
  jobj [jfield "type" (jstr (dc_Type q)); jfield "room_id" (jstr (dc_RoomId q));
        jfield "duration" (pretty (dc_Duration q))].

Definition write_msg (m : WebsocketRedisMsg) : string :=
  let p := ws_Payload m in
  jobj [jfield "type" (jstr (ws_Type m));
        jfield "payload"
          (jobj [jfield "type" (jstr (dm_Type p)); jfield "room_id" (jstr (dm_RoomId p));
                 jfield "to" (jstr (dm_To p));
                 jfield "body"
                   (jobj [jfield "type" (jstr (mb_Type (dm_Body p)));
                          jfield "from"
                            (jobj [jfield "user_id" (jstr (rf_UserId (mb_From (dm_Body p))))]);
                          jfield "msg" (jstr (mb_Msg (dm_Body p)))])]);
        jfield "room_id" (jstr (ws_RoomId m)); jfield "is_admin" (jbool (ws_IsAdmin m))].

(** The documents of the scenario. *)
Definition u1 : BreakoutRoomUser := {| bu_Id := "u1"; bu_Name := "Una" |}.
Definition u2 : BreakoutRoomUser := {| bu_Id := "u2"; bu_Name := "Udo" |}.

Definition r1 (d : Z) : BreakoutRoom :=
  {| br_Id := "r1"; br_Title := "Team A"; br_Duration := d; br_Users := [u1; u2] |}.

Definition parentMeta (welcome : string) : RoomMetadata :=
  {| rm_RoomTitle := "Room One"; rm_WelcomeMessage := welcome;
     rm_IsBreakoutRoom := false;
     rm_Features :=
       {| ft_AllowRecording := true; ft_AllowRTMP := true; ft_RoomDuration := 90;
          ft_BreakoutRoomFeatures := {| bf_IsAllow := true; bf_IsActive := false |};
          ft_WaitingRoomFeatures := {| wf_IsActive := true |} |} |}.

(** The reader of the scenario: it knows the documents above and reads back
    what the writers wrote of them. *)
Definition read_from {A : Type} (write : A -> string) (known : list A) (s : string)
  : result A :=
  match find (fun a => String.eqb (write a) s) known with
  | Some a => Ok a
  | None => Err (errors_New "invalid character looking for beginning of value")
  end.

Definition known_rooms : list BreakoutRoom := [r1 0; r1 30; r1 45].

Definition known_metas : list RoomMetadata := [parentMeta "hello"; parentMeta "edited"].

Definition env : Env :=
  {| Ext := outside;
     json_Unmarshal_RoomMetadata := read_from write_meta known_metas;
     json_Marshal_RoomMetadata := fun m => Ok (write_meta m);
     json_Unmarshal_BreakoutRoom := read_from write_room known_rooms;
     json_Marshal_BreakoutRoom := fun b => Ok (write_room b);
     json_Unmarshal_UserMetadata := fun _ => Ok {| um_IsAdmin := false |};
     json_Marshal_DurationCheckerReq := fun q => Ok (write_checker q);
     json_Marshal_WebsocketRedisMsg := fun m => Ok (write_msg m);
     roomService_LoadRoomInfoFromRedis := fun roomId x =>
       (match x_dir x !! roomId with
        | Some m => Ok {| ri_Metadata := m |}
        | None => Err (errors_New "room not found")
        end, x);
     roomService_UpdateRoomMetadata := fun roomId metadata x =>
       (None, set_dir (<[roomId := metadata]> (x_dir x)) (x_pending x) x);
     roomService_EndRoom := fun roomId x =>
       (if existsb (String.eqb roomId) (x_stuck x)
        then Some (errors_New "room not active") else None, x);
     roomService_LoadParticipantInfoFromRedis := fun roomId userId x =>
       (Ok {| pi_Name := userId; pi_Metadata := "{}" |}, x);
     roomAuthModel_CreateRoom := fun req x =>
       let d := match x_pending x with
                | Some (k, v) => <[k := v]> (x_dir x)
                | None => x_dir x
                end in
       if existsb (String.eqb (rc_RoomId req)) (x_rejected x)
       then ((false, "room already exists"), set_dir d None x)
       else ((true, "success"),
             set_dir (<[rc_RoomId req := write_meta (rc_RoomMetadata req)]> d) None x);
     authTokenModel_DoGenerateToken := fun req x =>
       (Ok ("token for " +:+ ui_UserId (gt_UserInfo req) +:+ " in " +:+ gt_RoomId req), x);
     time_Now_Unix := fun x => (x_clock x, x);
     redis_fault := fun _ x =>
       (if x_offline x then Some (errors_New "dial tcp: connection refused") else None, x)
  |}.

Definition x0 : outside :=
  {| x_clock := 1000; x_dir := {[ "room1" := write_meta (parentMeta "hello") ]};
     x_offline := false; x_stuck := []; x_rejected := []; x_pending := None |}.

Definition world (x : outside) (s : gmap string (gmap string string))
  (d : gmap string RoomWithDuration) : World env :=
  mkWorld env x s d [].

(** The hash of [room1] holding the record of [room1:r1], 30 minutes. *)
Definition stored : gmap string (gmap string string) :=
  {[ "pnm:breakoutRoom:room1" := {[ "room1:r1" := write_room (r1 30) ]} ]}.

Definition createReq : CreateBreakoutRoomsReq :=
  {| cr_RoomId := "room1"; cr_RequestedUserId := "user42"; cr_Duration := 30;
     cr_WelcomeMsg := "welcome"; cr_Rooms := [r1 0] |}.

(** The same outside world with the network down, with a directory that
    does not end [room1:r1], with one that does not create it, with another
    process about to rewrite the welcome message of [room1], and one minute
    and one second after the start of [room1:r1]. *)
Definition x_down : outside :=
  {| x_clock := 1000; x_dir := x_dir x0; x_offline := true;
     x_stuck := []; x_rejected := []; x_pending := None |}.

Definition x_stuck_r1 : outside :=
  {| x_clock := 1000; x_dir := x_dir x0; x_offline := false;
     x_stuck := ["room1:r1"]; x_rejected := []; x_pending := None |}.

Definition x_rejecting_r1 : outside :=
  {| x_clock := 1000; x_dir := x_dir x0; x_offline := false;
     x_stuck := []; x_rejected := ["room1:r1"]; x_pending := None |}.

Definition x_racing : outside :=
  {| x_clock := 1000; x_dir := x_dir x0; x_offline := false;
     x_stuck := []; x_rejected := [];
     x_pending := Some ("room1", write_meta (parentMeta "edited")) |}.

Definition x_late : outside :=
  {| x_clock := 1061; x_dir := x_dir x0; x_offline := false;
     x_stuck := []; x_rejected := []; x_pending := None |}.

Definition r2 : BreakoutRoom :=
  {| br_Id := "r2"; br_Title := "Team B"; br_Duration := 0; br_Users := [] |}.

Definition createTwoReq : CreateBreakoutRoomsReq :=
  {| cr_RoomId := "room1"; cr_RequestedUserId := "user42"; cr_Duration := 30;
     cr_WelcomeMsg := "welcome"; cr_Rooms := [r1 0; r2] |}.

Definition increaseReq : IncreaseBreakoutRoomDurationReq :=
  {| ir_RoomId := "room1"; ir_BreakoutRoomId := "room1:r1"; ir_Duration := 45 |}.

(** [room1:r1], started at 1000 for one minute. *)
Definition tracked : gmap string RoomWithDuration :=
  {[ "room1:r1" := {| rd_Duration := 1; rd_StartedAt := 1000 |} ]}.

End Demo.

(** ** Traces of the loops

    What a loop may leave in the trace, turn by turn.  A turn that fails is part
    of the relation: the trace goes on with the turns of the entries after it. *)

Section Traces.

Context (env : Env).

(** The sweep of [checkRoomWithDuration]: every entry reads the clock; the
    directory is asked to end the room exactly when the clock is past [valid];
    a refusal is logged. *)
Inductive sweep_trace : list (string * RoomWithDuration) -> list Call -> Prop :=
| sweep_done : sweep_trace [] []
| sweep_kept i r rest now t :
    now <= valid r -> sweep_trace rest t ->
    sweep_trace ((i, r) :: rest) (time_Now_ now :: t)
| sweep_ended i r rest now t :
    now > valid r -> sweep_trace rest t ->
    sweep_trace ((i, r) :: rest) (time_Now_ now :: EndRoom_ i None :: t)
| sweep_end_failed i r rest now e t :
    now > valid r -> sweep_trace rest t ->
    sweep_trace ((i, r) :: rest)
      (time_Now_ now :: EndRoom_ i (Some e) :: log_Error_ (Error e) :: t).

(** The invitations of one created room. *)
Definition invitation (r : CreateBreakoutRoomsReq) (bRoomId : string) (u : BreakoutRoomUser)
  : WebsocketRedisMsg :=
  broadcastNotification_msg (cr_RoomId r) (cr_RequestedUserId r) (bu_Id u) bRoomId
    "SYSTEM" "JOIN_BREAKOUT_ROOM" false.

Inductive invite_trace (r : CreateBreakoutRoomsReq) (bRoomId : string)
  : list BreakoutRoomUser -> list Call -> Prop :=
| invite_done : invite_trace r bRoomId [] []
| invite_sent u rest marshal p t :
    json_Marshal_WebsocketRedisMsg env (invitation r bRoomId u) = Ok marshal ->
    invite_trace r bRoomId rest t ->
    invite_trace r bRoomId (u :: rest)
      (Redis (Publish "plug-n-meet-websocket" marshal) p :: t)
| invite_failed u rest e t :
    json_Marshal_WebsocketRedisMsg env (invitation r bRoomId u) = Err e ->
    invite_trace r bRoomId rest t ->
    invite_trace r bRoomId (u :: rest) (log_Error_ (Error e) :: t).

(** One requested room: rejected by the directory, not serialized, not
    persisted, or created and its users invited. *)
Inductive room_trace (r : CreateBreakoutRoomsReq) (meta : RoomMetadata) (room : BreakoutRoom)
  : list Call -> Prop :=
| room_rejected msg :
    room_trace r meta room
      [CreateRoom_ {| rc_RoomId := Sprintf_s_colon_s (cr_RoomId r) (br_Id room);
                      rc_RoomMetadata := meta |} false msg;
       log_Error_ msg]
| room_not_serialized msg e :
    json_Marshal_BreakoutRoom env (BreakoutRoom_set_Duration (cr_Duration r) room) = Err e ->
    room_trace r meta room
      [CreateRoom_ {| rc_RoomId := Sprintf_s_colon_s (cr_RoomId r) (br_Id room);
                      rc_RoomMetadata := meta |} true msg;
       log_Error_ (Error e)]
| room_not_persisted msg marshal e :
    json_Marshal_BreakoutRoom env (BreakoutRoom_set_Duration (cr_Duration r) room) = Ok marshal ->
    room_trace r meta room
      [CreateRoom_ {| rc_RoomId := Sprintf_s_colon_s (cr_RoomId r) (br_Id room);
                      rc_RoomMetadata := meta |} true msg;
       Redis (HSet (breakoutRoomKey +:+ cr_RoomId r)
                [(Sprintf_s_colon_s (cr_RoomId r) (br_Id room), marshal)]) (Some e);
       log_Error_ (Error e)]
| room_created msg marshal t :
    json_Marshal_BreakoutRoom env (BreakoutRoom_set_Duration (cr_Duration r) room) = Ok marshal ->
    invite_trace r (Sprintf_s_colon_s (cr_RoomId r) (br_Id room)) (br_Users room) t ->
    room_trace r meta room
      (CreateRoom_ {| rc_RoomId := Sprintf_s_colon_s (cr_RoomId r) (br_Id room);
                      rc_RoomMetadata := meta |} true msg
       :: Redis (HSet (breakoutRoomKey +:+ cr_RoomId r)
                   [(Sprintf_s_colon_s (cr_RoomId r) (br_Id room), marshal)]) None
       :: t).

(** The requested rooms, in order: one [room_trace] each. *)
Inductive rooms_trace (r : CreateBreakoutRoomsReq)
  : RoomMetadata -> list BreakoutRoom -> list Call -> Prop :=
| rooms_done meta : rooms_trace r meta [] []
| rooms_next meta room rest t1 t2 :
    room_trace r (RoomMetadata_set_RoomTitle (br_Title room) meta) room t1 ->
    rooms_trace r (RoomMetadata_set_RoomTitle (br_Title room) meta) rest t2 ->
    rooms_trace r meta (room :: rest) (t1 ++ t2).

(** The rooms the directory was asked to create, to end, and the metadata it
    was asked to store, as the trace has them. *)
Definition created_ids (calls : list Call) : list string :=
  flat_map (fun c => match c with CreateRoom_ req _ _ => [rc_RoomId req] | _ => [] end) calls.

Definition ended_ids (calls : list Call) : list string :=
  flat_map (fun c => match c with EndRoom_ i _ => [i] | _ => [] end) calls.

Definition loads (calls : list Call) : list string :=
  flat_map (fun c => match c with LoadRoomInfoFromRedis_ i _ => [i] | _ => [] end) calls.

Definition updates (calls : list Call) : list (string * string) :=
  flat_map (fun c => match c with UpdateRoomMetadata_ i m _ => [(i, m)] | _ => [] end) calls.

Definition tokens (calls : list Call) : list GenTokenReq :=
  flat_map (fun c => match c with DoGenerateToken_ req _ => [req] | _ => [] end) calls.

Definition redis_writes (calls : list Call) : list RedisCmd :=
  flat_map (fun c => match c with
                     | Redis (HSet k v) _ => [HSet k v]
                     | Redis (HDel k f) _ => [HDel k f]
                     | Redis (Del k) _ => [Del k]
                     | _ => []
                     end) calls.

(** The store after the writes of a trace that Redis accepted. *)
Definition replay_call (s : gmap string (gmap string string)) (c : Call)
  : gmap string (gmap string string) :=
  match c with
  | Redis (HSet k v) None => hset k v s
  | Redis (HDel k f) None => hdel k f s
  | Redis (Del k) None => delete k s
  | _ => s
  end.

Definition replay (calls : list Call) (s : gmap string (gmap string string))
  : gmap string (gmap string string) :=
  fold_left replay_call calls s.

(** The update of the parent as section 4.1 words it: the metadata is read
    again from the directory when the rooms are done, and that reading, with
    [isActive] set, is what is written. *)
Definition CreateBreakoutRooms_reread (r : CreateBreakoutRoomsReq) : M (World env) (option error) :=
  loaded <- LoadRoomInfoFromRedis env (cr_RoomId r) ;;
  match loaded with
  | Err e => ret (Some e)
  | Ok mainRoom =>
      match json_Unmarshal_RoomMetadata env (ri_Metadata mainRoom) with
      | Err e => ret (Some e)
      | Ok meta =>
          CreateBreakoutRooms_range env r (breakoutRoomTemplate r meta) (cr_Rooms r) ;;;
          reloaded <- LoadRoomInfoFromRedis env (cr_RoomId r) ;;
          match reloaded with
          | Err e => ret (Some e)
          | Ok again =>
              match json_Unmarshal_RoomMetadata env (ri_Metadata again) with
              | Err e => ret (Some e)
              | Ok origMeta =>
                  match json_Marshal_RoomMetadata env
                          (RoomMetadata_set_IsActive true origMeta) with
                  | Err e => ret (Some e)
                  | Ok marshal => UpdateRoomMetadata env (cr_RoomId r) marshal
                  end
              end
          end
      end
  end.

End Traces.

(** ** How a call changes the world *)

Section Facts.

Context (env : Env).

Local Abbreviation M := (M (World env)).

(** *** What the primitives answer *)

Lemma EndRoom_run roomId w :
  exists err x,
    EndRoom env roomId w =
      (err, mkWorld env x (rds w) (roomsWithDuration w) (trace w ++ [EndRoom_ roomId err])).
Proof.
  unfold EndRoom, bind, call_ext, emit, ret.
  destruct (roomService_EndRoom env roomId (ext w)) as [err x]. simpl. eauto.
Qed.

Lemma time_Now_run w :
  exists now x,
    time_Now env w =
      (now, mkWorld env x (rds w) (roomsWithDuration w) (trace w ++ [time_Now_ now])).
Proof.
  unfold time_Now, bind, call_ext, emit, ret.
  destruct (time_Now_Unix env (ext w)) as [now x]. simpl. eauto.
Qed.

Lemma rc_HGet_run key field w :
  exists fault x,
    redis_fault env (HGet key field) (ext w) = (fault, x) /\
    rc_HGet env key field w =
      (HGet_reply fault (hget key field (rds w)),
       mkWorld env x (rds w) (roomsWithDuration w)
         (trace w ++ [Redis (HGet key field) (HGet_reply fault (hget key field (rds w))).2])).
Proof.
  unfold rc_HGet, bind, call_ext, emit, ret, get_rds.
  destruct (redis_fault env (HGet key field) (ext w)) as [fault x]. simpl. eauto.
Qed.

(** What [fetchBreakoutRoom] makes of the reply of [HGet]. *)
Definition fetched (reply : string * option error) : result BreakoutRoom :=
  match reply.2 with
  | Some e => Err e
  | None =>
      if String.eqb reply.1 "" then Err (errors_New "not found")
      else json_Unmarshal_BreakoutRoom env reply.1
  end.

Lemma fetchBreakoutRoom_run roomId breakoutRoomId w :
  let key := breakoutRoomKey +:+ roomId in
  exists fault x,
    let reply := HGet_reply fault (hget key breakoutRoomId (rds w)) in
    redis_fault env (HGet key breakoutRoomId) (ext w) = (fault, x) /\
    fetchBreakoutRoom env roomId breakoutRoomId w =
      (fetched reply,
       mkWorld env x (rds w) (roomsWithDuration w)
         (trace w ++ [Redis (HGet key breakoutRoomId) reply.2])).
Proof.
  intros key. unfold fetchBreakoutRoom, bind.
  destruct (rc_HGet_run key breakoutRoomId w) as (fault & x & Hf & Hrun).
  fold key. rewrite Hrun. exists fault, x. split; [exact Hf|].
  unfold fetched.
  destruct (HGet_reply fault (hget key breakoutRoomId (rds w))) as [v [e|]]; simpl;
    [reflexivity|].
  destruct (String.eqb v ""); [reflexivity|].
  destruct (json_Unmarshal_BreakoutRoom env v); reflexivity.
Qed.

(** A record is fetched exactly when the network answers, the field is stored,
    its value is not empty and it deserializes. *)
Lemma fetched_Ok fault stored room :
  fetched (HGet_reply fault stored) = Ok room <->
  fault = None /\ exists v, stored = Some v /\ v <> "" /\
    json_Unmarshal_BreakoutRoom env v = Ok room.
Proof.
  unfold fetched, HGet_reply. split.
  - destruct fault as [e|]; simpl; [discriminate|].
    destruct stored as [v|]; simpl; [|discriminate].
    destruct (String.eqb_spec v ""); [discriminate|]. eauto.
  - intros (-> & v & -> & Hv & Hroom). simpl.
    destruct (String.eqb_spec v ""); [contradiction | exact Hroom].
Qed.

(** A field that is not stored is never fetched: the error is that of the
    network or [redis.Nil]. *)
Lemma fetched_missing fault :
  exists e, HGet_reply fault None = (EmptyString, Some e) /\
            fetched (HGet_reply fault None) = Err e /\
            (fault = None -> e = redis_Nil).
Proof.
  unfold fetched, HGet_reply.
  destruct fault as [e|]; simpl; eexists; repeat split; congruence.
Qed.

(** [fetchBreakoutRooms] never answers a list: an error of [HGetAll] is
    returned, and a reply without error carries a map that is not nil, which
    line 344 turns into [no breakout room found].  One [HGetAll] is its only call. *)
Lemma fetchBreakoutRooms_run roomId w :
  exists e o x,
    fetchBreakoutRooms env roomId w =
      (Err e, mkWorld env x (rds w) (roomsWithDuration w)
                (trace w ++ [Redis (HGetAll (breakoutRoomKey +:+ roomId)) o])) /\
    (o = None -> e = errors_New "no breakout room found") /\
    (forall e', o = Some e' -> e = e').
Proof.
  unfold fetchBreakoutRooms, rc_HGetAll, bind, call_ext, emit, ret, get_rds.
  destruct (redis_fault env (HGetAll (breakoutRoomKey +:+ roomId)) (ext w)) as [fault x].
  simpl. destruct fault as [e|]; simpl.
  - exists e, (Some e), x. split; [reflexivity|]. split; [discriminate | congruence].
  - exists (errors_New "no breakout room found"), None, x.
    split; [reflexivity|]. split; [reflexivity | discriminate].
Qed.

(** C1, on the code: [GetBreakoutRooms] answers an error and no list
    in every world, so the records stored in the hash of the parent are never
    returned, and neither is an empty list. *)
Theorem GetBreakoutRooms_always_fails roomId w :
  exists e, (GetBreakoutRooms env roomId w).1 = Err e.
Proof.
  unfold GetBreakoutRooms, bind.
  destruct (fetchBreakoutRooms_run roomId w) as (e & o & x & -> & _).
  exists e. reflexivity.
Qed.

(** C6, on the code: [EndBreakoutRooms] answers an error after its
    [HGetAll] in every world: no room is ended, no [Del] is issued and the
    hash of the parent is left as it was. *)
Theorem EndBreakoutRooms_ends_nothing roomId w :
  exists e o,
    (EndBreakoutRooms env roomId w).1 = Some e /\
    trace (EndBreakoutRooms env roomId w).2 =
      trace w ++ [Redis (HGetAll (breakoutRoomKey +:+ roomId)) o] /\
    rds (EndBreakoutRooms env roomId w).2 = rds w.
Proof.
  unfold EndBreakoutRooms, bind.
  destruct (fetchBreakoutRooms_run roomId w) as (e & o & x & -> & _).
  exists e, o. simpl. auto.
Qed.

(** *** The other primitives *)

Lemma rc_Publish_run channel message w :
  exists p x,
    redis_fault env (Publish channel message) (ext w) = (p, x) /\
    rc_Publish env channel message w =
      (p, mkWorld env x (rds w) (roomsWithDuration w)
            (trace w ++ [Redis (Publish channel message) p])).
Proof.
  unfold rc_Publish, bind, call_ext, emit, ret.
  destruct (redis_fault env (Publish channel message) (ext w)) as [p x]. simpl. eauto.
Qed.

Lemma rc_Pipeline_HSet_Exec_run key vals w :
  exists h x,
    rc_Pipeline_HSet_Exec env key vals w =
      (h, mkWorld env x (match h with Some _ => rds w | None => hset key vals (rds w) end)
            (roomsWithDuration w) (trace w ++ [Redis (HSet key vals) h])).
Proof.
  unfold rc_Pipeline_HSet_Exec, bind, call_ext, emit, ret, get_rds, put_rds.
  destruct (redis_fault env (HSet key vals) (ext w)) as [h x]. simpl.
  destruct h as [e|]; simpl; [exists (Some e), x | exists None, x]; reflexivity.
Qed.

Lemma rc_HDel_run key field w :
  exists h x,
    rc_HDel env key field w =
      (h, mkWorld env x (match h with Some _ => rds w | None => hdel key field (rds w) end)
            (roomsWithDuration w) (trace w ++ [Redis (HDel key field) h])).
Proof.
  unfold rc_HDel, bind, call_ext, emit, ret, get_rds, put_rds.
  destruct (redis_fault env (HDel key field) (ext w)) as [h x]. simpl.
  destruct h as [e|]; simpl; [exists (Some e), x | exists None, x]; reflexivity.
Qed.

Lemma CreateRoom_run req w :
  exists status msg x,
    CreateRoom env req w =
      ((status, msg), mkWorld env x (rds w) (roomsWithDuration w)
                        (trace w ++ [CreateRoom_ req status msg])).
Proof.
  unfold CreateRoom, bind, call_ext, emit, ret.
  destruct (roomAuthModel_CreateRoom env req (ext w)) as [[status msg] x]. simpl. eauto.
Qed.

Lemma LoadRoomInfoFromRedis_run roomId w :
  exists res x,
    roomService_LoadRoomInfoFromRedis env roomId (ext w) = (res, x) /\
    LoadRoomInfoFromRedis env roomId w =
      (res, mkWorld env x (rds w) (roomsWithDuration w)
              (trace w ++ [LoadRoomInfoFromRedis_ roomId res])).
Proof.
  unfold LoadRoomInfoFromRedis, bind, call_ext, emit, ret.
  destruct (roomService_LoadRoomInfoFromRedis env roomId (ext w)) as [res x]. simpl. eauto.
Qed.

Lemma UpdateRoomMetadata_run roomId metadata w :
  exists err x,
    UpdateRoomMetadata env roomId metadata w =
      (err, mkWorld env x (rds w) (roomsWithDuration w)
              (trace w ++ [UpdateRoomMetadata_ roomId metadata err])).
Proof.
  unfold UpdateRoomMetadata, bind, call_ext, emit, ret.
  destruct (roomService_UpdateRoomMetadata env roomId metadata (ext w)) as [err x].
  simpl. eauto.
Qed.

Lemma LoadParticipantInfoFromRedis_run roomId userId w :
  exists res x,
    LoadParticipantInfoFromRedis env roomId userId w =
      (res, mkWorld env x (rds w) (roomsWithDuration w)
              (trace w ++ [LoadParticipantInfoFromRedis_ roomId userId res])).
Proof.
  unfold LoadParticipantInfoFromRedis, bind, call_ext, emit, ret.
  destruct (roomService_LoadParticipantInfoFromRedis env roomId userId (ext w)) as [res x].
  simpl. eauto.
Qed.

Lemma DoGenerateToken_run req w :
  exists res x,
    DoGenerateToken env req w =
      (res, mkWorld env x (rds w) (roomsWithDuration w)
              (trace w ++ [DoGenerateToken_ req res])).
Proof.
  unfold DoGenerateToken, bind, call_ext, emit, ret.
  destruct (authTokenModel_DoGenerateToken env req (ext w)) as [res x]. simpl. eauto.
Qed.

(** Every way [broadcastNotification] can go. *)
Lemma broadcastNotification_run
  roomId fromUserId toUserId broadcastMsg typeMsg mType isAdmin w :
  let msg :=
    broadcastNotification_msg roomId fromUserId toUserId broadcastMsg typeMsg mType isAdmin in
  let out :=
    broadcastNotification env roomId fromUserId toUserId broadcastMsg typeMsg mType isAdmin w in
  match json_Marshal_WebsocketRedisMsg env msg with
  | Err e => out = (Some e, w)
  | Ok marshal =>
      exists p x,
        redis_fault env (Publish "plug-n-meet-websocket" marshal) (ext w) = (p, x) /\
        out = (None, mkWorld env x (rds w) (roomsWithDuration w)
                       (trace w ++ [Redis (Publish "plug-n-meet-websocket" marshal) p]))
  end.
Proof.
  intros msg out. subst out. unfold broadcastNotification. fold msg.
  destruct (json_Marshal_WebsocketRedisMsg env msg) as [marshal|e]; [|reflexivity].
  unfold bind.
  destruct (rc_Publish_run "plug-n-meet-websocket" marshal w) as (p & x & Hp & ->).
  exists p, x. split; [exact Hp | reflexivity].
Qed.

(** C10: [broadcastNotification] answers an error exactly when the
    message does not serialize, and then the world is as it was, nothing
    published; when the message serializes it is published once and the
    answer is nil whatever the publish answered: [p] below is what the
    network made of the publish, error or not. *)
Theorem broadcastNotification_fails_only_on_Marshal
  roomId fromUserId toUserId broadcastMsg typeMsg mType isAdmin w :
  let msg :=
    broadcastNotification_msg roomId fromUserId toUserId broadcastMsg typeMsg mType isAdmin in
  let out :=
    broadcastNotification env roomId fromUserId toUserId broadcastMsg typeMsg mType isAdmin w in
  (forall e, out.1 = Some e <-> json_Marshal_WebsocketRedisMsg env msg = Err e) /\
  (forall e, json_Marshal_WebsocketRedisMsg env msg = Err e -> out.2 = w) /\
  (forall marshal,
     json_Marshal_WebsocketRedisMsg env msg = Ok marshal ->
     let p := (redis_fault env (Publish "plug-n-meet-websocket" marshal) (ext w)).1 in
     out.1 = None /\
     trace out.2 = trace w ++ [Redis (Publish "plug-n-meet-websocket" marshal) p]).
Proof.
  intros msg out.
  pose proof (broadcastNotification_run
                roomId fromUserId toUserId broadcastMsg typeMsg mType isAdmin w) as Hrun.
  simpl in Hrun. fold msg out in Hrun.
  destruct (json_Marshal_WebsocketRedisMsg env msg) as [marshal|e0].
  - destruct Hrun as (p & x & Hp & ->). simpl. split; [|split].
    + intros e. split; discriminate.
    + intros e. discriminate.
    + intros m [= <-]. rewrite Hp. split; reflexivity.
  - rewrite Hrun. simpl. split; [|split].
    + intros e. split; congruence.
    + reflexivity.
    + intros m. discriminate.
Qed.


(** *** The store *)

Lemma hget_hset key field v s : hget key field (hset key [(field, v)] s) = Some v.
Proof.
  unfold hget, hset. rewrite lookup_insert_eq. simpl. apply lookup_insert_eq.
Qed.

Lemma hget_hset_ne key field field' v s :
  field <> field' -> hget key field' (hset key [(field, v)] s) = hget key field' s.
Proof.
  intros Hne. unfold hget, hset, hash_at. rewrite lookup_insert_eq. simpl.
  rewrite lookup_insert_ne by exact Hne.
  destruct (s !! key); [reflexivity | apply lookup_empty].
Qed.

Lemma hget_hdel key field s : hget key field (hdel key field s) = None.
Proof.
  unfold hget, hdel. destruct (s !! key) as [h|] eqn:Hk.
  - destruct (decide (delete field h = ∅)).
    + rewrite lookup_delete_eq. reflexivity.
    + rewrite lookup_insert_eq. simpl. apply lookup_delete_eq.
  - rewrite Hk. reflexivity.
Qed.

(** C2: when the record of the breakout room is fetched (and the two
    documents serialize), [IncreaseBreakoutRoomDuration] first publishes on
    the duration-checker channel the event [increaseDuration] carrying the
    requested duration itself, then writes the record with its duration field
    set to the requested duration, whatever the duration was; it answers what
    the write answered, and after a write that succeeded the hash holds that
    record under the id of the breakout room. *)
Theorem IncreaseBreakoutRoomDuration_replaces r w room reqMar marshal :
  let key := breakoutRoomKey +:+ ir_RoomId r in
  let out := IncreaseBreakoutRoomDuration env r w in
  (fetchBreakoutRoom env (ir_RoomId r) (ir_BreakoutRoomId r) w).1 = Ok room ->
  json_Marshal_DurationCheckerReq env
    {| dc_Type := "increaseDuration"; dc_RoomId := ir_BreakoutRoomId r;
       dc_Duration := ir_Duration r |} = Ok reqMar ->
  json_Marshal_BreakoutRoom env (BreakoutRoom_set_Duration (ir_Duration r) room)
    = Ok marshal ->
  exists p h,
    trace out.2 =
      trace w ++
        [Redis (HGet key (ir_BreakoutRoomId r)) None;
         Redis (Publish "plug-n-meet-room-duration-checker" reqMar) p;
         Redis (HSet key [(ir_BreakoutRoomId r, marshal)]) h] /\
    out.1 = h /\
    (h = None -> hget key (ir_BreakoutRoomId r) (rds out.2) = Some marshal) /\
    (forall field, field <> ir_BreakoutRoomId r ->
       hget key field (rds out.2) = hget key field (rds w)) /\
    br_Duration (BreakoutRoom_set_Duration (ir_Duration r) room) = ir_Duration r.
Proof.
  intros key out Hfetch Hreq Hroom. subst out.
  unfold IncreaseBreakoutRoomDuration, bind.
  destruct (fetchBreakoutRoom_run (ir_RoomId r) (ir_BreakoutRoomId r) w)
    as (fault & x & Hf & Hrun).
  fold key in Hrun, Hf. rewrite Hrun in Hfetch |- *. simpl in Hfetch.
  rewrite Hfetch. rewrite Hreq.
  apply fetched_Ok in Hfetch as (-> & v & Hv & _ & _). rewrite Hv. simpl.
  match goal with |- context [rc_Publish env ?c ?m ?w1] =>
    destruct (rc_Publish_run c m w1) as (p & x1 & _ & ->) end.
  rewrite Hroom.
  match goal with |- context [rc_Pipeline_HSet_Exec env ?k ?vals ?w1] =>
    destruct (rc_Pipeline_HSet_Exec_run k vals w1) as (h & x2 & ->) end.
  exists p, h. simpl. rewrite <- !app_assoc. simpl.
  split; [reflexivity|]. split; [reflexivity|]. split; [|split; [|reflexivity]].
  - intros ->. apply hget_hset.
  - intros field Hne. destruct h; [reflexivity|].
    apply hget_hset_ne. congruence.
Qed.

(** The membership loop answers whether the id is among the invited ones. *)
Lemma JoinBreakoutRoom_canJoin_spec users userId canJoin :
  JoinBreakoutRoom_canJoin users userId canJoin = true <->
  canJoin = true \/ In userId (map bu_Id users).
Proof.
  revert canJoin. induction users as [|u rest IH]; intros canJoin; simpl.
  - tauto.
  - rewrite IH. destruct (String.eqb_spec (bu_Id u) userId) as [Heq|Hne].
    + tauto.
    + intuition congruence.
Qed.

(** Every way [JoinBreakoutRoom] can go, with the calls it makes. *)
Lemma JoinBreakoutRoom_run r w :
  let key := breakoutRoomKey +:+ jr_RoomId r in
  let out := JoinBreakoutRoom env r w in
  exists fault x,
    let reply := HGet_reply fault (hget key (jr_BreakoutRoomId r) (rds w)) in
    redis_fault env (HGet key (jr_BreakoutRoomId r)) (ext w) = (fault, x) /\
    (fetchBreakoutRoom env (jr_RoomId r) (jr_BreakoutRoomId r) w).1 = fetched reply /\
    match fetched reply with
    | Err e =>
        out.1 = Err e /\
        trace out.2 = trace w ++ [Redis (HGet key (jr_BreakoutRoomId r)) reply.2]
    | Ok room =>
        if JoinBreakoutRoom_canJoin (br_Users room) (jr_UserId r) false
        then exists calls,
               trace out.2 =
                 trace w ++ Redis (HGet key (jr_BreakoutRoomId r)) reply.2 :: calls
        else out.1 = Err (errors_New "you can't join in this room") /\
             trace out.2 = trace w ++ [Redis (HGet key (jr_BreakoutRoomId r)) reply.2]
    end.
Proof.
  intros key out. subst out. unfold JoinBreakoutRoom, bind.
  destruct (fetchBreakoutRoom_run (jr_RoomId r) (jr_BreakoutRoomId r) w)
    as (fault & x & Hf & Hrun).
  fold key in Hrun, Hf. rewrite Hrun. exists fault, x. simpl.
  split; [exact Hf|]. split; [reflexivity|].
  destruct (fetched _) as [room|e]; [|split; reflexivity].
  destruct (JoinBreakoutRoom_canJoin (br_Users room) (jr_UserId r) false); simpl;
    [|split; reflexivity].
  match goal with |- context [LoadParticipantInfoFromRedis env ?a ?b ?w1] =>
    destruct (LoadParticipantInfoFromRedis_run a b w1) as (res & x1 & ->) end.
  destruct res as [p|e]; [|eexists; simpl; rewrite <- app_assoc; reflexivity].
  destruct (json_Unmarshal_UserMetadata env (pi_Metadata p)) as [meta|e];
    [|eexists; simpl; rewrite <- app_assoc; reflexivity].
  match goal with |- context [DoGenerateToken env ?q ?w1] =>
    destruct (DoGenerateToken_run q w1) as (tok & x2 & ->) end.
  destruct tok; eexists; simpl; rewrite <- !app_assoc; reflexivity.
Qed.

(** C5: [JoinBreakoutRoom] answers an error when the record of the
    breakout room is not in the hash (the [redis.Nil] of the missing field,
    unless the network failed first), and the error
    [you can't join in this room] for every user id that is not among the
    invited users of the fetched record; in both cases the only call is the
    [HGet].  A token is requested, and a token is returned, only for a user id
    that is among the invited users of the fetched record. *)
Theorem JoinBreakoutRoom_invited_only r w :
  let key := breakoutRoomKey +:+ jr_RoomId r in
  let fetch := (fetchBreakoutRoom env (jr_RoomId r) (jr_BreakoutRoomId r) w).1 in
  let out := JoinBreakoutRoom env r w in
  (hget key (jr_BreakoutRoomId r) (rds w) = None ->
   exists e,
     out.1 = Err e /\
     trace out.2 = trace w ++ [Redis (HGet key (jr_BreakoutRoomId r)) (Some e)] /\
     ((redis_fault env (HGet key (jr_BreakoutRoomId r)) (ext w)).1 = None ->
      e = redis_Nil)) /\
  (forall room,
     fetch = Ok room ->
     ~ In (jr_UserId r) (map bu_Id (br_Users room)) ->
     out.1 = Err (errors_New "you can't join in this room") /\
     trace out.2 = trace w ++ [Redis (HGet key (jr_BreakoutRoomId r)) None]) /\
  (forall calls,
     trace out.2 = trace w ++ calls ->
     tokens calls <> [] \/ (exists token, out.1 = Ok token) ->
     exists room, fetch = Ok room /\ In (jr_UserId r) (map bu_Id (br_Users room))).
Proof.
  intros key fetch out.
  destruct (JoinBreakoutRoom_run r w) as (fault & x & Hf & Hfetch & Hrun).
  fold key in Hf, Hfetch, Hrun. fold out in Hrun. fold fetch in Hfetch.
  split; [|split].
  - intros Hmiss. rewrite Hmiss in Hrun.
    destruct (fetched_missing fault) as (e & Hreply & Hfetched & Hnil).
    rewrite Hfetched, Hreply in Hrun. destruct Hrun as [Hout Htrace].
    exists e. split; [exact Hout|]. split; [exact Htrace|].
    rewrite Hf. exact Hnil.
  - intros room Hroom Hnot. rewrite Hfetch in Hroom. rewrite Hroom in Hrun.
    apply fetched_Ok in Hroom as (-> & v & Hv & _ & _). rewrite Hv in Hrun.
    destruct (JoinBreakoutRoom_canJoin (br_Users room) (jr_UserId r) false) eqn:Hcan.
    + apply JoinBreakoutRoom_canJoin_spec in Hcan as [Hcan|Hcan];
        [discriminate | contradiction].
    + exact Hrun.
  - intros calls Htrace Hissued. rewrite Hfetch.
    destruct (fetched _) as [room|e].
    + destruct (JoinBreakoutRoom_canJoin (br_Users room) (jr_UserId r) false) eqn:Hcan.
      * exists room. split; [reflexivity|].
        apply JoinBreakoutRoom_canJoin_spec in Hcan as [Hcan|Hcan];
          [discriminate | exact Hcan].
      * destruct Hrun as [Hout Htrace']. rewrite Htrace' in Htrace.
        apply app_inv_head in Htrace. subst calls.
        destruct Hissued as [Hissued | [token Htoken]];
          [contradiction Hissued; reflexivity | congruence].
    + destruct Hrun as [Hout Htrace']. rewrite Htrace' in Htrace.
      apply app_inv_head in Htrace. subst calls.
      destruct Hissued as [Hissued | [token Htoken]];
        [contradiction Hissued; reflexivity | congruence].
Qed.

(** Every way [EndBreakoutRoom] can go, with the calls it makes and the store
    it leaves. *)
Lemma EndBreakoutRoom_run r w :
  let key := breakoutRoomKey +:+ er_RoomId r in
  let id := er_BreakoutRoomId r in
  let out := EndBreakoutRoom env r w in
  exists fault x,
    let reply := HGet_reply fault (hget key id (rds w)) in
    redis_fault env (HGet key id) (ext w) = (fault, x) /\
    match fetched reply with
    | Err e =>
        out.1 = Some e /\ rds out.2 = rds w /\
        trace out.2 = trace w ++ [Redis (HGet key id) reply.2]
    | Ok _ =>
        (exists e,
           out.1 = Some e /\ rds out.2 = rds w /\
           trace out.2 = trace w ++ [Redis (HGet key id) None; EndRoom_ id (Some e)]) \/
        (exists h,
           out.1 = None /\
           rds out.2 = match h with Some _ => rds w | None => hdel key id (rds w) end /\
           trace out.2 =
             trace w ++ [Redis (HGet key id) None; EndRoom_ id None; Redis (HDel key id) h])
    end.
Proof.
  intros key id out. subst out. unfold EndBreakoutRoom, bind.
  destruct (fetchBreakoutRoom_run (er_RoomId r) (er_BreakoutRoomId r) w)
    as (fault & x & Hf & Hrun).
  fold key id in Hrun, Hf. fold id. rewrite Hrun. exists fault, x. simpl.
  split; [exact Hf|].
  destruct (fetched _) as [room|e] eqn:Hfetched; [|repeat split; reflexivity].
  apply fetched_Ok in Hfetched as (-> & v & Hv & _ & _). rewrite Hv. simpl.
  match goal with |- context [EndRoom env ?i ?w1] =>
    destruct (EndRoom_run i w1) as (err & x1 & ->) end.
  destruct err as [e|].
  - left. exists e. simpl. rewrite <- app_assoc. repeat split; reflexivity.
  - right.
    match goal with |- context [rc_HDel env ?k ?i ?w1] =>
      destruct (rc_HDel_run k i w1) as (h & x2 & ->) end.
    exists h. simpl. rewrite <- !app_assoc. repeat split; reflexivity.
Qed.

(** C7: [EndBreakoutRoom] answers an error when the record is not in
    the hash; it answers the error of the directory when [EndRoom] fails;
    whenever it answers an error it has issued no write to Redis and the
    store is as it was; and when it answers nil the directory has ended the
    room and the [HDel] of the record comes after that. *)
Theorem EndBreakoutRoom_removes_after_end r w :
  let key := breakoutRoomKey +:+ er_RoomId r in
  let id := er_BreakoutRoomId r in
  let out := EndBreakoutRoom env r w in
  (hget key id (rds w) = None -> exists e, out.1 = Some e) /\
  (forall calls e,
     trace out.2 = trace w ++ calls -> In (EndRoom_ id (Some e)) calls ->
     out.1 = Some e) /\
  (forall calls e,
     trace out.2 = trace w ++ calls -> out.1 = Some e ->
     rds out.2 = rds w /\ redis_writes calls = []) /\
  (out.1 = None ->
   exists h,
     trace out.2 =
       trace w ++ [Redis (HGet key id) None; EndRoom_ id None; Redis (HDel key id) h] /\
     (h = None -> rds out.2 = hdel key id (rds w) /\ hget key id (rds out.2) = None)).
Proof.
  intros key id out.
  destruct (EndBreakoutRoom_run r w) as (fault & x & Hf & Hrun).
  fold key id out in Hf, Hrun.
  split; [|split; [|split]].
  - intros Hmiss. rewrite Hmiss in Hrun.
    destruct (fetched_missing fault) as (e & _ & Hfetched & _).
    rewrite Hfetched in Hrun. exists e. apply Hrun.
  - intros calls e Htrace Hin.
    destruct (fetched _) as [room|e'].
    + destruct Hrun as [(e' & Hout & _ & Htrace') | (h & _ & _ & Htrace')];
        rewrite Htrace' in Htrace; apply app_inv_head in Htrace; subst calls;
        simpl in Hin; intuition congruence.
    + destruct Hrun as (_ & _ & Htrace'). rewrite Htrace' in Htrace.
      apply app_inv_head in Htrace. subst calls.
      simpl in Hin. intuition congruence.
  - intros calls e Htrace Hout.
    destruct (fetched _) as [room|e'].
    + destruct Hrun as [(e' & _ & Hrds & Htrace') | (h & Hnone & _)];
        [|congruence].
      rewrite Htrace' in Htrace. apply app_inv_head in Htrace. subst calls.
      split; [exact Hrds | reflexivity].
    + destruct Hrun as (_ & Hrds & Htrace'). rewrite Htrace' in Htrace.
      apply app_inv_head in Htrace. subst calls.
      split; [exact Hrds | reflexivity].
  - intros Hout.
    destruct (fetched _) as [room|e'].
    + destruct Hrun as [(e' & Hsome & _) | (h & _ & Hrds & Htrace')]; [congruence|].
      exists h. split; [exact Htrace'|]. intros ->.
      split; [exact Hrds|]. rewrite Hrds. apply hget_hdel.
    + destruct Hrun as (Hsome & _). congruence.
Qed.

(** *** The sweep *)

(** Without overflow, [valid] is the start plus the duration in seconds. *)
Lemma valid_exact r :
  int64_range (rd_Duration r * 60) ->
  int64_range (rd_StartedAt r + rd_Duration r * 60) ->
  valid r = rd_StartedAt r + rd_Duration r * 60.
Proof.
  unfold valid, int64_add, int64_mul, int64_wrap, int64_range. intros H1 H2.
  rewrite (Z.mod_small (rd_Duration r * 60 + 2 ^ 63)) by lia.
  replace (rd_Duration r * 60 + 2 ^ 63 - 2 ^ 63) with (rd_Duration r * 60) by lia.
  rewrite Z.mod_small by lia. lia.
Qed.

Lemma checkRoomWithDuration_range_run rooms : forall w,
  exists x calls,
    checkRoomWithDuration_range env rooms w =
      (tt, mkWorld env x (rds w) (roomsWithDuration w) (trace w ++ calls)) /\
    sweep_trace rooms calls.
Proof.
  induction rooms as [|[i r] rest IH]; intros w.
  - exists (ext w), []. split; [|constructor].
    simpl. unfold ret. rewrite app_nil_r. destruct w; reflexivity.
  - simpl. unfold bind.
    destruct (time_Now_run w) as (now & x1 & ->).
    destruct (now >? valid r) eqn:Hnow.
    + match goal with |- context [EndRoom env i ?w1] =>
        destruct (EndRoom_run i w1) as (err & x2 & ->) end.
      destruct err as [e|].
      * unfold log_Error, emit. simpl.
        match goal with |- context [checkRoomWithDuration_range env rest ?w1] =>
          destruct (IH w1) as (x3 & calls & -> & Hcalls) end.
        simpl. eexists x3, _. split.
        -- rewrite <- !app_assoc. simpl. reflexivity.
        -- apply sweep_end_failed; [lia | exact Hcalls].
      * unfold ret.
        match goal with |- context [checkRoomWithDuration_range env rest ?w1] =>
          destruct (IH w1) as (x3 & calls & -> & Hcalls) end.
        simpl. eexists x3, _. split.
        -- rewrite <- !app_assoc. simpl. reflexivity.
        -- apply sweep_ended; [lia | exact Hcalls].
    + unfold ret.
      match goal with |- context [checkRoomWithDuration_range env rest ?w1] =>
        destruct (IH w1) as (x3 & calls & -> & Hcalls) end.
      simpl. eexists x3, _. split.
      * rewrite <- !app_assoc. simpl. reflexivity.
      * apply sweep_kept; [lia | exact Hcalls].
Qed.

(** A room is ended by a sweep only if one of the clock readings of the
    sweep was past its deadline. *)
Lemma sweep_trace_ended rooms calls :
  sweep_trace rooms calls ->
  forall i, In i (ended_ids calls) ->
  exists r now, In (i, r) rooms /\ In (time_Now_ now) calls /\ now > valid r.
Proof.
  induction 1 as [|i0 r0 rest now t Hle _ IH|i0 r0 rest now t Hgt _ IH
                  |i0 r0 rest now e t Hgt _ IH]; intros i Hin; simpl in Hin.
  - contradiction.
  - destruct (IH i Hin) as (r & n & H1 & H2 & H3).
    exists r, n. simpl. tauto.
  - destruct Hin as [<-|Hin].
    + exists r0, now. simpl. tauto.
    + destruct (IH i Hin) as (r & n & H1 & H2 & H3). exists r, n. simpl. tauto.
  - destruct Hin as [<-|Hin].
    + exists r0, now. simpl. tauto.
    + destruct (IH i Hin) as (r & n & H1 & H2 & H3). exists r, n. simpl. tauto.
Qed.

(** A room whose deadline is behind every clock reading of the sweep is ended
    by it, whatever happened to the rooms before it. *)
Lemma sweep_trace_expired rooms calls :
  sweep_trace rooms calls ->
  forall i r, In (i, r) rooms ->
  (forall now, In (time_Now_ now) calls -> now > valid r) ->
  In i (ended_ids calls).
Proof.
  induction 1 as [|i0 r0 rest now t Hle _ IH|i0 r0 rest now t Hgt _ IH
                  |i0 r0 rest now e t Hgt _ IH]; intros i r Hin Hall; simpl in Hin.
  - contradiction.
  - destruct Hin as [Heq|Hin].
    + inversion Heq; subst. specialize (Hall now (or_introl eq_refl)). lia.
    + simpl. apply (IH i r Hin). intros n Hn. apply Hall. simpl. auto.
  - simpl. destruct Hin as [Heq|Hin].
    + inversion Heq; subst. auto.
    + right. apply (IH i r Hin). intros n Hn. apply Hall. simpl. auto.
  - simpl. destruct Hin as [Heq|Hin].
    + inversion Heq; subst. auto.
    + right. apply (IH i r Hin). intros n Hn. apply Hall. simpl. auto.
Qed.

(** C4: one sweep goes through every entry of the duration map; for
    each it reads the clock and asks the directory to end the room exactly
    when the reading is greater than [valid], the start plus sixty times the
    duration (in [int64]; the sum itself when nothing overflows); a refusal
    of the directory is logged and the sweep goes on with the entries after
    it ([sweep_trace]).  The sweep leaves the duration map and the Redis
    hashes as they were. *)
Theorem checkRoomWithDuration_sweeps w :
  let out := checkRoomWithDuration env w in
  let rooms := map_to_list (roomsWithDuration w) in
  exists calls,
    trace out.2 = trace w ++ calls /\
    sweep_trace rooms calls /\
    roomsWithDuration out.2 = roomsWithDuration w /\
    rds out.2 = rds w /\
    (forall i, In i (ended_ids calls) ->
       exists r now, roomsWithDuration w !! i = Some r /\
                     In (time_Now_ now) calls /\ now > valid r) /\
    (forall i r, roomsWithDuration w !! i = Some r ->
       (forall now, In (time_Now_ now) calls -> now > valid r) ->
       In i (ended_ids calls)) /\
    (forall i r, roomsWithDuration w !! i = Some r ->
       int64_range (rd_Duration r * 60) ->
       int64_range (rd_StartedAt r + rd_Duration r * 60) ->
       valid r = rd_StartedAt r + rd_Duration r * 60).
Proof.
  intros out rooms. subst out. unfold checkRoomWithDuration, bind, GetRoomsWithDurationMap.
  fold rooms.
  destruct (checkRoomWithDuration_range_run rooms w) as (x & calls & -> & Hcalls).
  exists calls. simpl. repeat split; try exact Hcalls.
  - intros i Hin.
    destruct (sweep_trace_ended rooms calls Hcalls i Hin) as (r & now & H1 & H2 & H3).
    exists r, now. repeat split; try assumption.
    apply elem_of_map_to_list. apply list_elem_of_In. exact H1.
  - intros i r Hi Hall.
    apply (sweep_trace_expired rooms calls Hcalls i r); [|exact Hall].
    apply list_elem_of_In. apply elem_of_map_to_list. exact Hi.
  - intros i r _. apply valid_exact.
Qed.

(** *** Creating the rooms *)

Lemma replay_app calls1 calls2 s :
  replay (calls1 ++ calls2) s = replay calls2 (replay calls1 s).
Proof. apply fold_left_app. Qed.

Lemma CreateBreakoutRooms_invite_run r bRoomId users : forall w,
  exists x calls,
    CreateBreakoutRooms_invite env r bRoomId users w =
      (tt, mkWorld env x (rds w) (roomsWithDuration w) (trace w ++ calls)) /\
    invite_trace env r bRoomId users calls /\
    replay calls (rds w) = rds w.
Proof.
  induction users as [|u rest IH]; intros w.
  - exists (ext w), []. simpl. unfold ret. rewrite app_nil_r.
    destruct w; repeat split. constructor.
  - simpl. unfold bind.
    pose proof (broadcastNotification_run (cr_RoomId r) (cr_RequestedUserId r) (bu_Id u)
                  bRoomId "SYSTEM" "JOIN_BREAKOUT_ROOM" false w) as Hrun.
    simpl in Hrun. fold (invitation r bRoomId u) in Hrun.
    destruct (json_Marshal_WebsocketRedisMsg env (invitation r bRoomId u))
      as [marshal|e] eqn:Hmsg.
    + destruct Hrun as (p & x1 & _ & ->). unfold ret.
      match goal with |- context [CreateBreakoutRooms_invite env r bRoomId rest ?w1] =>
        destruct (IH w1) as (x2 & calls & -> & Hcalls & Hstore) end.
      simpl in *. eexists x2, _. split; [|split].
      * rewrite <- app_assoc. simpl. reflexivity.
      * eapply invite_sent; eassumption.
      * simpl. exact Hstore.
    + rewrite Hrun. unfold log_Error, emit. simpl.
      match goal with |- context [CreateBreakoutRooms_invite env r bRoomId rest ?w1] =>
        destruct (IH w1) as (x2 & calls & -> & Hcalls & Hstore) end.
      simpl in *. eexists x2, _. split; [|split].
      * rewrite <- app_assoc. simpl. reflexivity.
      * eapply invite_failed; eassumption.
      * simpl. exact Hstore.
Qed.

(** Reads the calls of a finished run off the goal. *)
Ltac calls_of t base :=
  match t with
  | base => constr:(@nil Call)
  | ?t0 ++ ?l => let l0 := calls_of t0 base in constr:(l0 ++ l)
  end.

Ltac pick_calls w :=
  simpl;
  match goal with
  | |- context [mkWorld _ ?x' _ _ ?t] =>
      let l := calls_of t (trace w) in
      let l' := eval simpl in l in
      exists x', l'
  end;
  split; [rewrite <- ?app_assoc; simpl | ].

Lemma CreateBreakoutRooms_room_run r meta room w :
  exists x calls,
    CreateBreakoutRooms_room env r meta room w =
      (tt, mkWorld env x (replay calls (rds w)) (roomsWithDuration w) (trace w ++ calls)) /\
    room_trace env r meta room calls.
Proof.
  unfold CreateBreakoutRooms_room, bind.
  match goal with |- context [CreateRoom env ?q w] =>
    destruct (CreateRoom_run q w) as (status & msg & x1 & ->) end.
  destruct status; simpl.
  - destruct (json_Marshal_BreakoutRoom env
                (BreakoutRoom_set_Duration (cr_Duration r) room)) as [marshal|e] eqn:Hm.
    + match goal with |- context [rc_Pipeline_HSet_Exec env ?k ?vals ?w1] =>
        destruct (rc_Pipeline_HSet_Exec_run k vals w1) as (h & x2 & ->) end.
      destruct h as [e|]; simpl.
      * unfold log_Error, emit. pick_calls w; [reflexivity|].
        eapply room_not_persisted. exact Hm.
      * match goal with |- context [CreateBreakoutRooms_invite env r ?b ?us ?w1] =>
          destruct (CreateBreakoutRooms_invite_run r b us w1)
            as (x3 & calls & -> & Hcalls & Hstore) end.
        simpl in *. pick_calls w.
        -- unfold replay in *. simpl. rewrite Hstore. reflexivity.
        -- eapply room_created; eassumption.
    + unfold log_Error, emit. pick_calls w; [reflexivity|].
      eapply room_not_serialized. exact Hm.
  - unfold log_Error, emit. pick_calls w; [reflexivity|].
    apply room_rejected.
Qed.

Lemma CreateBreakoutRooms_range_run r rooms : forall meta w,
  exists x calls,
    CreateBreakoutRooms_range env r meta rooms w =
      (tt, mkWorld env x (replay calls (rds w)) (roomsWithDuration w) (trace w ++ calls)) /\
    rooms_trace env r meta rooms calls.
Proof.
  induction rooms as [|room rest IH]; intros meta w.
  - exists (ext w), []. simpl. unfold ret. rewrite app_nil_r.
    destruct w; split; [reflexivity | constructor].
  - simpl. unfold bind.
    destruct (CreateBreakoutRooms_room_run r
                (RoomMetadata_set_RoomTitle (br_Title room) meta) room w)
      as (x1 & calls1 & -> & H1).
    match goal with |- context [CreateBreakoutRooms_range env r ?m rest ?w1] =>
      destruct (IH m w1) as (x2 & calls2 & -> & H2) end.
    simpl. exists x2, (calls1 ++ calls2). split.
    + rewrite replay_app, app_assoc. reflexivity.
    + apply rooms_next; assumption.
Qed.

(** The loop asks the directory to create every requested room, in order, and
    asks it nothing else. *)
Lemma invite_trace_quiet r bRoomId users calls :
  invite_trace env r bRoomId users calls ->
  created_ids calls = [] /\ loads calls = [] /\ updates calls = [].
Proof. induction 1; simpl; auto. Qed.

Lemma room_trace_calls r meta room calls :
  room_trace env r meta room calls ->
  created_ids calls = [Sprintf_s_colon_s (cr_RoomId r) (br_Id room)] /\
  loads calls = [] /\ updates calls = [].
Proof.
  destruct 1 as [| | |msg marshal t Hm Ht]; simpl; auto.
  apply invite_trace_quiet in Ht as (-> & -> & ->). auto.
Qed.

Lemma rooms_trace_calls r meta rooms calls :
  rooms_trace env r meta rooms calls ->
  created_ids calls = map (fun room => Sprintf_s_colon_s (cr_RoomId r) (br_Id room)) rooms /\
  loads calls = [] /\ updates calls = [].
Proof.
  induction 1 as [|meta room rest t1 t2 H1 _ (IH1 & IH2 & IH3)]; simpl; [auto|].
  apply room_trace_calls in H1 as (Hc & Hl & Hu).
  unfold created_ids, loads, updates in *. rewrite !flat_map_app.
  rewrite Hc, Hl, Hu, IH1, IH2, IH3. auto.
Qed.

(** Every way [CreateBreakoutRooms] can go, with the calls it makes: the load
    of the parent, the turns of the loop, and the update of the parent. *)
Lemma CreateBreakoutRooms_run r w :
  let out := CreateBreakoutRooms env r w in
  let roomId := cr_RoomId r in
  exists loaded,
    (roomService_LoadRoomInfoFromRedis env roomId (ext w)).1 = loaded /\
    match loaded with
    | Err e =>
        out.1 = Some e /\ rds out.2 = rds w /\
        trace out.2 = trace w ++ [LoadRoomInfoFromRedis_ roomId loaded]
    | Ok mainRoom =>
        match json_Unmarshal_RoomMetadata env (ri_Metadata mainRoom) with
        | Err e =>
            out.1 = Some e /\ rds out.2 = rds w /\
            trace out.2 = trace w ++ [LoadRoomInfoFromRedis_ roomId loaded]
        | Ok meta =>
            exists loop,
              rooms_trace env r (breakoutRoomTemplate r meta) (cr_Rooms r) loop /\
              rds out.2 = replay loop (rds w) /\
              match json_Marshal_RoomMetadata env (RoomMetadata_set_IsActive true meta) with
              | Err e =>
                  out.1 = Some e /\
                  trace out.2 = trace w ++ LoadRoomInfoFromRedis_ roomId loaded :: loop
              | Ok marshal =>
                  exists err,
                    out.1 = err /\
                    trace out.2 =
                      trace w ++ LoadRoomInfoFromRedis_ roomId loaded
                        :: loop ++ [UpdateRoomMetadata_ roomId marshal err]
              end
        end
    end.
Proof.
  intros out roomId. subst out. unfold CreateBreakoutRooms, bind. fold roomId.
  destruct (LoadRoomInfoFromRedis_run roomId w) as (loaded & x0 & Hload & ->).
  exists loaded. rewrite Hload. split; [reflexivity|].
  destruct loaded as [mainRoom|e]; [|simpl; auto].
  destruct (json_Unmarshal_RoomMetadata env (ri_Metadata mainRoom)) as [meta|e];
    [|simpl; auto].
  match goal with |- context [CreateBreakoutRooms_range env r ?m ?rooms ?w1] =>
    destruct (CreateBreakoutRooms_range_run r rooms m w1) as (x1 & loop & -> & Hloop) end.
  exists loop. split; [exact Hloop|]. simpl.
  destruct (json_Marshal_RoomMetadata env (RoomMetadata_set_IsActive true meta))
    as [marshal|e].
  - match goal with |- context [UpdateRoomMetadata env roomId marshal ?w1] =>
      destruct (UpdateRoomMetadata_run roomId marshal w1) as (err & x2 & ->) end.
    destruct err as [e|]; unfold ret; simpl; (split; [reflexivity|]);
      eexists; (split; [reflexivity|]); rewrite <- !app_assoc; reflexivity.
  - unfold ret. simpl. rewrite <- !app_assoc. simpl. auto.
Qed.

(** C3: [CreateBreakoutRooms] answers an error [e] only when the load
    of the parent failed with [e], when its metadata did not deserialize, or
    when the update of the parent at the end failed, in serializing the
    metadata or in the directory, which then is the last call.  Once the
    parent is loaded and deserialized, the trace is the load, then one turn
    for every requested room in order ([rooms_trace]: a room the directory
    rejects, that does not serialize or that Redis does not store ends its
    turn with a log entry, and the turns of the rooms after it follow), then
    the update; the directory is asked to create every requested room and
    the store holds what the accepted writes of the turns made of it. *)
Theorem CreateBreakoutRooms_fails_only_on_parent r w :
  let out := CreateBreakoutRooms env r w in
  let roomId := cr_RoomId r in
  exists calls,
    trace out.2 = trace w ++ calls /\
    (forall e, out.1 = Some e ->
       calls = [LoadRoomInfoFromRedis_ roomId (Err e)] \/
       (exists mainRoom,
          calls = [LoadRoomInfoFromRedis_ roomId (Ok mainRoom)] /\
          json_Unmarshal_RoomMetadata env (ri_Metadata mainRoom) = Err e) \/
       (exists mainRoom meta,
          head calls = Some (LoadRoomInfoFromRedis_ roomId (Ok mainRoom)) /\
          json_Unmarshal_RoomMetadata env (ri_Metadata mainRoom) = Ok meta /\
          json_Marshal_RoomMetadata env (RoomMetadata_set_IsActive true meta) = Err e) \/
       (exists marshal,
          last calls = Some (UpdateRoomMetadata_ roomId marshal (Some e)))) /\
    (forall mainRoom meta,
       head calls = Some (LoadRoomInfoFromRedis_ roomId (Ok mainRoom)) ->
       json_Unmarshal_RoomMetadata env (ri_Metadata mainRoom) = Ok meta ->
       exists loop rest,
         calls = LoadRoomInfoFromRedis_ roomId (Ok mainRoom) :: loop ++ rest /\
         rooms_trace env r (breakoutRoomTemplate r meta) (cr_Rooms r) loop /\
         (rest = [] \/ exists marshal err, rest = [UpdateRoomMetadata_ roomId marshal err]) /\
         created_ids calls =
           map (fun room => Sprintf_s_colon_s roomId (br_Id room)) (cr_Rooms r) /\
         rds out.2 = replay loop (rds w)).
Proof.
  intros out roomId.
  destruct (CreateBreakoutRooms_run r w) as (loaded & _ & Hrun).
  fold out roomId in Hrun.
  destruct loaded as [mainRoom|e0].
  - destruct (json_Unmarshal_RoomMetadata env (ri_Metadata mainRoom)) as [meta|e0] eqn:Hmeta.
    + destruct Hrun as (loop & Hloop & Hrds & Hrun).
      pose proof (rooms_trace_calls _ _ _ _ Hloop) as (Hcreated & _ & _).
      destruct (json_Marshal_RoomMetadata env (RoomMetadata_set_IsActive true meta))
        as [marshal|e0] eqn:Hmarshal.
      * destruct Hrun as (err & Hout & Htrace).
        eexists. split; [exact Htrace|]. split.
        -- intros e He. right. right. right. exists marshal.
           rewrite app_comm_cons, last_snoc. congruence.
        -- intros mainRoom' meta' [= <-] Hmeta'.
           assert (meta' = meta) as -> by congruence.
           exists loop, [UpdateRoomMetadata_ roomId marshal err].
           repeat split; eauto.
           unfold created_ids in *. simpl. rewrite flat_map_app, Hcreated. simpl.
           apply app_nil_r.
      * destruct Hrun as (Hout & Htrace).
        eexists. split; [exact Htrace|]. split.
        -- intros e He. right. right. left. exists mainRoom, meta.
           repeat split; congruence.
        -- intros mainRoom' meta' [= <-] Hmeta'.
           assert (meta' = meta) as -> by congruence.
           exists loop, []. rewrite app_nil_r.
           repeat split; auto.
    + destruct Hrun as (Hout & _ & Htrace).
      eexists. split; [exact Htrace|]. split.
      * intros e He. right. left. exists mainRoom. split; congruence.
      * intros mainRoom' meta' [= <-] Hmeta'. congruence.
  - destruct Hrun as (Hout & _ & Htrace).
    eexists. split; [exact Htrace|]. split.
    + intros e He. left. congruence.
    + intros mainRoom' meta' [=].
Qed.

(** C8: whenever [CreateBreakoutRooms] answers nil, its last call is
    the update of the parent, which the directory accepted, and the metadata
    it wrote is the serialization of the parent's loaded metadata with
    [breakoutRoomFeatures.isActive] set to true.  No created room is needed
    for that. *)
Theorem CreateBreakoutRooms_activates_parent r w :
  let out := CreateBreakoutRooms env r w in
  let roomId := cr_RoomId r in
  out.1 = None ->
  exists mainRoom origMeta marshal calls,
    trace out.2 = trace w ++ calls /\
    head calls = Some (LoadRoomInfoFromRedis_ roomId (Ok mainRoom)) /\
    json_Unmarshal_RoomMetadata env (ri_Metadata mainRoom) = Ok origMeta /\
    json_Marshal_RoomMetadata env (RoomMetadata_set_IsActive true origMeta) = Ok marshal /\
    last calls = Some (UpdateRoomMetadata_ roomId marshal None) /\
    bf_IsActive (ft_BreakoutRoomFeatures
                   (rm_Features (RoomMetadata_set_IsActive true origMeta))) = true.
Proof.
  intros out roomId Hnone.
  destruct (CreateBreakoutRooms_run r w) as (loaded & _ & Hrun).
  fold out roomId in Hrun.
  destruct loaded as [mainRoom|e]; [|destruct Hrun; congruence].
  destruct (json_Unmarshal_RoomMetadata env (ri_Metadata mainRoom)) as [meta|e] eqn:Hmeta;
    [|destruct Hrun; congruence].
  destruct Hrun as (loop & _ & _ & Hrun).
  destruct (json_Marshal_RoomMetadata env (RoomMetadata_set_IsActive true meta))
    as [marshal|e] eqn:Hmarshal; [|destruct Hrun; congruence].
  destruct Hrun as (err & Hout & Htrace).
  assert (err = None) as -> by congruence.
  exists mainRoom, meta, marshal. eexists. split; [exact Htrace|].
  repeat split; try assumption.
  rewrite app_comm_cons. apply last_snoc.
Qed.

(** C9, as amended: the metadata [CreateBreakoutRooms] writes to the
    parent is the serialization, with [isActive] set, of a second
    deserialization of the metadata string that the single load at the start
    of the call returned: the directory is read once, the template that the
    first deserialization was turned into is not what is written, and the
    title, welcome message, breakout flag and features other than [isActive]
    written are those of the loaded metadata. *)
Theorem CreateBreakoutRooms_updates_from_loaded_metadata r w calls i s :
  let out := CreateBreakoutRooms env r w in
  let roomId := cr_RoomId r in
  trace out.2 = trace w ++ calls ->
  In (i, s) (updates calls) ->
  i = roomId /\ loads calls = [roomId] /\ updates calls = [(roomId, s)] /\
  exists mainRoom origMeta,
    head calls = Some (LoadRoomInfoFromRedis_ roomId (Ok mainRoom)) /\
    json_Unmarshal_RoomMetadata env (ri_Metadata mainRoom) = Ok origMeta /\
    json_Marshal_RoomMetadata env (RoomMetadata_set_IsActive true origMeta) = Ok s /\
    let written := RoomMetadata_set_IsActive true origMeta in
    rm_RoomTitle written = rm_RoomTitle origMeta /\
    rm_WelcomeMessage written = rm_WelcomeMessage origMeta /\
    rm_IsBreakoutRoom written = rm_IsBreakoutRoom origMeta /\
    ft_RoomDuration (rm_Features written) = ft_RoomDuration (rm_Features origMeta) /\
    ft_AllowRecording (rm_Features written) = ft_AllowRecording (rm_Features origMeta) /\
    ft_AllowRTMP (rm_Features written) = ft_AllowRTMP (rm_Features origMeta) /\
    ft_WaitingRoomFeatures (rm_Features written)
      = ft_WaitingRoomFeatures (rm_Features origMeta) /\
    bf_IsAllow (ft_BreakoutRoomFeatures (rm_Features written))
      = bf_IsAllow (ft_BreakoutRoomFeatures (rm_Features origMeta)).
Proof.
  intros out roomId Htrace Hin.
  destruct (CreateBreakoutRooms_run r w) as (loaded & _ & Hrun).
  fold out roomId in Hrun.
  destruct loaded as [mainRoom|e].
  - destruct (json_Unmarshal_RoomMetadata env (ri_Metadata mainRoom)) as [meta|e] eqn:Hmeta.
    + destruct Hrun as (loop & Hloop & _ & Hrun).
      apply rooms_trace_calls in Hloop as (_ & Hloads & Hupdates).
      destruct (json_Marshal_RoomMetadata env (RoomMetadata_set_IsActive true meta))
        as [marshal|e] eqn:Hmarshal.
      * destruct Hrun as (err & _ & Htrace').
        rewrite Htrace' in Htrace. apply app_inv_head in Htrace. subst calls.
        unfold updates, loads in *. simpl in *.
        rewrite flat_map_app in Hin |- *. rewrite flat_map_app.
        rewrite Hupdates, Hloads in *. simpl in *.
        destruct Hin as [[= <- <-]|[]].
        repeat split. exists mainRoom, meta. repeat split; assumption.
      * destruct Hrun as (_ & Htrace').
        rewrite Htrace' in Htrace. apply app_inv_head in Htrace. subst calls.
        unfold updates in *. simpl in Hin. rewrite Hupdates in Hin. contradiction.
    + destruct Hrun as (_ & _ & Htrace').
      rewrite Htrace' in Htrace. apply app_inv_head in Htrace. subst calls.
      contradiction.
  - destruct Hrun as (_ & _ & Htrace').
    rewrite Htrace' in Htrace. apply app_inv_head in Htrace. subst calls.
    contradiction.
Qed.

End Facts.

(** ** The scenarios of section 8, run *)

Section Scenarios.

Import Demo.

(** The record of [room1:r1] is in the hash and [GetBreakoutRooms] does not
    return it. *)
Example GetBreakoutRooms_loses_stored_record :
  hget "pnm:breakoutRoom:room1" "room1:r1" stored = Some (write_room (r1 30)) /\
  (GetBreakoutRooms env "room1" (world x0 stored ∅)).1
    = Err (errors_New "no breakout room found").
Proof. split; vm_compute; reflexivity. Qed.

(** The record of [room1:r1] is in the hash; [EndBreakoutRooms] ends no room
    and leaves the hash in place. *)
Example EndBreakoutRooms_leaves_stored_record :
  let out := EndBreakoutRooms env "room1" (world x0 stored ∅) in
  out.1 = Some (errors_New "no breakout room found") /\
  ended_ids (trace out.2) = [] /\
  hget "pnm:breakoutRoom:room1" "room1:r1" (rds out.2) = Some (write_room (r1 30)).
Proof. repeat split; vm_compute; reflexivity. Qed.

(** Scenario: [IncreaseBreakoutRoomDuration(room1, room1:r1, 45)] on the
    record stored with 30 minutes. *)
Lemma IncreaseBreakoutRoomDuration_replaces_witness :
  let w := world x0 stored ∅ in
  let out := IncreaseBreakoutRoomDuration env increaseReq w in
  (fetchBreakoutRoom env "room1" "room1:r1" w).1 = Ok (r1 30) /\
  exists p h,
    trace out.2 =
      trace w ++
        [Redis (HGet "pnm:breakoutRoom:room1" "room1:r1") None;
         Redis (Publish "plug-n-meet-room-duration-checker"
                  (write_checker {| dc_Type := "increaseDuration";
                                    dc_RoomId := "room1:r1"; dc_Duration := 45 |})) p;
         Redis (HSet "pnm:breakoutRoom:room1" [("room1:r1", write_room (r1 45))]) h] /\
    out.1 = h /\
    (h = None ->
     hget "pnm:breakoutRoom:room1" "room1:r1" (rds out.2) = Some (write_room (r1 45))) /\
    (forall field, field <> "room1:r1" ->
       hget "pnm:breakoutRoom:room1" field (rds out.2)
       = hget "pnm:breakoutRoom:room1" field (rds w)) /\
    br_Duration (BreakoutRoom_set_Duration 45 (r1 30)) = 45.
Proof.
  intros w out. split; [vm_compute; reflexivity|].
  apply (IncreaseBreakoutRoomDuration_replaces env increaseReq w (r1 30));
    vm_compute; reflexivity.
Defined.

(** Scenario: [CreateBreakoutRooms] for [r1] and [r2] when the directory
    rejects [r1]: both rooms are attempted and the call succeeds. *)
Lemma CreateBreakoutRooms_fails_only_on_parent_witness :
  let w := world x_rejecting_r1 ∅ ∅ in
  let out := CreateBreakoutRooms env createTwoReq w in
  out.1 = None /\
  created_ids (trace out.2) = ["room1:r1"; "room1:r2"] /\
  hget "pnm:breakoutRoom:room1" "room1:r1" (rds out.2) = None /\
  hget "pnm:breakoutRoom:room1" "room1:r2" (rds out.2)
    = Some (write_room (BreakoutRoom_set_Duration 30 r2)).
Proof.
  intros w out. split; [vm_compute; reflexivity|].
  destruct (CreateBreakoutRooms_fails_only_on_parent env createTwoReq w)
    as (calls & Htrace & _ & Hrooms).
  fold out in Htrace. change (trace w ++ calls) with calls in Htrace.
  assert (head calls
          = Some (LoadRoomInfoFromRedis_ "room1"
                    (Ok {| ri_Metadata := write_meta (parentMeta "hello") |}))) as Hhead
    by (rewrite <- Htrace; vm_compute; reflexivity).
  assert (json_Unmarshal_RoomMetadata env (write_meta (parentMeta "hello"))
          = Ok (parentMeta "hello")) as Hmeta
    by (vm_compute; reflexivity).
  destruct (Hrooms _ _ Hhead Hmeta) as (loop & rest & _ & _ & _ & Hcreated & _).
  rewrite Htrace. split; [exact Hcreated|].
  split; vm_compute; reflexivity.
Defined.

(** Scenario of section 8: a room started at [T] for one minute is ended by the
    sweep at [T + 61]. *)
Lemma checkRoomWithDuration_sweeps_witness :
  let w := world x_late ∅ tracked in
  let out := checkRoomWithDuration env w in
  In "room1:r1" (ended_ids (trace out.2)) /\ roomsWithDuration out.2 = tracked.
Proof.
  intros w out.
  destruct (checkRoomWithDuration_sweeps env w)
    as (calls & Htrace & _ & Hmap & _ & _ & Hexpired & _).
  fold out in Htrace, Hmap. change (trace w ++ calls) with calls in Htrace.
  split; [|exact Hmap].
  rewrite Htrace.
  apply (Hexpired "room1:r1" {| rd_Duration := 1; rd_StartedAt := 1000 |}).
  - vm_compute. reflexivity.
  - intros now Hin. rewrite <- Htrace in Hin. vm_compute in Hin.
    destruct Hin as [[= <-]|[[=]|[]]]. vm_compute. reflexivity.
Defined.

(** Scenario of section 8: [JoinBreakoutRoom(room1, room1:r1, u3)], [u3] not
    invited. *)
Lemma JoinBreakoutRoom_invited_only_witness :
  let r := {| jr_RoomId := "room1"; jr_BreakoutRoomId := "room1:r1"; jr_UserId := "u3" |} in
  let w := world x0 stored ∅ in
  let out := JoinBreakoutRoom env r w in
  out.1 = Err (errors_New "you can't join in this room") /\
  trace out.2 = trace w ++ [Redis (HGet "pnm:breakoutRoom:room1" "room1:r1") None].
Proof.
  intros r w out.
  apply (proj1 (proj2 (JoinBreakoutRoom_invited_only env r w)) (r1 30)).
  - vm_compute. reflexivity.
  - simpl. intros [H|[H|[]]]; discriminate H.
Defined.

(** Scenario: [EndBreakoutRoom(room1, room1:r1)] when the directory does not
    end the room: the error is returned and the record stays. *)
Lemma EndBreakoutRoom_removes_after_end_witness :
  let r := {| er_RoomId := "room1"; er_BreakoutRoomId := "room1:r1" |} in
  let w := world x_stuck_r1 stored ∅ in
  let out := EndBreakoutRoom env r w in
  out.1 = Some (errors_New "room not active") /\
  rds out.2 = rds w /\ redis_writes (trace out.2) = [].
Proof.
  intros r w out. split; [vm_compute; reflexivity|].
  apply (proj1 (proj2 (proj2 (EndBreakoutRoom_removes_after_end env r w)))
           (trace out.2) (errors_New "room not active"));
    vm_compute; reflexivity.
Defined.

(** Scenario of section 8: [CreateBreakoutRooms(room1, user42, 30, welcome,
    [r1])] succeeds and activates the parent. *)
Lemma CreateBreakoutRooms_activates_parent_witness :
  let w := world x0 ∅ ∅ in
  let out := CreateBreakoutRooms env createReq w in
  exists mainRoom origMeta marshal calls,
    trace out.2 = trace w ++ calls /\
    head calls = Some (LoadRoomInfoFromRedis_ "room1" (Ok mainRoom)) /\
    json_Unmarshal_RoomMetadata env (ri_Metadata mainRoom) = Ok origMeta /\
    json_Marshal_RoomMetadata env (RoomMetadata_set_IsActive true origMeta) = Ok marshal /\
    last calls = Some (UpdateRoomMetadata_ "room1" marshal None) /\
    bf_IsActive (ft_BreakoutRoomFeatures
                   (rm_Features (RoomMetadata_set_IsActive true origMeta))) = true.
Proof.
  intros w out.
  apply (CreateBreakoutRooms_activates_parent env createReq w).
  vm_compute. reflexivity.
Defined.

(** Scenario: the invitation of [u1] while the network is down: the publish
    fails and the answer is nil. *)
Lemma broadcastNotification_fails_only_on_Marshal_witness :
  let w := world x_down ∅ ∅ in
  let out :=
    broadcastNotification env "room1" "user42" "u1" "room1:r1"
      "SYSTEM" "JOIN_BREAKOUT_ROOM" false w in
  out.1 = None /\
  exists marshal,
    trace out.2 =
      trace w ++ [Redis (Publish "plug-n-meet-websocket" marshal)
                    (Some (errors_New "dial tcp: connection refused"))].
Proof.
  intros w out.
  destruct (proj2 (proj2 (broadcastNotification_fails_only_on_Marshal env
              "room1" "user42" "u1" "room1:r1" "SYSTEM" "JOIN_BREAKOUT_ROOM" false w))
              _ eq_refl) as [Hout Htrace].
  split; [exact Hout|]. eexists. exact Htrace.
Defined.

(** Scenario: another process rewrites the welcome message of [room1] while
    [CreateBreakoutRooms] is creating [r1]. *)
Lemma CreateBreakoutRooms_updates_from_loaded_metadata_witness :
  let w := world x_racing ∅ ∅ in
  let out := CreateBreakoutRooms env createReq w in
  let s := write_meta (RoomMetadata_set_IsActive true (parentMeta "hello")) in
  loads (trace out.2) = ["room1"] /\ updates (trace out.2) = [("room1", s)].
Proof.
  intros w out s.
  destruct (CreateBreakoutRooms_updates_from_loaded_metadata env createReq w
              (trace out.2) "room1" s) as (_ & Hloads & Hupdates & _).
  - vm_compute. reflexivity.
  - vm_compute. left. reflexivity.
  - split; assumption.
Defined.

(** C9, against the re-read that section 4.1 words: with another
    process rewriting the welcome message of [room1] while the rooms are
    created, a second read of the parent would write the edited metadata,
    activated; the code writes the metadata it loaded at the start, activated,
    and the directory ends with the edit gone. *)
Lemma CreateBreakoutRooms_does_not_reread :
  let w := world x_racing ∅ ∅ in
  let code := CreateBreakoutRooms env createReq w in
  let reread := CreateBreakoutRooms_reread env createReq w in
  updates (trace reread.2)
    = [("room1", write_meta (RoomMetadata_set_IsActive true (parentMeta "edited")))] /\
  updates (trace code.2)
    = [("room1", write_meta (RoomMetadata_set_IsActive true (parentMeta "hello")))] /\
  updates (trace code.2) <> updates (trace reread.2) /\
  loads (trace code.2) = ["room1"] /\
  x_dir (ext code.2) !! "room1"
    = Some (write_meta (RoomMetadata_set_IsActive true (parentMeta "hello"))).
Proof.
  intros w code reread.
  repeat split; try (vm_compute; reflexivity).
  vm_compute. discriminate.
Qed.

End Scenarios.

(** * The rest of the two files

    The functions and paths that the theorems above leave aside: what
    [fetchBreakoutRoom] makes of every reply, the three loops behind
    [fetchBreakoutRooms], the token request of [JoinBreakoutRoom], the other
    ways [IncreaseBreakoutRoomDuration] can go, what [CreateBreakoutRooms]
    asks of the directory and leaves in the store, and the subscriber of
    scheduler.go. *)

Section Coverage.

Context (env : Env).

(** The messages handed to [Publish], with their channel, as the trace has them. *)
Definition published (calls : list Call) : list (string * string) :=
  flat_map (fun c => match c with
                     | Redis (Publish channel message) _ => [(channel, message)]
                     | _ => []
                     end) calls.

(** The requests handed to the directory's [CreateRoom]. *)
Definition create_reqs (calls : list Call) : list RoomCreateReq :=
  flat_map (fun c => match c with CreateRoom_ req _ _ => [req] | _ => [] end) calls.

(** ** fetchBreakoutRoom *)

(** X1: [fetchBreakoutRoom] returns a record exactly when the network
    answers, the field is in the hash of the parent, its value is not the
    empty string and the value deserializes to that record.  A stored empty
    string is answered [not found]; a missing field is answered [redis.Nil]
    when the network answers.  In every case its only call is one [HGet] and
    the store is left as it was. *)
Theorem fetchBreakoutRoom_cases roomId breakoutRoomId w :
  let key := breakoutRoomKey +:+ roomId in
  let out := fetchBreakoutRoom env roomId breakoutRoomId w in
  let fault := (redis_fault env (HGet key breakoutRoomId) (ext w)).1 in
  (forall room,
     out.1 = Ok room <->
     fault = None /\
     exists v, hget key breakoutRoomId (rds w) = Some v /\ v <> "" /\
               json_Unmarshal_BreakoutRoom env v = Ok room) /\
  (fault = None -> hget key breakoutRoomId (rds w) = Some "" ->
   out.1 = Err (errors_New "not found")) /\
  (fault = None -> hget key breakoutRoomId (rds w) = None ->
   out.1 = Err redis_Nil) /\
  (forall e, fault = Some e -> out.1 = Err e) /\
  rds out.2 = rds w /\
  roomsWithDuration out.2 = roomsWithDuration w /\
  exists o, trace out.2 = trace w ++ [Redis (HGet key breakoutRoomId) o].
Proof.
  intros key out fault.
  destruct (fetchBreakoutRoom_run env roomId breakoutRoomId w) as (f & x & Hf & Hrun).
  fold key in Hf, Hrun. fold out in Hrun.
  assert (fault = f) as Hfault by (unfold fault; rewrite Hf; reflexivity).
  rewrite Hrun, Hfault. simpl.
  split; [|split; [|split; [|split; [|split; [|split]]]]].
  - intros room. apply fetched_Ok.
  - intros -> ->. reflexivity.
  - intros -> ->. reflexivity.
  - intros e ->. reflexivity.
  - reflexivity.
  - reflexivity.
  - eexists. reflexivity.
Qed.

(** ** The loops behind fetchBreakoutRooms *)

Lemma fetchBreakoutRooms_range_flat_map rooms : forall acc,
  fetchBreakoutRooms_range env rooms acc =
    acc ++ flat_map (fun kv => match json_Unmarshal_BreakoutRoom env kv.2 with
                               | Ok room => [BreakoutRoom_set_Id kv.1 room]
                               | Err _ => []
                               end) rooms.
Proof.
  induction rooms as [|[i v] rest IH]; intros acc; simpl.
  - symmetry. apply app_nil_r.
  - destruct (json_Unmarshal_BreakoutRoom env v) as [room|e]; simpl.
    + rewrite IH, <- app_assoc. reflexivity.
    + apply IH.
Qed.

(** X2: the loop of [fetchBreakoutRooms] (lines 348-357) keeps the
    entries of the map that deserialize, in order, and skips the others; every
    record it returns carries the hash field as its id, whatever id the
    serialized record had, and its other fields are those deserialized. *)
Theorem fetchBreakoutRooms_range_keeps_deserialized rooms :
  let out := fetchBreakoutRooms_range env rooms [] in
  (length out <= length rooms)%nat /\
  (forall room, In room out ->
     exists i v raw,
       In (i, v) rooms /\ json_Unmarshal_BreakoutRoom env v = Ok raw /\
       room = BreakoutRoom_set_Id i raw /\ br_Id room = i /\
       br_Title room = br_Title raw /\ br_Duration room = br_Duration raw /\
       br_Users room = br_Users raw) /\
  (forall i v raw,
     In (i, v) rooms -> json_Unmarshal_BreakoutRoom env v = Ok raw ->
     In (BreakoutRoom_set_Id i raw) out) /\
  ((forall i v, In (i, v) rooms -> exists raw, json_Unmarshal_BreakoutRoom env v = Ok raw) ->
   map br_Id out = map fst rooms).
Proof.
  intros out. subst out. rewrite fetchBreakoutRooms_range_flat_map. simpl.
  split; [|split; [|split]].
  - induction rooms as [|[i v] rest IH]; simpl; [lia|].
    rewrite length_app. destruct (json_Unmarshal_BreakoutRoom env v); simpl; lia.
  - intros room Hin. apply in_flat_map in Hin as ([i v] & Hkv & Hroom). simpl in Hroom.
    destruct (json_Unmarshal_BreakoutRoom env v) as [raw|e] eqn:Hv; [|contradiction].
    destruct Hroom as [<-|[]]. exists i, v, raw. repeat split; assumption.
  - intros i v raw Hin Hv. apply in_flat_map. exists (i, v). split; [exact Hin|].
    simpl. rewrite Hv. left. reflexivity.
  - induction rooms as [|[i v] rest IH]; intros Hall; simpl; [reflexivity|].
    destruct (Hall i v) as [raw Hraw]; [left; reflexivity|].
    rewrite Hraw. simpl. f_equal. apply IH.
    intros i' v' Hin. apply (Hall i' v'). right. exact Hin.
Qed.

Lemma EndBreakoutRooms_range_run rooms : forall w,
  exists x calls,
    EndBreakoutRooms_range env rooms w =
      (tt, mkWorld env x (rds w) (roomsWithDuration w) (trace w ++ calls)) /\
    ended_ids calls = map br_Id rooms /\
    length calls = length rooms /\
    redis_writes calls = [].
Proof.
  induction rooms as [|r rest IH]; intros w.
  - exists (ext w), []. simpl. unfold ret. rewrite app_nil_r.
    destruct w; repeat split.
  - simpl. unfold bind.
    destruct (EndRoom_run env (br_Id r) w) as (err & x1 & ->).
    match goal with |- context [EndBreakoutRooms_range env rest ?w1] =>
      destruct (IH w1) as (x2 & calls & -> & Hids & Hlen & Hwrites) end.
    simpl. exists x2, (EndRoom_ (br_Id r) err :: calls).
    rewrite <- app_assoc. simpl. repeat split; congruence.
Qed.

(** X3: the loop of [EndBreakoutRooms] (lines 277-282) asks the
    directory to end every room of the list once, in order, whether the rooms
    before it could be ended or not; it makes no other call and leaves the
    store and the duration map as they were. *)
Theorem EndBreakoutRooms_range_ends_every_room rooms w :
  let out := EndBreakoutRooms_range env rooms w in
  exists calls,
    trace out.2 = trace w ++ calls /\
    ended_ids calls = map br_Id rooms /\
    length calls = length rooms /\
    rds out.2 = rds w /\
    roomsWithDuration out.2 = roomsWithDuration w.
Proof.
  intros out. subst out.
  destruct (EndBreakoutRooms_range_run rooms w) as (x & calls & -> & Hids & Hlen & _).
  exists calls. simpl. auto.
Qed.

Lemma SendBreakoutRoomMsg_range_run msg rooms : forall w,
  exists x calls,
    SendBreakoutRoomMsg_range env msg rooms w =
      (tt, mkWorld env x (rds w) (roomsWithDuration w) (trace w ++ calls)) /\
    published calls =
      flat_map (fun rr =>
                  match json_Marshal_WebsocketRedisMsg env
                          (broadcastNotification_msg (br_Id rr) "system" "" msg
                             "USER" "CHAT" true) with
                  | Ok s => [("plug-n-meet-websocket", s)]
                  | Err _ => []
                  end) rooms /\
    length calls = length (published calls).
Proof.
  induction rooms as [|rr rest IH]; intros w.
  - exists (ext w), []. simpl. unfold ret. rewrite app_nil_r.
    destruct w; repeat split.
  - simpl. unfold bind.
    pose proof (broadcastNotification_run env (br_Id rr) "system" "" msg
                  "USER" "CHAT" true w) as Hrun.
    simpl in Hrun.
    destruct (json_Marshal_WebsocketRedisMsg env
                (broadcastNotification_msg (br_Id rr) "system" "" msg "USER" "CHAT" true))
      as [s|e].
    + destruct Hrun as (p & x1 & _ & ->).
      match goal with |- context [SendBreakoutRoomMsg_range env msg rest ?w1] =>
        destruct (IH w1) as (x2 & calls & -> & Hpub & Hlen) end.
      simpl. exists x2, (Redis (Publish "plug-n-meet-websocket" s) p :: calls).
      rewrite <- app_assoc. simpl. repeat split; congruence.
    + rewrite Hrun.
      destruct (IH w) as (x2 & calls & -> & Hpub & Hlen).
      exists x2, calls. repeat split; assumption.
Qed.

(** X4: the loop of [SendBreakoutRoomMsg] (lines 242-247) publishes,
    for every room of the list in order, the chat message of that room on the
    websocket channel when it serializes, and goes on to the next room when it
    does not; a publish is its only kind of call, and the store and the
    duration map are left as they were. *)
Theorem SendBreakoutRoomMsg_range_publishes_per_room msg rooms w :
  let out := SendBreakoutRoomMsg_range env msg rooms w in
  exists calls,
    trace out.2 = trace w ++ calls /\
    published calls =
      flat_map (fun rr =>
                  match json_Marshal_WebsocketRedisMsg env
                          (broadcastNotification_msg (br_Id rr) "system" "" msg
                             "USER" "CHAT" true) with
                  | Ok s => [("plug-n-meet-websocket", s)]
                  | Err _ => []
                  end) rooms /\
    length calls = length (published calls) /\
    rds out.2 = rds w /\
    roomsWithDuration out.2 = roomsWithDuration w.
Proof.
  intros out. subst out.
  destruct (SendBreakoutRoomMsg_range_run msg rooms w) as (x & calls & -> & Hpub & Hlen).
  exists calls. simpl. auto.
Qed.

(** X5: [SendBreakoutRoomMsg] answers an error in every world and
    publishes nothing: its only call is the [HGetAll] of
    [fetchBreakoutRooms], whose answer is never a list. *)
Theorem SendBreakoutRoomMsg_publishes_nothing r w :
  let out := SendBreakoutRoomMsg env r w in
  exists e o,
    out.1 = Some e /\
    trace out.2 = trace w ++ [Redis (HGetAll (breakoutRoomKey +:+ sr_RoomId r)) o] /\
    published [Redis (HGetAll (breakoutRoomKey +:+ sr_RoomId r)) o] = [] /\
    rds out.2 = rds w.
Proof.
  intros out. subst out. unfold SendBreakoutRoomMsg, bind.
  destruct (fetchBreakoutRooms_run env (sr_RoomId r) w) as (e & o & x & -> & _).
  exists e, o. simpl. auto.
Qed.

(** ** JoinBreakoutRoom, past the membership test *)

(** The token request of lines 167-172. *)
Definition JoinBreakoutRoom_req (r : JoinBreakoutRoomReq) (p : ParticipantInfo)
  (meta : UserMetadata) : GenTokenReq :=
  {| gt_RoomId := jr_BreakoutRoomId r;
     gt_UserInfo :=
       {| ui_UserId := jr_UserId r; ui_Name := pi_Name p;
          ui_IsAdmin := um_IsAdmin meta; ui_UserMetadata := meta |} |}.

(** Every way [JoinBreakoutRoom] can go for a user that is invited. *)
Lemma JoinBreakoutRoom_invited_run r w room :
  let key := breakoutRoomKey +:+ jr_RoomId r in
  let get := Redis (HGet key (jr_BreakoutRoomId r)) None in
  let out := JoinBreakoutRoom env r w in
  (fetchBreakoutRoom env (jr_RoomId r) (jr_BreakoutRoomId r) w).1 = Ok room ->
  JoinBreakoutRoom_canJoin (br_Users room) (jr_UserId r) false = true ->
  rds out.2 = rds w /\ roomsWithDuration out.2 = roomsWithDuration w /\
  exists loaded,
    match loaded with
    | Err e =>
        out.1 = Err e /\
        trace out.2 =
          trace w ++ [get; LoadParticipantInfoFromRedis_ (jr_RoomId r) (jr_UserId r) loaded]
    | Ok p =>
        match json_Unmarshal_UserMetadata env (pi_Metadata p) with
        | Err e =>
            out.1 = Err e /\
            trace out.2 =
              trace w ++
                [get; LoadParticipantInfoFromRedis_ (jr_RoomId r) (jr_UserId r) loaded]
        | Ok meta =>
            trace out.2 =
              trace w ++
                [get; LoadParticipantInfoFromRedis_ (jr_RoomId r) (jr_UserId r) loaded;
                 DoGenerateToken_ (JoinBreakoutRoom_req r p meta) out.1]
        end
    end.
Proof.
  intros key get out Hfetch Hcan. subst out. unfold JoinBreakoutRoom, bind.
  destruct (fetchBreakoutRoom_run env (jr_RoomId r) (jr_BreakoutRoomId r) w)
    as (fault & x & Hf & Hrun).
  fold key in Hrun, Hf. rewrite Hrun in Hfetch |- *. simpl in Hfetch.
  rewrite Hfetch. rewrite Hcan. simpl.
  apply fetched_Ok in Hfetch as (-> & v & Hv & _ & _). rewrite Hv. simpl.
  match goal with |- context [LoadParticipantInfoFromRedis env ?a ?b ?w1] =>
    destruct (LoadParticipantInfoFromRedis_run env a b w1) as (loaded & x1 & ->) end.
  destruct loaded as [p|e].
  - destruct (json_Unmarshal_UserMetadata env (pi_Metadata p)) as [meta|e] eqn:Hmeta.
    + match goal with |- context [DoGenerateToken env ?q ?w1] =>
        destruct (DoGenerateToken_run env q w1) as (issued & x2 & ->) end.
      destruct issued as [token|e]; simpl; (split; [reflexivity|]);
        (split; [reflexivity|]); exists (Ok p); rewrite Hmeta;
        rewrite <- !app_assoc; reflexivity.
    + simpl. split; [reflexivity|]. split; [reflexivity|]. exists (Ok p).
      rewrite Hmeta. rewrite <- !app_assoc. split; reflexivity.
  - simpl. split; [reflexivity|]. split; [reflexivity|]. exists (Err e).
    rewrite <- !app_assoc. split; reflexivity.
Qed.

(** X23: [JoinBreakoutRoom] never writes: whatever it answers, on every
    path, the Redis hashes and the duration map are as they were. *)
Theorem JoinBreakoutRoom_reads_only r w :
  rds (JoinBreakoutRoom env r w).2 = rds w /\
  roomsWithDuration (JoinBreakoutRoom env r w).2 = roomsWithDuration w.
Proof.
  destruct (fetchBreakoutRoom env (jr_RoomId r) (jr_BreakoutRoomId r) w).1
    as [room|e] eqn:Hfetch.
  - destruct (JoinBreakoutRoom_canJoin (br_Users room) (jr_UserId r) false) eqn:Hcan.
    + destruct (JoinBreakoutRoom_invited_run r w room Hfetch Hcan) as (H1 & H2 & _).
      split; assumption.
    + unfold JoinBreakoutRoom, bind.
      destruct (fetchBreakoutRoom_run env (jr_RoomId r) (jr_BreakoutRoomId r) w)
        as (fault & x & _ & Hrun).
      rewrite Hrun in Hfetch |- *. simpl in Hfetch. rewrite Hfetch, Hcan.
      split; reflexivity.
  - unfold JoinBreakoutRoom, bind.
    destruct (fetchBreakoutRoom_run env (jr_RoomId r) (jr_BreakoutRoomId r) w)
      as (fault & x & _ & Hrun).
    rewrite Hrun in Hfetch |- *. simpl in Hfetch. rewrite Hfetch.
    split; reflexivity.
Qed.

(** X6: when [JoinBreakoutRoom] returns a token, the token is the one
    the token service issued for a request that names the breakout room (not
    the parent), the user id of the request, the display name of the
    participant record loaded from the parent room and the admin flag and
    metadata deserialized from that record; the calls were the [HGet], the
    load of the participant and that one token request, in this order, and
    nothing was written. *)
Theorem JoinBreakoutRoom_token_request r w token :
  let key := breakoutRoomKey +:+ jr_RoomId r in
  let out := JoinBreakoutRoom env r w in
  out.1 = Ok token ->
  exists room p meta,
    (fetchBreakoutRoom env (jr_RoomId r) (jr_BreakoutRoomId r) w).1 = Ok room /\
    In (jr_UserId r) (map bu_Id (br_Users room)) /\
    json_Unmarshal_UserMetadata env (pi_Metadata p) = Ok meta /\
    trace out.2 =
      trace w ++
        [Redis (HGet key (jr_BreakoutRoomId r)) None;
         LoadParticipantInfoFromRedis_ (jr_RoomId r) (jr_UserId r) (Ok p);
         DoGenerateToken_
           {| gt_RoomId := jr_BreakoutRoomId r;
              gt_UserInfo :=
                {| ui_UserId := jr_UserId r; ui_Name := pi_Name p;
                   ui_IsAdmin := um_IsAdmin meta; ui_UserMetadata := meta |} |}
           (Ok token)] /\
    rds out.2 = rds w.
Proof.
  intros key out Hout.
  destruct (JoinBreakoutRoom_run env r w) as (fault & x & _ & Hfetch & Hrun).
  fold key out in Hrun.
  destruct (fetched env _) as [room|e] eqn:Hfetched; [|destruct Hrun; congruence].
  destruct (JoinBreakoutRoom_canJoin (br_Users room) (jr_UserId r) false) eqn:Hcan;
    [|destruct Hrun; congruence].
  clear Hrun.
  destruct (JoinBreakoutRoom_invited_run r w room Hfetch Hcan) as (Hrds & _ & loaded & Hrun).
  fold key out in Hrun, Hrds.
  destruct loaded as [p|e]; [|destruct Hrun; congruence].
  destruct (json_Unmarshal_UserMetadata env (pi_Metadata p)) as [meta|e] eqn:Hmeta;
    [|destruct Hrun; congruence].
  exists room, p, meta. rewrite Hout in Hrun.
  repeat split; try assumption.
  apply JoinBreakoutRoom_canJoin_spec in Hcan as [Hcan|Hcan]; [discriminate | exact Hcan].
Qed.

(** X7: for an invited user, [JoinBreakoutRoom] returns the error of
    the participant load, or the error of deserializing the participant's
    metadata, and in both cases asks for no token; when both succeed it asks
    for one token and returns what the token service answered, error or token. *)
Theorem JoinBreakoutRoom_invited_errors r w room :
  let out := JoinBreakoutRoom env r w in
  (fetchBreakoutRoom env (jr_RoomId r) (jr_BreakoutRoomId r) w).1 = Ok room ->
  In (jr_UserId r) (map bu_Id (br_Users room)) ->
  exists calls loaded,
    trace out.2 = trace w ++ calls /\
    In (LoadParticipantInfoFromRedis_ (jr_RoomId r) (jr_UserId r) loaded) calls /\
    match loaded with
    | Err e => out.1 = Err e /\ tokens calls = []
    | Ok p =>
        match json_Unmarshal_UserMetadata env (pi_Metadata p) with
        | Err e => out.1 = Err e /\ tokens calls = []
        | Ok meta =>
            tokens calls = [JoinBreakoutRoom_req r p meta] /\
            last calls = Some (DoGenerateToken_ (JoinBreakoutRoom_req r p meta) out.1)
        end
    end.
Proof.
  intros out Hfetch Hin.
  assert (JoinBreakoutRoom_canJoin (br_Users room) (jr_UserId r) false = true) as Hcan
    by (apply JoinBreakoutRoom_canJoin_spec; right; exact Hin).
  destruct (JoinBreakoutRoom_invited_run r w room Hfetch Hcan) as (_ & _ & loaded & Hrun).
  fold out in Hrun.
  destruct loaded as [p|e].
  - destruct (json_Unmarshal_UserMetadata env (pi_Metadata p)) as [meta|e] eqn:Hmeta.
    + eexists _, (Ok p). split; [exact Hrun|]. rewrite Hmeta.
      split; [simpl; tauto|]. split; reflexivity.
    + destruct Hrun as [Hout Htrace]. eexists _, (Ok p). split; [exact Htrace|].
      rewrite Hmeta. split; [simpl; tauto|]. split; [exact Hout | reflexivity].
  - destruct Hrun as [Hout Htrace]. eexists _, (Err e). split; [exact Htrace|].
    split; [simpl; tauto|]. split; [exact Hout | reflexivity].
Qed.

(** ** IncreaseBreakoutRoomDuration, every path *)

(** The event of lines 204-207. *)
Definition IncreaseBreakoutRoomDuration_event (r : IncreaseBreakoutRoomDurationReq)
  : RedisRoomDurationCheckerReq :=
  {| dc_Type := "increaseDuration"; dc_RoomId := ir_BreakoutRoomId r;
     dc_Duration := ir_Duration r |}.

Lemma IncreaseBreakoutRoomDuration_run r w :
  let key := breakoutRoomKey +:+ ir_RoomId r in
  let id := ir_BreakoutRoomId r in
  let chan := "plug-n-meet-room-duration-checker" in
  let out := IncreaseBreakoutRoomDuration env r w in
  roomsWithDuration out.2 = roomsWithDuration w /\
  exists o,
    match (fetchBreakoutRoom env (ir_RoomId r) id w).1 with
    | Err e =>
        out.1 = Some e /\ rds out.2 = rds w /\
        trace out.2 = trace w ++ [Redis (HGet key id) o]
    | Ok room =>
        o = None /\
        match json_Marshal_DurationCheckerReq env (IncreaseBreakoutRoomDuration_event r) with
        | Err e =>
            out.1 = Some e /\ rds out.2 = rds w /\
            trace out.2 = trace w ++ [Redis (HGet key id) None]
        | Ok reqMar =>
            exists p,
              match json_Marshal_BreakoutRoom env
                      (BreakoutRoom_set_Duration (ir_Duration r) room) with
              | Err e =>
                  out.1 = Some e /\ rds out.2 = rds w /\
                  trace out.2 =
                    trace w ++ [Redis (HGet key id) None; Redis (Publish chan reqMar) p]
              | Ok marshal =>
                  rds out.2 = match out.1 with
                              | Some _ => rds w
                              | None => hset key [(id, marshal)] (rds w)
                              end /\
                  trace out.2 =
                    trace w ++ [Redis (HGet key id) None; Redis (Publish chan reqMar) p;
                                Redis (HSet key [(id, marshal)]) out.1]
              end
        end
    end.
Proof.
  intros key id chan out. subst out. unfold IncreaseBreakoutRoomDuration, bind.
  fold (IncreaseBreakoutRoomDuration_event r).
  destruct (fetchBreakoutRoom_run env (ir_RoomId r) (ir_BreakoutRoomId r) w)
    as (fault & x & Hf & Hrun).
  fold key id in Hrun, Hf. fold id. rewrite Hrun. simpl.
  destruct (fetched env _) as [room|e] eqn:Hfetched.
  - apply fetched_Ok in Hfetched as (-> & v & Hv & _ & _). rewrite Hv. simpl.
    destruct (json_Marshal_DurationCheckerReq env (IncreaseBreakoutRoomDuration_event r))
      as [reqMar|e].
    + match goal with |- context [rc_Publish env ?c ?m ?w1] =>
        destruct (rc_Publish_run env c m w1) as (p & x1 & _ & ->) end.
      destruct (json_Marshal_BreakoutRoom env
                  (BreakoutRoom_set_Duration (ir_Duration r) room)) as [marshal|e].
      * match goal with |- context [rc_Pipeline_HSet_Exec env ?k ?vals ?w1] =>
          destruct (rc_Pipeline_HSet_Exec_run env k vals w1) as (h & x2 & ->) end.
        simpl. split; [reflexivity|]. exists None. split; [reflexivity|]. exists p.
        rewrite <- !app_assoc. simpl. split; [destruct h|]; reflexivity.
      * simpl. split; [reflexivity|]. exists None. split; [reflexivity|]. exists p.
        rewrite <- !app_assoc. simpl. repeat split.
    + simpl. split; [reflexivity|]. exists None. repeat split.
  - simpl. split; [reflexivity|]. eexists. repeat split.
Qed.

(** X8: when the record of the breakout room cannot be fetched (missing
    field, empty or malformed value, network error), or when the event does
    not serialize, [IncreaseBreakoutRoomDuration] returns that error and has
    published no event and written nothing. *)
Theorem IncreaseBreakoutRoomDuration_unfetched r w e calls :
  let out := IncreaseBreakoutRoomDuration env r w in
  (fetchBreakoutRoom env (ir_RoomId r) (ir_BreakoutRoomId r) w).1 = Err e \/
  json_Marshal_DurationCheckerReq env (IncreaseBreakoutRoomDuration_event r) = Err e ->
  trace out.2 = trace w ++ calls ->
  (exists e', out.1 = Some e') /\ published calls = [] /\ redis_writes calls = [] /\
  rds out.2 = rds w /\
  ((fetchBreakoutRoom env (ir_RoomId r) (ir_BreakoutRoomId r) w).1 = Err e ->
   out.1 = Some e).
Proof.
  intros out Hcause Htrace.
  destruct (IncreaseBreakoutRoomDuration_run r w) as (_ & o & Hrun). fold out in Hrun.
  destruct (fetchBreakoutRoom env (ir_RoomId r) (ir_BreakoutRoomId r) w).1 as [room|e0].
  - destruct Hcause as [Hcause|Hcause]; [discriminate|].
    destruct Hrun as (-> & Hrun). rewrite Hcause in Hrun.
    destruct Hrun as (Hout & Hrds & Htrace').
    rewrite Htrace' in Htrace. apply app_inv_head in Htrace. subst calls.
    split; [eauto|]. repeat split; try assumption. discriminate.
  - destruct Hrun as (Hout & Hrds & Htrace').
    rewrite Htrace' in Htrace. apply app_inv_head in Htrace. subst calls.
    split; [eauto|]. repeat split; try assumption. congruence.
Qed.

(** X9: every error return of [IncreaseBreakoutRoomDuration] leaves the
    store as it was; and when the error is that of the write ([HSet]
    refused), the event with the requested duration has been published all
    the same: the publish comes first and is not taken back. *)
Theorem IncreaseBreakoutRoomDuration_error_keeps_store r w e calls :
  let out := IncreaseBreakoutRoomDuration env r w in
  trace out.2 = trace w ++ calls ->
  out.1 = Some e ->
  rds out.2 = rds w /\
  (forall k v o, In (Redis (HSet k v) o) calls ->
     o = Some e /\
     exists reqMar,
       json_Marshal_DurationCheckerReq env (IncreaseBreakoutRoomDuration_event r)
         = Ok reqMar /\
       published calls = [("plug-n-meet-room-duration-checker", reqMar)]).
Proof.
  intros out Htrace Hout.
  destruct (IncreaseBreakoutRoomDuration_run r w) as (_ & o & Hrun). fold out in Hrun.
  destruct (fetchBreakoutRoom env (ir_RoomId r) (ir_BreakoutRoomId r) w).1 as [room|e0].
  - destruct Hrun as (-> & Hrun).
    destruct (json_Marshal_DurationCheckerReq env (IncreaseBreakoutRoomDuration_event r))
      as [reqMar|e1].
    + destruct Hrun as (p & Hrun).
      destruct (json_Marshal_BreakoutRoom env
                  (BreakoutRoom_set_Duration (ir_Duration r) room)) as [marshal|e1].
      * destruct Hrun as (Hrds & Htrace'). rewrite Hout in Hrds, Htrace'.
        rewrite Htrace' in Htrace. apply app_inv_head in Htrace. subst calls.
        split; [exact Hrds|]. intros k v o1 Hin. simpl in Hin.
        destruct Hin as [[=]|[[=]|[[= <- <- <-]|[]]]].
        split; [reflexivity|]. exists reqMar. split; reflexivity.
      * destruct Hrun as (_ & Hrds & Htrace').
        rewrite Htrace' in Htrace. apply app_inv_head in Htrace. subst calls.
        split; [exact Hrds|]. intros k v o1 Hin. simpl in Hin.
        destruct Hin as [[=]|[[=]|[]]].
    + destruct Hrun as (_ & Hrds & Htrace').
      rewrite Htrace' in Htrace. apply app_inv_head in Htrace. subst calls.
      split; [exact Hrds|]. intros k v o1 Hin. simpl in Hin. destruct Hin as [[=]|[]].
  - destruct Hrun as (_ & Hrds & Htrace').
    rewrite Htrace' in Htrace. apply app_inv_head in Htrace. subst calls.
    split; [exact Hrds|]. intros k v o1 Hin. simpl in Hin. destruct Hin as [[=]|[]].
Qed.

(** X10: round trip through the store.  After an
    [IncreaseBreakoutRoomDuration] that returned nil, fetching the same
    breakout room (network up, the written document read back as it was
    written) returns the record that was there before with its duration
    replaced by the requested one: same id, title and users. *)
Theorem IncreaseBreakoutRoomDuration_then_fetch r w room marshal :
  let out := IncreaseBreakoutRoomDuration env r w in
  let key := breakoutRoomKey +:+ ir_RoomId r in
  let again := fetchBreakoutRoom env (ir_RoomId r) (ir_BreakoutRoomId r) out.2 in
  (fetchBreakoutRoom env (ir_RoomId r) (ir_BreakoutRoomId r) w).1 = Ok room ->
  out.1 = None ->
  json_Marshal_BreakoutRoom env (BreakoutRoom_set_Duration (ir_Duration r) room)
    = Ok marshal ->
  marshal <> "" ->
  json_Unmarshal_BreakoutRoom env marshal
    = Ok (BreakoutRoom_set_Duration (ir_Duration r) room) ->
  (redis_fault env (HGet key (ir_BreakoutRoomId r)) (ext out.2)).1 = None ->
  exists room',
    again.1 = Ok room' /\
    br_Duration room' = ir_Duration r /\
    br_Id room' = br_Id room /\ br_Title room' = br_Title room /\
    br_Users room' = br_Users room.
Proof.
  intros out key again Hfetch Hout Hmarshal Hne Hback Hup.
  destruct (IncreaseBreakoutRoomDuration_run r w) as (_ & o & Hrun).
  fold out key in Hrun. rewrite Hfetch in Hrun. destruct Hrun as (_ & Hrun).
  destruct (json_Marshal_DurationCheckerReq env (IncreaseBreakoutRoomDuration_event r))
    as [reqMar|e]; [|destruct Hrun; congruence].
  destruct Hrun as (p & Hrun). rewrite Hmarshal, Hout in Hrun.
  destruct Hrun as (Hrds & _).
  exists (BreakoutRoom_set_Duration (ir_Duration r) room).
  split; [|repeat split].
  subst again.
  destruct (fetchBreakoutRoom_run env (ir_RoomId r) (ir_BreakoutRoomId r) out.2)
    as (fault & x & Hf & Hagain).
  fold key in Hf, Hagain. rewrite Hagain. simpl.
  rewrite Hf in Hup. simpl in Hup. subst fault.
  apply fetched_Ok. split; [reflexivity|].
  exists marshal. rewrite Hrds. split; [apply hget_hset|]. split; assumption.
Qed.

(** ** EndBreakoutRoom, then JoinBreakoutRoom *)

(** X11: once [EndBreakoutRoom] has returned nil and Redis has accepted
    its [HDel], the breakout room cannot be joined: for every user id, also
    the invited ones, [JoinBreakoutRoom] returns an error and no token is
    requested. *)
Theorem EndBreakoutRoom_then_Join r w userId :
  let key := breakoutRoomKey +:+ er_RoomId r in
  let ended := EndBreakoutRoom env r w in
  let j := {| jr_RoomId := er_RoomId r; jr_BreakoutRoomId := er_BreakoutRoomId r;
              jr_UserId := userId |} in
  let out := JoinBreakoutRoom env j ended.2 in
  last (trace ended.2) = Some (Redis (HDel key (er_BreakoutRoomId r)) None) ->
  ended.1 = None /\
  exists e,
    out.1 = Err e /\
    trace out.2 = trace ended.2 ++ [Redis (HGet key (er_BreakoutRoomId r)) (Some e)].
Proof.
  intros key ended j out Hlast.
  destruct (EndBreakoutRoom_run env r w) as (fault & x & _ & Hrun).
  fold key ended in Hrun.
  assert (ended.1 = None /\ rds ended.2 = hdel key (er_BreakoutRoomId r) (rds w))
    as [Hnone Hrds].
  { destruct (fetched env _) as [room|e].
    - destruct Hrun as [(e & _ & _ & Htrace) | (h & Hnone & Hrds & Htrace)];
        rewrite Htrace in Hlast;
        match type of Hlast with last (?t ++ [?a; ?b]) = _ =>
          change (t ++ [a; b]) with (t ++ [a] ++ [b]) in Hlast end
        || match type of Hlast with last (?t ++ [?a; ?b; ?c]) = _ =>
          change (t ++ [a; b; c]) with (t ++ [a; b] ++ [c]) in Hlast end;
        rewrite app_assoc, last_snoc in Hlast; [discriminate|].
      injection Hlast as Hh. subst h. split; [exact Hnone | exact Hrds].
    - destruct Hrun as (_ & _ & Htrace). rewrite Htrace, last_snoc in Hlast.
      discriminate. }
  split; [exact Hnone|].
  destruct (JoinBreakoutRoom_run env j ended.2) as (fault' & x' & _ & _ & Hjoin).
  simpl in Hjoin. fold key out in Hjoin.
  rewrite Hrds, hget_hdel in Hjoin.
  destruct (fetched_missing env fault') as (e & Hreply & Hfetched & _).
  rewrite Hfetched, Hreply in Hjoin. exists e. exact Hjoin.
Qed.

(** ** CreateBreakoutRooms: what the directory is asked, what the store holds *)

Definition childId (r : CreateBreakoutRoomsReq) (room : BreakoutRoom) : string :=
  Sprintf_s_colon_s (cr_RoomId r) (br_Id room).

Lemma append_inv_head (a x y : string) : a +:+ x = a +:+ y -> x = y.
Proof.
  induction a as [|c a IH]; simpl; intros H; [exact H|].
  injection H as H. apply IH. exact H.
Qed.

Lemma childId_inj r room room' : childId r room = childId r room' -> br_Id room = br_Id room'.
Proof.
  unfold childId, Sprintf_s_colon_s. intros H.
  apply append_inv_head in H. apply (append_inv_head ":") in H. exact H.
Qed.

Lemma invite_trace_effects r bRoomId users calls :
  invite_trace env r bRoomId users calls ->
  create_reqs calls = [] /\ redis_writes calls = [] /\
  (forall s, replay calls s = s) /\
  published calls =
    flat_map (fun u => match json_Marshal_WebsocketRedisMsg env (invitation r bRoomId u) with
                       | Ok m => [("plug-n-meet-websocket", m)]
                       | Err _ => []
                       end) users.
Proof.
  induction 1 as [|u rest marshal p t Hm _ (IH1 & IH2 & IH3 & IH4)
                  |u rest e t Hm _ (IH1 & IH2 & IH3 & IH4)]; simpl.
  - auto.
  - rewrite Hm. simpl. split; [exact IH1|]. split; [exact IH2|].
    split; [intros s; apply IH3|]. f_equal. exact IH4.
  - rewrite Hm. simpl. split; [exact IH1|]. split; [exact IH2|].
    split; [intros s; apply IH3 | exact IH4].
Qed.

(** One turn: the request handed to the directory, and the one write that can
    come of it. *)
Lemma room_trace_effects r meta room calls :
  room_trace env r meta room calls ->
  create_reqs calls = [{| rc_RoomId := childId r room; rc_RoomMetadata := meta |}] /\
  ((redis_writes calls = [] /\ published calls = [] /\ forall s, replay calls s = s) \/
   exists v,
     json_Marshal_BreakoutRoom env (BreakoutRoom_set_Duration (cr_Duration r) room) = Ok v /\
     redis_writes calls = [HSet (breakoutRoomKey +:+ cr_RoomId r) [(childId r room, v)]] /\
     ((forall s, replay calls s = s) /\ published calls = [] /\
      (forall k vals, ~ In (Redis (HSet k vals) None) calls) \/
      (forall s, replay calls s
                 = hset (breakoutRoomKey +:+ cr_RoomId r) [(childId r room, v)] s) /\
      (forall k vals, In (Redis (HSet k vals) None) calls ->
         k = breakoutRoomKey +:+ cr_RoomId r /\ vals = [(childId r room, v)]) /\
      published calls =
        flat_map (fun u =>
                    match json_Marshal_WebsocketRedisMsg env
                            (invitation r (childId r room) u) with
                    | Ok m => [("plug-n-meet-websocket", m)]
                    | Err _ => []
                    end) (br_Users room))).
Proof.
  destruct 1 as [msg|msg e Hm|msg marshal e Hm|msg marshal t Hm Ht];
    (split; [try reflexivity|]).
  - left. repeat split.
  - left. repeat split.
  - right. exists marshal. split; [exact Hm|]. split; [reflexivity|].
    left. repeat split. intros k vals [[=]|[[=]|[[=]|[]]]].
  - simpl. apply invite_trace_effects in Ht as (-> & _). reflexivity.
  - right. exists marshal. split; [exact Hm|].
    apply invite_trace_effects in Ht as (_ & Hw & Hreplay & Hpub).
    split; [simpl; rewrite Hw; reflexivity|].
    right. split; [|split].
    + intros s. unfold replay in *. simpl. apply Hreplay.
    + intros k vals [[=]|[[= <- <-]|Hin]]; [split; reflexivity|].
      exfalso. clear -Hin Hw.
      induction t as [|c t IH]; [contradiction|].
      destruct Hin as [->|Hin]; [discriminate Hw|].
      apply IH; [|exact Hin].
      unfold redis_writes in *. simpl in Hw. apply app_eq_nil in Hw. apply Hw.
    + simpl. exact Hpub.
Qed.

(** The requests of the loop: one per requested room, each with the template
    retitled for that room. *)
Lemma rooms_trace_create_reqs r meta rooms calls :
  rooms_trace env r meta rooms calls ->
  forall meta0,
    (forall t, RoomMetadata_set_RoomTitle t meta = RoomMetadata_set_RoomTitle t meta0) ->
    create_reqs calls =
      map (fun room => {| rc_RoomId := childId r room;
                          rc_RoomMetadata :=
                            RoomMetadata_set_RoomTitle (br_Title room) meta0 |}) rooms.
Proof.
  induction 1 as [|meta room rest t1 t2 H1 _ IH]; intros meta0 Hmeta; simpl; [reflexivity|].
  apply room_trace_effects in H1 as (Hreq & _).
  unfold create_reqs in *. rewrite flat_map_app, Hreq, Hmeta. simpl. f_equal.
  apply IH. intros t. rewrite <- Hmeta. reflexivity.
Qed.

(** X12: once the parent is loaded and deserialized,
    [CreateBreakoutRooms] asks the directory to create exactly one room per
    requested room, in order, under the id [<parent>:<room id>] and with the
    parent's metadata turned into the child template: title of the requested
    room, welcome message and duration of the request, breakout flag set,
    recording, RTMP, breakout rooms and waiting room switched off.  When the
    parent is not loaded or not deserialized the directory is asked for no room. *)
Theorem CreateBreakoutRooms_child_requests r w calls :
  let out := CreateBreakoutRooms env r w in
  trace out.2 = trace w ++ calls ->
  match head calls with
  | Some (LoadRoomInfoFromRedis_ _ (Ok mainRoom)) =>
      match json_Unmarshal_RoomMetadata env (ri_Metadata mainRoom) with
      | Ok meta =>
          create_reqs calls =
            map (fun room =>
                   {| rc_RoomId := childId r room;
                      rc_RoomMetadata :=
                        {| rm_RoomTitle := br_Title room;
                           rm_WelcomeMessage := cr_WelcomeMsg r;
                           rm_IsBreakoutRoom := true;
                           rm_Features :=
                             {| ft_AllowRecording := false;
                                ft_AllowRTMP := false;
                                ft_RoomDuration := cr_Duration r;
                                ft_BreakoutRoomFeatures :=
                                  {| bf_IsAllow := false;
                                     bf_IsActive :=
                                       bf_IsActive
                                         (ft_BreakoutRoomFeatures (rm_Features meta)) |};
                                ft_WaitingRoomFeatures := {| wf_IsActive := false |} |} |} |})
                (cr_Rooms r)
      | Err _ => create_reqs calls = []
      end
  | _ => create_reqs calls = []
  end.
Proof.
  intros out Htrace.
  destruct (CreateBreakoutRooms_run env r w) as (loaded & _ & Hrun). fold out in Hrun.
  destruct loaded as [mainRoom|e].
  - destruct (json_Unmarshal_RoomMetadata env (ri_Metadata mainRoom)) as [meta|e] eqn:Hmeta.
    + destruct Hrun as (loop & Hloop & _ & Hrun).
      pose proof (rooms_trace_create_reqs _ _ _ _ Hloop (breakoutRoomTemplate r meta)
                    (fun t => eq_refl)) as Hreqs.
      destruct (json_Marshal_RoomMetadata env (RoomMetadata_set_IsActive true meta)).
      * destruct Hrun as (err & _ & Htrace').
        rewrite Htrace' in Htrace. apply app_inv_head in Htrace. subst calls.
        simpl. rewrite Hmeta. unfold create_reqs in *. simpl.
        rewrite flat_map_app, Hreqs. simpl. apply app_nil_r.
      * destruct Hrun as (_ & Htrace').
        rewrite Htrace' in Htrace. apply app_inv_head in Htrace. subst calls.
        simpl. rewrite Hmeta. exact Hreqs.
    + destruct Hrun as (_ & _ & Htrace').
      rewrite Htrace' in Htrace. apply app_inv_head in Htrace. subst calls.
      simpl. rewrite Hmeta. reflexivity.
  - destruct Hrun as (_ & _ & Htrace').
    rewrite Htrace' in Htrace. apply app_inv_head in Htrace. subst calls.
    reflexivity.
Qed.

Lemma hset_other_key key key' vals (s : gmap string (gmap string string)) :
  key' <> key -> hset key vals s !! key' = s !! key'.
Proof. intros Hne. unfold hset. apply lookup_insert_ne. congruence. Qed.

(** What the turns of the loop leave in the store, from any store. *)
Lemma rooms_trace_store r meta rooms calls :
  rooms_trace env r meta rooms calls ->
  let key := breakoutRoomKey +:+ cr_RoomId r in
  forall s,
    (forall key', key' <> key -> replay calls s !! key' = s !! key') /\
    (forall field,
       hget key field (replay calls s) = hget key field s \/
       exists room v,
         In room rooms /\ field = childId r room /\
         json_Marshal_BreakoutRoom env (BreakoutRoom_set_Duration (cr_Duration r) room)
           = Ok v /\
         hget key field (replay calls s) = Some v) /\
    (forall c, In c (redis_writes calls) ->
       exists room v,
         In room rooms /\
         json_Marshal_BreakoutRoom env (BreakoutRoom_set_Duration (cr_Duration r) room)
           = Ok v /\
         c = HSet key [(childId r room, v)]).
Proof.
  intros Htrace key.
  induction Htrace as [|meta room rest t1 t2 H1 _ IH]; intros s.
  - split; [reflexivity|]. split; [left; reflexivity | contradiction].
  - rewrite replay_app.
    destruct (IH (replay t1 s)) as (IHk & IHf & IHw).
    apply room_trace_effects in H1 as (_ & H1). fold key in H1.
    assert ((redis_writes t1 = [] /\ replay t1 s = s) \/
            exists v,
              json_Marshal_BreakoutRoom env
                (BreakoutRoom_set_Duration (cr_Duration r) room) = Ok v /\
              redis_writes t1 = [HSet key [(childId r room, v)]] /\
              (replay t1 s = s \/ replay t1 s = hset key [(childId r room, v)] s))
      as Ht1.
    { destruct H1 as [(Hw & _ & Hs) | (v & Hv & Hw & [(Hs & _) | (Hs & _)])].
      - left. auto.
      - right. exists v. auto.
      - right. exists v. auto. }
    clear H1. split; [|split].
    + intros key' Hne. rewrite IHk by exact Hne.
      destruct Ht1 as [(_ & ->) | (v & _ & _ & [-> | ->])]; try reflexivity.
      apply hset_other_key. exact Hne.
    + intros field.
      destruct (IHf field) as [Hsame | (room' & v' & Hin & Hfield & Hv' & Hget)].
      * destruct Ht1 as [(_ & Hs) | (v & Hv & _ & [Hs | Hs])];
          rewrite Hs in Hsame |- *; [left; exact Hsame..|].
        destruct (decide (field = childId r room)) as [->|Hne].
        -- right. exists room, v. split; [left; reflexivity|].
           split; [reflexivity|]. split; [exact Hv|]. rewrite Hsame. apply hget_hset.
        -- left. rewrite Hsame. apply hget_hset_ne. congruence.
      * right. exists room', v'. split; [right; exact Hin|]. auto.
    + intros c Hin. unfold redis_writes in Hin. rewrite flat_map_app in Hin.
      apply in_app_or in Hin as [Hin|Hin].
      * destruct Ht1 as [(Hw & _) | (v & Hv & Hw & _)]; unfold redis_writes in Hw;
          rewrite Hw in Hin; [contradiction|].
        destruct Hin as [<-|[]]. exists room, v. split; [left; reflexivity|]. auto.
      * destruct (IHw c Hin) as (room' & v' & Hin' & Hv' & Hc).
        exists room', v'. split; [right; exact Hin'|]. auto.
Qed.

Lemma CreateBreakoutRooms_keeps_map r w :
  roomsWithDuration (CreateBreakoutRooms env r w).2 = roomsWithDuration w.
Proof.
  unfold CreateBreakoutRooms, bind.
  destruct (LoadRoomInfoFromRedis_run env (cr_RoomId r) w) as (loaded & x0 & _ & ->).
  destruct loaded as [mainRoom|e]; [|reflexivity].
  destruct (json_Unmarshal_RoomMetadata env (ri_Metadata mainRoom)) as [meta|e];
    [|reflexivity].
  match goal with |- context [CreateBreakoutRooms_range env r ?m ?rooms ?w1] =>
    destruct (CreateBreakoutRooms_range_run env r rooms m w1) as (x1 & loop & -> & _) end.
  destruct (json_Marshal_RoomMetadata env (RoomMetadata_set_IsActive true meta));
    [|reflexivity].
  match goal with |- context [UpdateRoomMetadata env ?i ?m ?w1] =>
    destruct (UpdateRoomMetadata_run env i m w1) as (err & x2 & ->) end.
  destruct err; reflexivity.
Qed.

(** The calls of [CreateBreakoutRooms] around the turns of its loop touch
    neither Redis nor the websocket channel. *)
Lemma CreateBreakoutRooms_loop r w calls :
  let out := CreateBreakoutRooms env r w in
  trace out.2 = trace w ++ calls ->
  (rds out.2 = rds w /\ redis_writes calls = [] /\ published calls = [] /\
   forall c o, ~ In (Redis c o) calls) \/
  exists meta loop,
    rooms_trace env r (breakoutRoomTemplate r meta) (cr_Rooms r) loop /\
    rds out.2 = replay loop (rds w) /\
    redis_writes calls = redis_writes loop /\
    published calls = published loop /\
    forall c o, In (Redis c o) calls <-> In (Redis c o) loop.
Proof.
  intros out Htrace.
  destruct (CreateBreakoutRooms_run env r w) as (loaded & _ & Hrun). fold out in Hrun.
  destruct loaded as [mainRoom|e].
  - destruct (json_Unmarshal_RoomMetadata env (ri_Metadata mainRoom)) as [meta|e].
    + destruct Hrun as (loop & Hloop & Hrds & Hrun).
      right. exists meta, loop. split; [exact Hloop|]. split; [exact Hrds|].
      destruct (json_Marshal_RoomMetadata env (RoomMetadata_set_IsActive true meta)).
      * destruct Hrun as (err & _ & Htrace').
        rewrite Htrace' in Htrace. apply app_inv_head in Htrace. subst calls.
        unfold redis_writes, published. simpl. rewrite !flat_map_app. simpl.
        rewrite !app_nil_r. repeat split; intros Hin.
        -- destruct Hin as [[=]|Hin]. apply in_app_or in Hin as [Hin|[[=]|[]]]. exact Hin.
        -- right. apply in_or_app. left. exact Hin.
      * destruct Hrun as (_ & Htrace').
        rewrite Htrace' in Htrace. apply app_inv_head in Htrace. subst calls.
        repeat split; intros Hin.
        -- destruct Hin as [[=]|Hin]. exact Hin.
        -- right. exact Hin.
    + destruct Hrun as (_ & Hrds & Htrace').
      rewrite Htrace' in Htrace. apply app_inv_head in Htrace. subst calls.
      left. repeat split; try assumption. intros c o [[=]|[]].
  - destruct Hrun as (_ & Hrds & Htrace').
    rewrite Htrace' in Htrace. apply app_inv_head in Htrace. subst calls.
    left. repeat split; try assumption. intros c o [[=]|[]].
Qed.

(** X13: [CreateBreakoutRooms] writes to Redis only by [HSet] under the
    hash of the parent, one field [<parent>:<room id>] of a requested room at
    a time, with the serialization of that room carrying the duration of the
    request.  So after the call every other hash is as it was, every field of
    the parent's hash either is as it was or holds such a record of a
    requested room, no field that was there is gone, and the duration map is
    as it was. *)
Theorem CreateBreakoutRooms_store r w calls :
  let out := CreateBreakoutRooms env r w in
  let key := breakoutRoomKey +:+ cr_RoomId r in
  trace out.2 = trace w ++ calls ->
  roomsWithDuration out.2 = roomsWithDuration w /\
  (forall key', key' <> key -> rds out.2 !! key' = rds w !! key') /\
  (forall field,
     hget key field (rds out.2) = hget key field (rds w) \/
     exists room v,
       In room (cr_Rooms r) /\ field = childId r room /\
       json_Marshal_BreakoutRoom env (BreakoutRoom_set_Duration (cr_Duration r) room)
         = Ok v /\
       hget key field (rds out.2) = Some v) /\
  (forall c, In c (redis_writes calls) ->
     exists room v,
       In room (cr_Rooms r) /\
       json_Marshal_BreakoutRoom env (BreakoutRoom_set_Duration (cr_Duration r) room)
         = Ok v /\
       c = HSet key [(childId r room, v)]) /\
  (forall field, is_Some (hget key field (rds w)) -> is_Some (hget key field (rds out.2))).
Proof.
  intros out key Htrace.
  split; [apply CreateBreakoutRooms_keeps_map|].
  assert ((forall key', key' <> key -> rds out.2 !! key' = rds w !! key') /\
          (forall field,
             hget key field (rds out.2) = hget key field (rds w) \/
             exists room v,
               In room (cr_Rooms r) /\ field = childId r room /\
               json_Marshal_BreakoutRoom env
                 (BreakoutRoom_set_Duration (cr_Duration r) room) = Ok v /\
               hget key field (rds out.2) = Some v) /\
          (forall c, In c (redis_writes calls) ->
             exists room v,
               In room (cr_Rooms r) /\
               json_Marshal_BreakoutRoom env
                 (BreakoutRoom_set_Duration (cr_Duration r) room) = Ok v /\
               c = HSet key [(childId r room, v)])) as (Hk & Hf & Hw).
  { destruct (CreateBreakoutRooms_loop r w calls Htrace)
      as [(Hrds & Hw & _) | (meta & loop & Hloop & Hrds & Hw & _)]; fold out in Hrds.
    - rewrite Hrds, Hw. split; [reflexivity|]. split; [left; reflexivity | contradiction].
    - rewrite Hrds, Hw. apply (rooms_trace_store _ _ _ _ Hloop). }
  split; [exact Hk|]. split; [exact Hf|]. split; [exact Hw|].
  intros field Hsome.
  destruct (Hf field) as [-> | (room & v & _ & _ & _ & ->)]; [exact Hsome | eauto].
Qed.

Lemma In_HSet_redis_writes calls k vals o :
  In (Redis (HSet k vals) o) calls -> In (HSet k vals) (redis_writes calls).
Proof.
  intros Hin. apply in_flat_map. exists (Redis (HSet k vals) o).
  split; [exact Hin | left; reflexivity].
Qed.

(** With distinct room ids, a write that Redis accepted is still there when
    the loop is over. *)
Lemma rooms_trace_persisted r meta rooms calls :
  rooms_trace env r meta rooms calls ->
  let key := breakoutRoomKey +:+ cr_RoomId r in
  NoDup (map br_Id rooms) ->
  forall s k vals,
    In (Redis (HSet k vals) None) calls ->
    exists room v,
      In room rooms /\ k = key /\ vals = [(childId r room, v)] /\
      json_Marshal_BreakoutRoom env (BreakoutRoom_set_Duration (cr_Duration r) room)
        = Ok v /\
      hget key (childId r room) (replay calls s) = Some v.
Proof.
  intros Htrace key.
  induction Htrace as [|meta room rest t1 t2 H1 H2 IH]; intros Hnodup s k vals Hin;
    [contradiction|].
  simpl in Hnodup. apply NoDup_cons in Hnodup as [Hfresh Hnodup].
  rewrite replay_app. apply in_app_or in Hin as [Hin|Hin].
  - apply room_trace_effects in H1 as (_ & H1). fold key in H1.
    destruct H1 as [(Hw & _) | (v & Hv & _ & [(_ & _ & Hno) | (Hs & Honly & _)])].
    + apply In_HSet_redis_writes in Hin. rewrite Hw in Hin. contradiction.
    + contradiction (Hno k vals Hin).
    + destruct (Honly k vals Hin) as [-> ->].
      exists room, v. split; [left; reflexivity|].
      split; [reflexivity|]. split; [reflexivity|]. split; [exact Hv|].
      destruct (rooms_trace_store _ _ _ _ H2 (replay t1 s)) as (_ & Hf & _).
      fold key in Hf.
      destruct (Hf (childId r room)) as [-> | (room' & v' & Hin' & Hid & _)].
      * rewrite Hs. apply hget_hset.
      * exfalso. apply Hfresh. apply childId_inj in Hid. rewrite Hid.
        apply list_elem_of_In. apply in_map. exact Hin'.
  - destruct (IH Hnodup (replay t1 s) k vals Hin) as (room' & v' & Hin' & Hrest).
    exists room', v'. split; [right; exact Hin'|]. exact Hrest.
Qed.

(** X14: when the requested rooms have distinct ids, every record that
    Redis accepted during [CreateBreakoutRooms] is in the hash of the parent
    when the call returns, under [<parent>:<room id>], and it is the
    serialization of a requested room with the duration of the request
    (overriding the duration the room was submitted with). *)
Theorem CreateBreakoutRooms_persisted r w calls k vals :
  let out := CreateBreakoutRooms env r w in
  let key := breakoutRoomKey +:+ cr_RoomId r in
  NoDup (map br_Id (cr_Rooms r)) ->
  trace out.2 = trace w ++ calls ->
  In (Redis (HSet k vals) None) calls ->
  exists room v,
    In room (cr_Rooms r) /\ k = key /\ vals = [(childId r room, v)] /\
    json_Marshal_BreakoutRoom env (BreakoutRoom_set_Duration (cr_Duration r) room) = Ok v /\
    br_Duration (BreakoutRoom_set_Duration (cr_Duration r) room) = cr_Duration r /\
    hget key (childId r room) (rds out.2) = Some v.
Proof.
  intros out key Hnodup Htrace Hin.
  destruct (CreateBreakoutRooms_loop r w calls Htrace)
    as [(_ & _ & _ & Hno) | (meta & loop & Hloop & Hrds & _ & _ & Hiff)];
    fold out in Hrds || idtac.
  - contradiction (Hno _ _ Hin).
  - apply Hiff in Hin.
    destruct (rooms_trace_persisted _ _ _ _ Hloop Hnodup (rds w) k vals Hin)
      as (room & v & Hroom & Hk & Hvals & Hv & Hget).
    exists room, v. rewrite Hrds. repeat split; assumption.
Qed.

(** The invitations of the loop. *)
Lemma rooms_trace_published r meta rooms calls :
  rooms_trace env r meta rooms calls ->
  (forall cm, In cm (published calls) ->
     exists room u m,
       In room rooms /\ In u (br_Users room) /\
       json_Marshal_WebsocketRedisMsg env (invitation r (childId r room) u) = Ok m /\
       cm = ("plug-n-meet-websocket", m)) /\
  (forall k vals,
     In (Redis (HSet k vals) None) calls ->
     exists room v,
       In room rooms /\ vals = [(childId r room, v)] /\
       forall u m,
         In u (br_Users room) ->
         json_Marshal_WebsocketRedisMsg env (invitation r (childId r room) u) = Ok m ->
         In ("plug-n-meet-websocket", m) (published calls)).
Proof.
  induction 1 as [|meta room rest t1 t2 H1 _ (IHp & IHs)].
  - split; [contradiction|]. intros k vals [].
  - apply room_trace_effects in H1 as (_ & H1).
    unfold published in *. split.
    + intros cm Hin. rewrite flat_map_app in Hin. apply in_app_or in Hin as [Hin|Hin].
      * destruct H1 as [(_ & Hp & _) | (v & _ & _ & [(_ & Hp & _) | (_ & _ & Hp)])];
          unfold published in Hp; rewrite Hp in Hin; try contradiction.
        apply in_flat_map in Hin as (u & Hu & Hin).
        destruct (json_Marshal_WebsocketRedisMsg env (invitation r (childId r room) u))
          as [m|e] eqn:Hm; [|contradiction].
        destruct Hin as [<-|[]]. exists room, u, m.
        split; [left; reflexivity|]. auto.
      * destruct (IHp cm Hin) as (room' & u & m & Hin' & Hrest).
        exists room', u, m. split; [right; exact Hin'|]. exact Hrest.
    + intros k vals Hin. apply in_app_or in Hin as [Hin|Hin].
      * destruct H1 as [(Hw & _) | (v & _ & _ & [(_ & _ & Hno) | (_ & Honly & Hp)])].
        -- apply In_HSet_redis_writes in Hin. rewrite Hw in Hin. contradiction.
        -- contradiction (Hno k vals Hin).
        -- destruct (Honly k vals Hin) as [_ ->].
           exists room, v. split; [left; reflexivity|]. split; [reflexivity|].
           intros u m Hu Hm. rewrite flat_map_app. apply in_or_app. left.
           unfold published in Hp. rewrite Hp. apply in_flat_map.
           exists u. split; [exact Hu|]. rewrite Hm. left. reflexivity.
      * destruct (IHs k vals Hin) as (room' & v' & Hin' & Hvals & Hall).
        exists room', v'. split; [right; exact Hin'|]. split; [exact Hvals|].
        intros u m Hu Hm. rewrite flat_map_app. apply in_or_app. right. eauto.
Qed.

(** X15: the only messages [CreateBreakoutRooms] publishes are
    invitations, on the websocket channel, of an invited user of a requested
    room to that room; and for every record Redis accepted, every invited
    user of that room whose invitation serializes has had it published,
    whether the publish for the users before succeeded or not. *)
Theorem CreateBreakoutRooms_invitations r w calls :
  let out := CreateBreakoutRooms env r w in
  trace out.2 = trace w ++ calls ->
  (forall cm, In cm (published calls) ->
     exists room u m,
       In room (cr_Rooms r) /\ In u (br_Users room) /\
       json_Marshal_WebsocketRedisMsg env
         (broadcastNotification_msg (cr_RoomId r) (cr_RequestedUserId r) (bu_Id u)
            (childId r room) "SYSTEM" "JOIN_BREAKOUT_ROOM" false) = Ok m /\
       cm = ("plug-n-meet-websocket", m)) /\
  (forall k vals,
     In (Redis (HSet k vals) None) calls ->
     exists room v,
       In room (cr_Rooms r) /\ vals = [(childId r room, v)] /\
       forall u m,
         In u (br_Users room) ->
         json_Marshal_WebsocketRedisMsg env
           (broadcastNotification_msg (cr_RoomId r) (cr_RequestedUserId r) (bu_Id u)
              (childId r room) "SYSTEM" "JOIN_BREAKOUT_ROOM" false) = Ok m ->
         In ("plug-n-meet-websocket", m) (published calls)).
Proof.
  intros out Htrace.
  destruct (CreateBreakoutRooms_loop r w calls Htrace)
    as [(_ & _ & Hp & Hno) | (meta & loop & Hloop & _ & _ & Hp & Hiff)].
  - rewrite Hp. split; [contradiction|]. intros k vals Hin. contradiction (Hno _ _ Hin).
  - rewrite Hp. destruct (rooms_trace_published _ _ _ _ Hloop) as (H1 & H2).
    split; [exact H1|]. intros k vals Hin. apply (H2 k vals). apply Hiff. exact Hin.
Qed.

(** ** The sweep, once and again *)

Definition clock_readings (calls : list Call) : list Z :=
  flat_map (fun c => match c with time_Now_ t => [t] | _ => [] end) calls.


Lemma checkRoomWithDuration_run w :
  exists x calls,
    checkRoomWithDuration env w =
      (tt, mkWorld env x (rds w) (roomsWithDuration w) (trace w ++ calls)) /\
    sweep_trace (map_to_list (roomsWithDuration w)) calls.
Proof.
  unfold checkRoomWithDuration, bind, GetRoomsWithDurationMap.
  apply checkRoomWithDuration_range_run.
Qed.


(** X17: the sweep keeps no memory.  Two sweeps in a row range over the
    same entries, and a room whose deadline is behind every clock reading of
    both is asked to end by the first sweep and again by the second: nothing
    in the sweep removes the entry or marks the room as ended. *)
Theorem checkRoomWithDuration_twice w :
  let first := checkRoomWithDuration env w in
  let second := checkRoomWithDuration env first.2 in
  exists calls1 calls2,
    trace first.2 = trace w ++ calls1 /\
    trace second.2 = trace w ++ calls1 ++ calls2 /\
    roomsWithDuration second.2 = roomsWithDuration w /\
    sweep_trace (map_to_list (roomsWithDuration w)) calls1 /\
    sweep_trace (map_to_list (roomsWithDuration w)) calls2 /\
    (forall i r,
       roomsWithDuration w !! i = Some r ->
       (forall now, In now (clock_readings (calls1 ++ calls2)) -> now > valid r) ->
       In i (ended_ids calls1) /\ In i (ended_ids calls2)).
Proof.
  intros first second. subst second first.
  destruct (checkRoomWithDuration_run w) as (x1 & calls1 & -> & H1).
  cbn [snd].
  match goal with |- context [checkRoomWithDuration env ?w1] =>
    destruct (checkRoomWithDuration_run w1) as (x2 & calls2 & -> & H2) end.
  simpl in *. exists calls1, calls2.
  split; [reflexivity|]. split; [symmetry; apply app_assoc|]. split; [reflexivity|].
  split; [exact H1|]. split; [exact H2|].
  intros i r Hi Hall.
  assert (In (i, r) (map_to_list (roomsWithDuration w))) as Hin
    by (apply list_elem_of_In, elem_of_map_to_list; exact Hi).
  assert (forall calls now, In (time_Now_ now) calls -> In now (clock_readings calls))
    as Hread.
  { intros calls now Hnow. apply in_flat_map. exists (time_Now_ now).
    split; [exact Hnow | left; reflexivity]. }
  split.
  - apply (sweep_trace_expired _ _ H1 i r Hin). intros now Hnow. apply Hall.
    unfold clock_readings. rewrite flat_map_app. apply in_or_app. left.
    apply Hread. exact Hnow.
  - apply (sweep_trace_expired _ _ H2 i r Hin). intros now Hnow. apply Hall.
    unfold clock_readings. rewrite flat_map_app. apply in_or_app. right.
    apply Hread. exact Hnow.
Qed.

End Coverage.

(** * The subscriber of scheduler.go

    [subscribeRedisRoomDurationChecker] and [increaseRoomDuration] call three
    things that are declared outside the two files: the deserializer of the
    event, and the two operations of [config.AppCnf] on the duration map,
    [IncreaseRoomDuration] and [DeleteRoomFromRoomWithDurationMap].  They are
    taken as they come: any function of the event text, any functions of the
    map. *)

Section Subscriber.

Context (env : Env).

Variable json_Unmarshal_DurationCheckerReq : string -> result RedisRoomDurationCheckerReq.

Variable config_IncreaseRoomDuration :
  string -> Z -> gmap string RoomWithDuration -> Z * gmap string RoomWithDuration.

Variable config_DeleteRoomFromRoomWithDurationMap :
  string -> gmap string RoomWithDuration -> gmap string RoomWithDuration.

Local Abbreviation M := (M (World env)).

(** [config.AppCnf.IncreaseRoomDuration(roomId, duration)] *)
Definition AppCnf_IncreaseRoomDuration (roomId : string) (duration : Z) : M Z := fun w =>
  let (d, m) := config_IncreaseRoomDuration roomId duration (roomsWithDuration w) in
  (d, mkWorld env (ext w) (rds w) m (trace w)).

(** [config.AppCnf.DeleteRoomFromRoomWithDurationMap(roomId)] *)
Definition AppCnf_DeleteRoomFromRoomWithDurationMap (roomId : string) : M unit := fun w =>
  (tt, mkWorld env (ext w) (rds w)
         (config_DeleteRoomFromRoomWithDurationMap roomId (roomsWithDuration w)) (trace w)).

(** Line 109: [rm.Features.RoomDuration = newDuration]. *)
Definition RoomMetadata_set_RoomDuration (d : Z) (meta : RoomMetadata) : RoomMetadata :=
  let f := rm_Features meta in
  {| rm_RoomTitle := rm_RoomTitle meta; rm_WelcomeMessage := rm_WelcomeMessage meta;
     rm_IsBreakoutRoom := rm_IsBreakoutRoom meta;
     rm_Features :=
       {| ft_AllowRecording := ft_AllowRecording f;
          ft_AllowRTMP := ft_AllowRTMP f;
          ft_RoomDuration := d;
          ft_BreakoutRoomFeatures := ft_BreakoutRoomFeatures f;
          ft_WaitingRoomFeatures := ft_WaitingRoomFeatures f |} |}.

(** [increaseRoomDuration], lines 91-118.  Every failure returns silently.
    The [NewRoomService()] of line 99 is another handle on the same directory. *)
Definition increaseRoomDuration (roomId : string) (duration : Z) : M unit :=
  newDuration <- AppCnf_IncreaseRoomDuration roomId duration ;;
  if newDuration =? 0 then ret tt
  else
    loaded <- LoadRoomInfoFromRedis env roomId ;;
    match loaded with
    | Err _ => ret tt
    | Ok lr =>
        match json_Unmarshal_RoomMetadata env (ri_Metadata lr) with
        | Err _ => ret tt
        | Ok rm =>
            let rm := RoomMetadata_set_RoomDuration newDuration rm in
            match json_Marshal_RoomMetadata env rm with
            | Err _ => ret tt
            | Ok marshal =>
                UpdateRoomMetadata env roomId marshal ;;;
                ret tt
            end
        end
    end.

(** One turn of the loop of lines 61-72, on the payload of one message. *)
Definition subscribeRedisRoomDurationChecker_msg (payload : string) : M unit :=
  match json_Unmarshal_DurationCheckerReq payload with
  | Err _ => ret tt
  | Ok req =>
      if String.eqb (dc_Type req) "delete" then
        AppCnf_DeleteRoomFromRoomWithDurationMap (dc_RoomId req)
      else if String.eqb (dc_Type req) "increaseDuration" then
        increaseRoomDuration (dc_RoomId req) (dc_Duration req)
      else ret tt
  end.

(** The loop of lines 61-72, over the payloads the channel delivers. *)
Fixpoint subscribeRedisRoomDurationChecker_range (ch : list string) : M unit :=
  match ch with
  | [] => ret tt
  | payload :: rest =>
      subscribeRedisRoomDurationChecker_msg payload ;;;
      subscribeRedisRoomDurationChecker_range rest
  end.

(** [subscribeRedisRoomDurationChecker], lines 52-73: [received] is what
    [pubsub.Receive] answered, [ch] what the channel delivers until it is
    closed.  The answer [Some e] stands for [log.Fatalln(e)], which ends the
    process; nil for the return when the channel is closed. *)
Definition subscribeRedisRoomDurationChecker (received : option error) (ch : list string)
  : M (option error) :=
  match received with
  | Some e => ret (Some e)
  | None =>
      subscribeRedisRoomDurationChecker_range ch ;;;
      ret None
  end.

(** *** increaseRoomDuration *)

(** Every way [increaseRoomDuration] can go. *)
Lemma increaseRoomDuration_run roomId duration w :
  let out := increaseRoomDuration roomId duration w in
  let answer := config_IncreaseRoomDuration roomId duration (roomsWithDuration w) in
  rds out.2 = rds w /\
  roomsWithDuration out.2 = answer.2 /\
  if answer.1 =? 0 then trace out.2 = trace w /\ ext out.2 = ext w
  else
    exists loaded,
      (roomService_LoadRoomInfoFromRedis env roomId (ext w)).1 = loaded /\
      match loaded with
      | Err _ => trace out.2 = trace w ++ [LoadRoomInfoFromRedis_ roomId loaded]
      | Ok lr =>
          match json_Unmarshal_RoomMetadata env (ri_Metadata lr) with
          | Err _ => trace out.2 = trace w ++ [LoadRoomInfoFromRedis_ roomId loaded]
          | Ok rm =>
              match json_Marshal_RoomMetadata env
                      (RoomMetadata_set_RoomDuration answer.1 rm) with
              | Err _ => trace out.2 = trace w ++ [LoadRoomInfoFromRedis_ roomId loaded]
              | Ok marshal =>
                  exists err,
                    trace out.2 =
                      trace w ++ [LoadRoomInfoFromRedis_ roomId loaded;
                                  UpdateRoomMetadata_ roomId marshal err]
              end
          end
      end.
Proof.
  intros out answer. subst out answer.
  unfold increaseRoomDuration, bind, AppCnf_IncreaseRoomDuration.
  destruct (config_IncreaseRoomDuration roomId duration (roomsWithDuration w)) as [d m].
  simpl. destruct (d =? 0); [repeat split|].
  match goal with |- context [LoadRoomInfoFromRedis env roomId ?w1] =>
    destruct (LoadRoomInfoFromRedis_run env roomId w1) as (loaded & x0 & Hload & ->) end.
  simpl in Hload. rewrite Hload. simpl.
  destruct loaded as [lr|e]; [|repeat split; eexists; split; reflexivity].
  destruct (json_Unmarshal_RoomMetadata env (ri_Metadata lr)) as [rm|e] eqn:Hrm;
    [|repeat split; exists (Ok lr); rewrite Hrm; split; reflexivity].
  destruct (json_Marshal_RoomMetadata env (RoomMetadata_set_RoomDuration d rm))
    as [marshal|e] eqn:Hm;
    [|repeat split; exists (Ok lr); rewrite Hrm, Hm; split; reflexivity].
  match goal with |- context [UpdateRoomMetadata env roomId marshal ?w1] =>
    destruct (UpdateRoomMetadata_run env roomId marshal w1) as (err & x1 & ->) end.
  simpl. repeat split. exists (Ok lr). rewrite Hrm, Hm. split; [reflexivity|].
  exists err. rewrite <- app_assoc. reflexivity.
Qed.

(** X18: when [config.AppCnf.IncreaseRoomDuration] answers 0 (the room
    is not tracked by this process), [increaseRoomDuration] stops there: the
    directory is neither read nor written and no call leaves the process. *)
Theorem increaseRoomDuration_untracked roomId duration w :
  let out := increaseRoomDuration roomId duration w in
  (config_IncreaseRoomDuration roomId duration (roomsWithDuration w)).1 = 0 ->
  trace out.2 = trace w /\ ext out.2 = ext w /\ rds out.2 = rds w /\
  roomsWithDuration out.2
    = (config_IncreaseRoomDuration roomId duration (roomsWithDuration w)).2.
Proof.
  intros out Hzero.
  destruct (increaseRoomDuration_run roomId duration w) as (Hrds & Hmap & Hrun).
  fold out in Hrds, Hmap, Hrun. rewrite Hzero in Hrun. simpl in Hrun.
  destruct Hrun. auto.
Qed.

(** X19: when [config.AppCnf.IncreaseRoomDuration] answers a duration
    other than 0, [increaseRoomDuration] reads the metadata of that room from
    the directory once and, if it loads, deserializes and serializes, writes
    it back with [roomDuration] set to the answered duration and every other
    field as loaded; a failure of any step ends the function without a write
    and without a report.  It issues no Redis command and leaves the store as
    it was. *)
Theorem increaseRoomDuration_tracked roomId duration w calls i s :
  let out := increaseRoomDuration roomId duration w in
  let newDuration :=
    (config_IncreaseRoomDuration roomId duration (roomsWithDuration w)).1 in
  trace out.2 = trace w ++ calls ->
  In (i, s) (updates calls) ->
  newDuration <> 0 /\ i = roomId /\ updates calls = [(roomId, s)] /\
  loads calls = [roomId] /\ rds out.2 = rds w /\
  exists lr rm,
    head calls = Some (LoadRoomInfoFromRedis_ roomId (Ok lr)) /\
    json_Unmarshal_RoomMetadata env (ri_Metadata lr) = Ok rm /\
    json_Marshal_RoomMetadata env (RoomMetadata_set_RoomDuration newDuration rm) = Ok s /\
    let written := RoomMetadata_set_RoomDuration newDuration rm in
    ft_RoomDuration (rm_Features written) = newDuration /\
    rm_RoomTitle written = rm_RoomTitle rm /\
    rm_WelcomeMessage written = rm_WelcomeMessage rm /\
    rm_IsBreakoutRoom written = rm_IsBreakoutRoom rm /\
    ft_AllowRecording (rm_Features written) = ft_AllowRecording (rm_Features rm) /\
    ft_AllowRTMP (rm_Features written) = ft_AllowRTMP (rm_Features rm) /\
    ft_BreakoutRoomFeatures (rm_Features written)
      = ft_BreakoutRoomFeatures (rm_Features rm) /\
    ft_WaitingRoomFeatures (rm_Features written)
      = ft_WaitingRoomFeatures (rm_Features rm).
Proof.
  intros out newDuration Htrace Hin.
  destruct (increaseRoomDuration_run roomId duration w) as (Hrds & _ & Hrun).
  fold out newDuration in Hrds, Hrun.
  destruct (Z.eqb_spec newDuration 0) as [Hz|Hnz].
  - destruct Hrun as [Htrace' _]. rewrite <- (app_nil_r (trace w)) in Htrace'.
    rewrite Htrace' in Htrace. apply app_inv_head in Htrace. subst calls. contradiction.
  - destruct Hrun as (loaded & _ & Hrun).
    destruct loaded as [lr|e].
    + destruct (json_Unmarshal_RoomMetadata env (ri_Metadata lr)) as [rm|e] eqn:Hrm.
      * destruct (json_Marshal_RoomMetadata env
                    (RoomMetadata_set_RoomDuration newDuration rm)) as [marshal|e] eqn:Hm.
        -- destruct Hrun as (err & Htrace').
           rewrite Htrace' in Htrace. apply app_inv_head in Htrace. subst calls.
           simpl in Hin. destruct Hin as [[= <- <-]|[]].
           repeat split; try assumption. exists lr, rm. repeat split; assumption.
        -- rewrite Hrun in Htrace. apply app_inv_head in Htrace. subst calls.
           contradiction.
      * rewrite Hrun in Htrace. apply app_inv_head in Htrace. subst calls. contradiction.
    + rewrite Hrun in Htrace. apply app_inv_head in Htrace. subst calls. contradiction.
Qed.

(** *** The loop of the subscriber *)

(** A payload the loop passes over: it does not deserialize, or its type is
    neither [delete] nor [increaseDuration]. *)
Definition passed_over (payload : string) : Prop :=
  match json_Unmarshal_DurationCheckerReq payload with
  | Err _ => True
  | Ok req => dc_Type req <> "delete" /\ dc_Type req <> "increaseDuration"
  end.

Lemma subscribeRedisRoomDurationChecker_range_app ch1 ch2 w :
  subscribeRedisRoomDurationChecker_range (ch1 ++ ch2) w =
  subscribeRedisRoomDurationChecker_range ch2
    (subscribeRedisRoomDurationChecker_range ch1 w).2.
Proof.
  revert w. induction ch1 as [|payload rest IH]; intros w; simpl.
  - reflexivity.
  - unfold bind.
    destruct (subscribeRedisRoomDurationChecker_msg payload w) as [[] w1]. apply IH.
Qed.

(** X20: the subscriber handles the messages one after the other in the
    order of delivery (the world after [ch1 ++ ch2] is the world after [ch2]
    from the world after [ch1]), and a message that does not deserialize, or
    whose type is neither [delete] nor [increaseDuration], changes nothing
    and stops nothing: a delivery made of such messages only leaves the world
    as it was.  When [Receive] fails no message is handled. *)
Theorem subscribeRedisRoomDurationChecker_passes_over ch w :
  (forall ch1 ch2 w0,
     (subscribeRedisRoomDurationChecker None (ch1 ++ ch2) w0).2 =
     (subscribeRedisRoomDurationChecker None ch2
        (subscribeRedisRoomDurationChecker None ch1 w0).2).2) /\
  (forall e, subscribeRedisRoomDurationChecker (Some e) ch w = (Some e, w)) /\
  (Forall passed_over ch ->
   subscribeRedisRoomDurationChecker None ch w = (None, w)).
Proof.
  split; [|split].
  - intros ch1 ch2 w0. unfold subscribeRedisRoomDurationChecker, bind, ret.
    rewrite subscribeRedisRoomDurationChecker_range_app.
    destruct (subscribeRedisRoomDurationChecker_range ch1 w0) as [[] w1]. simpl.
    destruct (subscribeRedisRoomDurationChecker_range ch2 w1) as [[] w2]. reflexivity.
  - reflexivity.
  - intros Hall. unfold subscribeRedisRoomDurationChecker, bind.
    assert (subscribeRedisRoomDurationChecker_range ch w = (tt, w)) as ->; [|reflexivity].
    induction Hall as [|payload rest Hp _ IH]; simpl; [reflexivity|].
    unfold bind.
    assert (subscribeRedisRoomDurationChecker_msg payload w = (tt, w)) as ->; [|exact IH].
    unfold subscribeRedisRoomDurationChecker_msg, passed_over in *.
    destruct (json_Unmarshal_DurationCheckerReq payload) as [req|e]; [|reflexivity].
    destruct Hp as [Hd Hi].
    destruct (String.eqb_spec (dc_Type req) "delete"); [contradiction|].
    destruct (String.eqb_spec (dc_Type req) "increaseDuration"); [contradiction|].
    reflexivity.
Qed.

(** X21: a [delete] message makes no call and leaves the store alone;
    it hands the room to [DeleteRoomFromRoomWithDurationMap], and when that
    removes the entry of the room, the sweep that follows does not ask the
    directory to end that room, whatever the clock says. *)
Theorem delete_message_then_sweep payload req w calls :
  let handled := subscribeRedisRoomDurationChecker_msg payload w in
  let swept := checkRoomWithDuration env handled.2 in
  json_Unmarshal_DurationCheckerReq payload = Ok req ->
  dc_Type req = "delete" ->
  (forall m, config_DeleteRoomFromRoomWithDurationMap (dc_RoomId req) m
             !! dc_RoomId req = None) ->
  trace swept.2 = trace handled.2 ++ calls ->
  trace handled.2 = trace w /\ rds handled.2 = rds w /\ ext handled.2 = ext w /\
  roomsWithDuration handled.2
    = config_DeleteRoomFromRoomWithDurationMap (dc_RoomId req) (roomsWithDuration w) /\
  ~ In (dc_RoomId req) (ended_ids calls).
Proof.
  intros handled swept Hreq Htype Hdel Htrace.
  assert (handled = AppCnf_DeleteRoomFromRoomWithDurationMap (dc_RoomId req) w) as Hh.
  { unfold handled, subscribeRedisRoomDurationChecker_msg. rewrite Hreq, Htype.
    reflexivity. }
  repeat split; try (rewrite Hh; reflexivity).
  intros Hin.
  destruct (checkRoomWithDuration_run env handled.2) as (x & calls' & Hrun & Hsweep).
  fold swept in Hrun. rewrite Hrun in Htrace. simpl in Htrace.
  apply app_inv_head in Htrace. subst calls'.
  destruct (sweep_trace_ended _ _ Hsweep _ Hin) as (r & now & Hr & _).
  apply list_elem_of_In, elem_of_map_to_list in Hr.
  rewrite Hh in Hr. simpl in Hr. rewrite Hdel in Hr. discriminate.
Qed.

(** X22: from the manager to the scheduler.  The only message
    [IncreaseBreakoutRoomDuration] publishes goes on the channel the
    subscriber listens on, and when the subscriber reads back the event that
    was serialized, it handles that message as [increaseRoomDuration] for the
    id of the breakout room and the requested duration: the duration map is
    what [config.AppCnf.IncreaseRoomDuration] makes of these two. *)
Theorem IncreaseBreakoutRoomDuration_event_handled r w calls channel payload w' :
  let out := IncreaseBreakoutRoomDuration env r w in
  trace out.2 = trace w ++ calls ->
  In (channel, payload) (published calls) ->
  json_Unmarshal_DurationCheckerReq payload = Ok (IncreaseBreakoutRoomDuration_event r) ->
  channel = "plug-n-meet-room-duration-checker" /\
  json_Marshal_DurationCheckerReq env (IncreaseBreakoutRoomDuration_event r) = Ok payload /\
  subscribeRedisRoomDurationChecker_msg payload w'
    = increaseRoomDuration (ir_BreakoutRoomId r) (ir_Duration r) w' /\
  roomsWithDuration (subscribeRedisRoomDurationChecker_msg payload w').2
    = (config_IncreaseRoomDuration (ir_BreakoutRoomId r) (ir_Duration r)
         (roomsWithDuration w')).2.
Proof.
  intros out Htrace Hin Hback.
  assert (channel = "plug-n-meet-room-duration-checker" /\
          json_Marshal_DurationCheckerReq env (IncreaseBreakoutRoomDuration_event r)
            = Ok payload) as [Hchan Hmar].
  { destruct (IncreaseBreakoutRoomDuration_run env r w) as (_ & o & Hrun).
    fold out in Hrun.
    destruct (fetchBreakoutRoom env (ir_RoomId r) (ir_BreakoutRoomId r) w).1 as [room|e].
    - destruct Hrun as (_ & Hrun).
      destruct (json_Marshal_DurationCheckerReq env (IncreaseBreakoutRoomDuration_event r))
        as [reqMar|e].
      + destruct Hrun as (p & Hrun).
        destruct (json_Marshal_BreakoutRoom env _) as [marshal|e].
        * destruct Hrun as (_ & Htrace').
          rewrite Htrace' in Htrace. apply app_inv_head in Htrace. subst calls.
          simpl in Hin. destruct Hin as [[= <- <-]|[]]. split; reflexivity.
        * destruct Hrun as (_ & _ & Htrace').
          rewrite Htrace' in Htrace. apply app_inv_head in Htrace. subst calls.
          simpl in Hin. destruct Hin as [[= <- <-]|[]]. split; reflexivity.
      + destruct Hrun as (_ & _ & Htrace').
        rewrite Htrace' in Htrace. apply app_inv_head in Htrace. subst calls.
        contradiction.
    - destruct Hrun as (_ & _ & Htrace').
      rewrite Htrace' in Htrace. apply app_inv_head in Htrace. subst calls.
      contradiction. }
  split; [exact Hchan|]. split; [exact Hmar|].
  assert (subscribeRedisRoomDurationChecker_msg payload w'
          = increaseRoomDuration (ir_BreakoutRoomId r) (ir_Duration r) w') as Hmsg.
  { unfold subscribeRedisRoomDurationChecker_msg. rewrite Hback. reflexivity. }
  split; [exact Hmsg|]. rewrite Hmsg.
  apply (increaseRoomDuration_run (ir_BreakoutRoomId r) (ir_Duration r) w').
Qed.

End Subscriber.

(** ** The scenarios, continued *)

Module DemoScheduler.

Import Demo.

(** The environment of [Demo] with a Redis that refuses every write of a
    hash field and answers everything else. *)
Definition env_readonly : Env :=
  {| Ext := outside;
     json_Unmarshal_RoomMetadata := json_Unmarshal_RoomMetadata env;
     json_Marshal_RoomMetadata := json_Marshal_RoomMetadata env;
     json_Unmarshal_BreakoutRoom := json_Unmarshal_BreakoutRoom env;
     json_Marshal_BreakoutRoom := json_Marshal_BreakoutRoom env;
     json_Unmarshal_UserMetadata := json_Unmarshal_UserMetadata env;
     json_Marshal_DurationCheckerReq := json_Marshal_DurationCheckerReq env;
     json_Marshal_WebsocketRedisMsg := json_Marshal_WebsocketRedisMsg env;
     roomService_LoadRoomInfoFromRedis := roomService_LoadRoomInfoFromRedis env;
     roomService_UpdateRoomMetadata := roomService_UpdateRoomMetadata env;
     roomService_EndRoom := roomService_EndRoom env;
     roomService_LoadParticipantInfoFromRedis :=
       roomService_LoadParticipantInfoFromRedis env;
     roomAuthModel_CreateRoom := roomAuthModel_CreateRoom env;
     authTokenModel_DoGenerateToken := authTokenModel_DoGenerateToken env;
     time_Now_Unix := time_Now_Unix env;
     redis_fault := fun c x =>
       (match c with
        | HSet _ _ => Some (errors_New "READONLY You can't write against a read only replica.")
        | _ => None
        end, x)
  |}.

Definition deleteEvent : RedisRoomDurationCheckerReq :=
  {| dc_Type := "delete"; dc_RoomId := "room1:r1"; dc_Duration := 0 |}.

Definition increaseEvent : RedisRoomDurationCheckerReq :=
  {| dc_Type := "increaseDuration"; dc_RoomId := "room1:r1"; dc_Duration := 45 |}.

Definition pingEvent : RedisRoomDurationCheckerReq :=
  {| dc_Type := "ping"; dc_RoomId := "room1:r1"; dc_Duration := 0 |}.

(** The reader of the events of the scenario. *)
Definition read_checker : string -> result RedisRoomDurationCheckerReq :=
  read_from write_checker [deleteEvent; increaseEvent; pingEvent].

(** Modelled from the spec: [config.AppCnf.IncreaseRoomDuration], which
    "recomputes the new duration in the local map" when the map holds an
    entry for the room, the deadline then counting the new duration "from
    that room's original start time" (sections 4.2 and 8), and which answers
    0 when the map holds none (line 93 of scheduler.go). *)
Definition IncreaseRoomDuration (roomId : string) (duration : Z)
  (m : gmap string RoomWithDuration) : Z * gmap string RoomWithDuration :=
  match m !! roomId with
  | Some r =>
      (duration, <[roomId := {| rd_Duration := duration; rd_StartedAt := rd_StartedAt r |}]> m)
  | None => (0, m)
  end.

(** Modelled from the spec: [config.AppCnf.DeleteRoomFromRoomWithDurationMap],
    which "removes the room from this process's local tracking map"
    (section 4.2). *)
Definition DeleteRoomFromRoomWithDurationMap (roomId : string)
  (m : gmap string RoomWithDuration) : gmap string RoomWithDuration :=
  delete roomId m.

(** The parent [room1], tracked since 1000 for ninety minutes. *)
Definition tracked_parent : gmap string RoomWithDuration :=
  {[ "room1" := {| rd_Duration := 90; rd_StartedAt := 1000 |} ]}.

Definition missingReq : IncreaseBreakoutRoomDurationReq :=
  {| ir_RoomId := "room1"; ir_BreakoutRoomId := "room1:r9"; ir_Duration := 45 |}.

Definition joinReq (userId : string) : JoinBreakoutRoomReq :=
  {| jr_RoomId := "room1"; jr_BreakoutRoomId := "room1:r1"; jr_UserId := userId |}.

Definition endReq : EndBreakoutRoomReq :=
  {| er_RoomId := "room1"; er_BreakoutRoomId := "room1:r1" |}.

End DemoScheduler.

Section Scenarios2.

Import Demo DemoScheduler.

(** Scenario: [u1], invited to [room1:r1], joins. *)
Lemma JoinBreakoutRoom_token_request_witness :
  let w := world x0 stored ∅ in
  let out := JoinBreakoutRoom env (joinReq "u1") w in
  let token := "token for u1 in room1:r1" in
  out.1 = Ok token /\
  exists room p meta,
    (fetchBreakoutRoom env "room1" "room1:r1" w).1 = Ok room /\
    In "u1" (map bu_Id (br_Users room)) /\
    json_Unmarshal_UserMetadata env (pi_Metadata p) = Ok meta /\
    trace out.2 =
      trace w ++
        [Redis (HGet "pnm:breakoutRoom:room1" "room1:r1") None;
         LoadParticipantInfoFromRedis_ "room1" "u1" (Ok p);
         DoGenerateToken_
           {| gt_RoomId := "room1:r1";
              gt_UserInfo :=
                {| ui_UserId := "u1"; ui_Name := pi_Name p;
                   ui_IsAdmin := um_IsAdmin meta; ui_UserMetadata := meta |} |}
           (Ok token)] /\
    rds out.2 = rds w.
Proof.
  intros w out token. split; [vm_compute; reflexivity|].
  apply (JoinBreakoutRoom_token_request env (joinReq "u1") w token).
  vm_compute. reflexivity.
Defined.

Lemma JoinBreakoutRoom_invited_errors_witness :
  let w := world x0 stored ∅ in
  let r := joinReq "u2" in
  let out := JoinBreakoutRoom env r w in
  exists calls loaded,
    trace out.2 = trace w ++ calls /\
    In (LoadParticipantInfoFromRedis_ "room1" "u2" loaded) calls /\
    match loaded with
    | Err e => out.1 = Err e /\ tokens calls = []
    | Ok p =>
        match json_Unmarshal_UserMetadata env (pi_Metadata p) with
        | Err e => out.1 = Err e /\ tokens calls = []
        | Ok meta =>
            tokens calls = [JoinBreakoutRoom_req r p meta] /\
            last calls = Some (DoGenerateToken_ (JoinBreakoutRoom_req r p meta) out.1)
        end
    end.
Proof.
  intros w r out.
  apply (JoinBreakoutRoom_invited_errors env r w (r1 30)).
  - vm_compute. reflexivity.
  - simpl. right. left. reflexivity.
Defined.

(** Scenario: the duration of [room1:r9], which does not exist, is increased. *)
Lemma IncreaseBreakoutRoomDuration_unfetched_witness :
  let w := world x0 stored ∅ in
  let out := IncreaseBreakoutRoomDuration env missingReq w in
  (exists e', out.1 = Some e') /\ published (trace out.2) = [] /\
  redis_writes (trace out.2) = [] /\ rds out.2 = rds w /\
  ((fetchBreakoutRoom env "room1" "room1:r9" w).1 = Err redis_Nil ->
   out.1 = Some redis_Nil).
Proof.
  intros w out.
  apply (IncreaseBreakoutRoomDuration_unfetched env missingReq w redis_Nil (trace out.2)).
  - left. vm_compute. reflexivity.
  - reflexivity.
Defined.

(** Scenario: the duration of [room1:r1] is increased while Redis refuses
    writes. *)
Lemma IncreaseBreakoutRoomDuration_error_keeps_store_witness :
  let w := mkWorld env_readonly x0 stored ∅ [] in
  let out := IncreaseBreakoutRoomDuration env_readonly increaseReq w in
  let e := errors_New "READONLY You can't write against a read only replica." in
  out.1 = Some e /\
  In (Redis (HSet "pnm:breakoutRoom:room1" [("room1:r1", write_room (r1 45))]) (Some e))
    (trace out.2) /\
  rds out.2 = rds w /\
  (forall k v o, In (Redis (HSet k v) o) (trace out.2) ->
     o = Some e /\
     exists reqMar,
       json_Marshal_DurationCheckerReq env_readonly
         (IncreaseBreakoutRoomDuration_event increaseReq) = Ok reqMar /\
       published (trace out.2) = [("plug-n-meet-room-duration-checker", reqMar)]).
Proof.
  intros w out e. split; [vm_compute; reflexivity|].
  split; [vm_compute; right; right; left; reflexivity|].
  apply (IncreaseBreakoutRoomDuration_error_keeps_store env_readonly increaseReq w e
           (trace out.2)).
  - reflexivity.
  - vm_compute. reflexivity.
Defined.

(** Scenario: the duration of [room1:r1] is set to 45 and the record is
    fetched again. *)
Lemma IncreaseBreakoutRoomDuration_then_fetch_witness :
  let w := world x0 stored ∅ in
  let out := IncreaseBreakoutRoomDuration env increaseReq w in
  let again := fetchBreakoutRoom env "room1" "room1:r1" out.2 in
  exists room',
    again.1 = Ok room' /\
    br_Duration room' = 45 /\
    br_Id room' = br_Id (r1 30) /\ br_Title room' = br_Title (r1 30) /\
    br_Users room' = br_Users (r1 30).
Proof.
  intros w out again.
  apply (IncreaseBreakoutRoomDuration_then_fetch env increaseReq w (r1 30)
           (write_room (r1 45))).
  - vm_compute. reflexivity.
  - vm_compute. reflexivity.
  - vm_compute. reflexivity.
  - intros H. vm_compute in H. discriminate H.
  - vm_compute. reflexivity.
  - vm_compute. reflexivity.
Defined.

(** Scenario: [room1:r1] is ended, then [u1], who was invited, asks to join. *)
Lemma EndBreakoutRoom_then_Join_witness :
  let w := world x0 stored ∅ in
  let ended := EndBreakoutRoom env endReq w in
  let out := JoinBreakoutRoom env (joinReq "u1") ended.2 in
  ended.1 = None /\
  exists e,
    out.1 = Err e /\
    trace out.2
      = trace ended.2 ++ [Redis (HGet "pnm:breakoutRoom:room1" "room1:r1") (Some e)].
Proof.
  intros w ended out.
  apply (EndBreakoutRoom_then_Join env endReq w "u1").
  vm_compute. reflexivity.
Defined.

(** Scenario of section 8: the one room of [createReq]. *)
Lemma CreateBreakoutRooms_child_requests_witness :
  let w := world x0 ∅ ∅ in
  let out := CreateBreakoutRooms env createReq w in
  create_reqs (trace out.2) =
    [{| rc_RoomId := "room1:r1";
        rc_RoomMetadata :=
          {| rm_RoomTitle := "Team A"; rm_WelcomeMessage := "welcome";
             rm_IsBreakoutRoom := true;
             rm_Features :=
               {| ft_AllowRecording := false; ft_AllowRTMP := false;
                  ft_RoomDuration := 30;
                  ft_BreakoutRoomFeatures := {| bf_IsAllow := false; bf_IsActive := false |};
                  ft_WaitingRoomFeatures := {| wf_IsActive := false |} |} |} |}].
Proof.
  intros w out.
  pose proof (CreateBreakoutRooms_child_requests env createReq w (trace out.2) eq_refl)
    as H.
  vm_compute in H. vm_compute. exact H.
Defined.

Lemma CreateBreakoutRooms_store_witness :
  let w := world x0 stored ∅ in
  let out := CreateBreakoutRooms env createTwoReq w in
  let key := "pnm:breakoutRoom:room1" in
  roomsWithDuration out.2 = roomsWithDuration w /\
  (forall key', key' <> key -> rds out.2 !! key' = rds w !! key') /\
  (forall field,
     hget key field (rds out.2) = hget key field (rds w) \/
     exists room v,
       In room (cr_Rooms createTwoReq) /\ field = childId createTwoReq room /\
       json_Marshal_BreakoutRoom env (BreakoutRoom_set_Duration 30 room) = Ok v /\
       hget key field (rds out.2) = Some v) /\
  (forall c, In c (redis_writes (trace out.2)) ->
     exists room v,
       In room (cr_Rooms createTwoReq) /\
       json_Marshal_BreakoutRoom env (BreakoutRoom_set_Duration 30 room) = Ok v /\
       c = HSet key [(childId createTwoReq room, v)]) /\
  (forall field, is_Some (hget key field (rds w)) -> is_Some (hget key field (rds out.2))).
Proof.
  intros w out key.
  apply (CreateBreakoutRooms_store env createTwoReq w (trace out.2)).
  reflexivity.
Defined.

Lemma CreateBreakoutRooms_persisted_witness :
  let w := world x0 ∅ ∅ in
  let out := CreateBreakoutRooms env createReq w in
  let key := "pnm:breakoutRoom:room1" in
  exists room v,
    In room (cr_Rooms createReq) /\ key = key /\
    [("room1:r1", write_room (r1 30))] = [(childId createReq room, v)] /\
    json_Marshal_BreakoutRoom env (BreakoutRoom_set_Duration 30 room) = Ok v /\
    br_Duration (BreakoutRoom_set_Duration 30 room) = 30 /\
    hget key (childId createReq room) (rds out.2) = Some v.
Proof.
  intros w out key.
  apply (CreateBreakoutRooms_persisted env createReq w (trace out.2) key
           [("room1:r1", write_room (r1 30))]).
  - simpl. apply NoDup_singleton.
  - reflexivity.
  - vm_compute. right. right. left. reflexivity.
Defined.

Lemma CreateBreakoutRooms_invitations_witness :
  let w := world x0 ∅ ∅ in
  let out := CreateBreakoutRooms env createReq w in
  length (published (trace out.2)) = 2%nat /\
  forall cm, In cm (published (trace out.2)) ->
    exists room u m,
      In room (cr_Rooms createReq) /\ In u (br_Users room) /\
      json_Marshal_WebsocketRedisMsg env
        (broadcastNotification_msg "room1" "user42" (bu_Id u)
           (childId createReq room) "SYSTEM" "JOIN_BREAKOUT_ROOM" false) = Ok m /\
      cm = ("plug-n-meet-websocket", m).
Proof.
  intros w out. split; [vm_compute; reflexivity|].
  apply (proj1 (CreateBreakoutRooms_invitations env createReq w (trace out.2) eq_refl)).
Defined.

(** Scenario: an [increaseDuration] event for a room this process does not
    track. *)
Lemma increaseRoomDuration_untracked_witness :
  let w := world x0 ∅ tracked_parent in
  let out := increaseRoomDuration env IncreaseRoomDuration "room1:r1" 45 w in
  trace out.2 = trace w /\ ext out.2 = ext w /\ rds out.2 = rds w /\
  roomsWithDuration out.2 = (IncreaseRoomDuration "room1:r1" 45 tracked_parent).2.
Proof.
  intros w out.
  apply (increaseRoomDuration_untracked env IncreaseRoomDuration "room1:r1" 45 w).
  vm_compute. reflexivity.
Defined.

(** Scenario: an [increaseDuration] event for [room1], tracked here. *)
Lemma increaseRoomDuration_tracked_witness :
  let w := world x0 ∅ tracked_parent in
  let out := increaseRoomDuration env IncreaseRoomDuration "room1" 120 w in
  let s := write_meta (RoomMetadata_set_RoomDuration 120 (parentMeta "hello")) in
  updates (trace out.2) = [("room1", s)] /\ loads (trace out.2) = ["room1"] /\
  rds out.2 = rds w.
Proof.
  intros w out s.
  destruct (increaseRoomDuration_tracked env IncreaseRoomDuration "room1" 120 w
              (trace out.2) "room1" s) as (_ & _ & Hupdates & Hloads & Hrds & _).
  - reflexivity.
  - vm_compute. left. reflexivity.
  - repeat split; assumption.
Defined.

(** Scenario: the subscriber receives [delete] for [room1:r1]; the sweep one
    minute and one second after the start of the room leaves it alone. *)
Lemma delete_message_then_sweep_witness :
  let w := world x_late ∅ tracked in
  let handled :=
    subscribeRedisRoomDurationChecker_msg env read_checker IncreaseRoomDuration
      DeleteRoomFromRoomWithDurationMap (write_checker deleteEvent) w in
  let swept := checkRoomWithDuration env handled.2 in
  trace handled.2 = trace w /\ rds handled.2 = rds w /\ ext handled.2 = ext w /\
  roomsWithDuration handled.2 = DeleteRoomFromRoomWithDurationMap "room1:r1" tracked /\
  ~ In "room1:r1" (ended_ids (trace swept.2)).
Proof.
  intros w handled swept.
  apply (delete_message_then_sweep env read_checker IncreaseRoomDuration
           DeleteRoomFromRoomWithDurationMap (write_checker deleteEvent) deleteEvent w
           (trace swept.2)).
  - vm_compute. reflexivity.
  - reflexivity.
  - intros m. apply lookup_delete_eq.
  - reflexivity.
Defined.

(** Scenario of section 8: the event of
    [IncreaseBreakoutRoomDuration(room1, room1:r1, 45)] reaches a process that
    tracks [room1:r1]. *)
Lemma IncreaseBreakoutRoomDuration_event_handled_witness :
  let w := world x0 stored ∅ in
  let w' := world x0 ∅ tracked in
  let out := IncreaseBreakoutRoomDuration env increaseReq w in
  let payload := write_checker increaseEvent in
  let handled :=
    subscribeRedisRoomDurationChecker_msg env read_checker IncreaseRoomDuration
      DeleteRoomFromRoomWithDurationMap payload w' in
  published (trace out.2) = [("plug-n-meet-room-duration-checker", payload)] /\
  roomsWithDuration handled.2 !! "room1:r1"
    = Some {| rd_Duration := 45; rd_StartedAt := 1000 |}.
Proof.
  intros w w' out payload handled.
  split; [vm_compute; reflexivity|].
  destruct (IncreaseBreakoutRoomDuration_event_handled env read_checker IncreaseRoomDuration
              DeleteRoomFromRoomWithDurationMap increaseReq w (trace out.2)
              "plug-n-meet-room-duration-checker" payload w')
    as (_ & _ & _ & Hmap).
  - reflexivity.
  - vm_compute. left. reflexivity.
  - vm_compute. reflexivity.
  - fold handled in Hmap. rewrite Hmap. vm_compute. reflexivity.
Defined.

End Scenarios2.
